(** * Change detection between two registry snapshots

    A shallow embedding of [process_data.py]: [find_changes] and the two
    comparisons of the script, the summary counts, the merging and cleaning
    of the state files and the selection of the companies to enrich,
    together with the fragment of pandas and numpy they rely on ([read_csv]
    / [set_index], the comparison of int64 and float64 scalars,
    [Index.difference], [Index.intersection], [DataFrame.loc],
    [DataFrame(records)], [concat], [drop_duplicates], [fillna]), and the
    properties proved about them. *)

From Stdlib Require Import List String Ascii ZArith Bool Lia.
From Stdlib Require Import Sorted Permutation Orders Mergesort.
Import ListNotations.
Local Open Scope string_scope.
Local Open Scope list_scope.

(** ** Exceptions and results *)

(** The exceptions that the code under study can meet: the two that
    [find_changes] catches, the [ValueError] of an ambiguous truth value, and
    those with which [pd.read_csv] refuses a file that exists. *)
Inductive Exn : Type :=
| FileNotFoundError
| KeyError
| ValueError
| EmptyDataError
| ParserError
| UnicodeDecodeError
| PermissionError.

(** A Python computation either returns a value or raises. *)
Inductive result (A : Type) : Type :=
| Return (a : A)
| Raise (e : Exn).

Arguments Return {A} a.
Arguments Raise {A} e.

Definition bind {A B : Type} (m : result A) (k : A -> result B) : result B :=
  match m with
  | Return a => k a
  | Raise e => Raise e
  end.

Notation "x <- m ;; k" := (bind m (fun x => k))
  (at level 61, m at next level, right associativity).

(** ** Cell values *)

(** A float64 that is not NaN, by its value: zero, a finite number
    [+-(2k+1) * 2^e], or an infinity. Every value has exactly one
    representation (the two zeros, which no comparison tells apart, are
    one), so that two floats are equal for [==] exactly when they are the
    same term. The type is wider than float64 (it does not bound [k] and
    [e]); [float_of_int] below lands in float64. *)
Inductive float64 : Type :=
| FZero
| FFinite (negative : bool) (k : N) (e : Z)
| FInf (negative : bool).

Definition float64_eqb (f g : float64) : bool :=
  match f, g with
  | FZero, FZero => true
  | FFinite s k e, FFinite s' k' e' =>
      Bool.eqb s s' && N.eqb k k' && Z.eqb e e'
  | FInf s, FInf s' => Bool.eqb s s'
  | _, _ => false
  end.

(** Odd part and exponent of a positive integer: [p = (2k+1) * 2^e]. *)
Fixpoint odd_part (p : positive) : N * Z :=
  match p with
  | xH => (0%N, 0%Z)
  | xI q => (Npos q, 0%Z)
  | xO q => let (k, e) := odd_part q in (k, (e + 1)%Z)
  end.

(** The float64 whose value is the integer [n], for an [n] that has one. *)
Definition float_exact (n : Z) : float64 :=
  match n with
  | Z0 => FZero
  | Zpos p => let (k, e) := odd_part p in FFinite false k e
  | Zneg p => let (k, e) := odd_part p in FFinite true k e
  end.

(** A magnitude rounded to 53 significant bits, to nearest, ties to even. *)
Definition round_53 (m : Z) : Z :=
  let bits := (Z.log2 m + 1)%Z in
  if (bits <=? 53)%Z then m
  else
    let shift := (bits - 53)%Z in
    let q := Z.shiftr m shift in
    let r := (m mod 2 ^ shift)%Z in
    let half := (2 ^ (shift - 1))%Z in
    let q' := if (half <? r)%Z || ((r =? half)%Z && Z.odd q)
              then (q + 1)%Z else q in
    Z.shiftl q' shift.

(** The conversion of an int64 to float64, which numpy applies to the
    integer before it compares an int64 with a float64. *)
Definition float_of_int (n : Z) : float64 :=
  float_exact (Z.sgn n * round_53 (Z.abs n)).

(** A cell. In the frames that [find_changes] compares, a cell is what
    [df.loc] hands over: missing ([NaN]), text ([Str], a cell of an object
    column), a numpy int64 ([Num], a cell of a column in which every cell
    reads as an integer, between -2^63 and 2^63 - 1) or a numpy float64 that
    is not missing ([Float], a cell of a numeric column that has a blank or a
    cell with a fraction or an exponent: 50 is then held as 50.0).
    Columns of booleans, and columns of mixed types, are not modelled. *)
Inductive Value : Type :=
| NaN
| Str (s : string)
| Num (n : Z)
| Float (f : float64).

(** [pd.isna] on a scalar. *)
Definition isna (v : Value) : bool :=
  match v with
  | NaN => true
  | _ => false
  end.

(** Python's [!=] on two scalars: [NaN] differs from everything, itself
    included; text differs from every number; two integers, or two floats,
    are compared as they are; an integer and a float are compared as two
    floats, the integer converted first. *)
Definition py_ne (a b : Value) : bool :=
  match a, b with
  | Str s, Str t => negb (String.eqb s t)
  | Num n, Num m => negb (Z.eqb n m)
  | Float f, Float g => negb (float64_eqb f g)
  | Num n, Float g => negb (float64_eqb (float_of_int n) g)
  | Float f, Num m => negb (float64_eqb f (float_of_int m))
  | _, _ => true
  end.

(** What [df.loc[label, column]] evaluates to: a scalar when the label
    occurs once in the index, a Series of the matching rows' cells when it
    occurs several times. *)
Inductive Cell : Type :=
| Scalar (v : Value)
| Series (vs : list Value).

(** ** Indexes *)

Definition Key : Type := string.

Definition mem (k : Key) (l : list Key) : bool := existsb (String.eqb k) l.

(** [Index.unique]: first occurrences, in order of appearance. *)
Fixpoint unique_from (seen l : list Key) : list Key :=
  match l with
  | [] => []
  | k :: t => if mem k seen then unique_from seen t
              else k :: unique_from (k :: seen) t
  end.

Definition unique (l : list Key) : list Key := unique_from [] l.

(** Keys are compared as Python compares [str]: character by character. *)
Module KeyOrder <: TotalLeBool.
Definition t := Key.
Definition leb (a b : Key) : bool := String.leb a b.
Definition leb_total : forall a b, leb a b = true \/ leb b a = true :=
    String.leb_total.
End KeyOrder.

Module KeySort := Sort KeyOrder.

(** [self.difference(other)] with the default [sort=None]: the distinct
    labels of [self] that are not in [other], sorted; pandas skips the sort
    when [other] is empty and returns [self.unique()]. *)
Definition index_difference (self other : list Key) : list Key :=
  match other with
  | [] => unique self
  | _ :: _ => KeySort.sort (unique (filter (fun k => negb (mem k other)) self))
  end.

(** [self.intersection(other)] with the default [sort=False]: the distinct
    labels of [self] that are in [other], in the order of [self]. *)
Definition index_intersection (self other : list Key) : list Key :=
  unique (filter (fun k => mem k other) self).

(** ** Data frames *)

(** A frame indexed by CIN: the labels of the remaining columns, and one
    entry per row holding the row's key and its cells. *)
Record DataFrame : Type := mkFrame {
  columns : list string;
  rows : list (Key * list Value)
}.

Definition index (df : DataFrame) : list Key := map fst (rows df).

(** What [pd.read_csv(path, dtype={'CIN': str})] makes of a file that
    exists: a table with a CIN column of strings, a table without one, or an
    exception (a file without any column is an [EmptyDataError], a
    malformed one a [ParserError], and so on). *)
Inductive Parsed : Type :=
| WithCIN (df : DataFrame)
| NoCIN (cols : list string) (body : list (list Value))
| Unreadable (e : Exn).

(** [pd.read_csv(path, dtype={'CIN': str})]: a path holds a file or
    nothing; nothing is a [FileNotFoundError], and a file that pandas
    refuses raises the exception of the refusal. *)
Definition read_csv (file : option Parsed) : result Parsed :=
  match file with
  | Some (Unreadable e) => Raise e
  | Some p => Return p
  | None => Raise FileNotFoundError
  end.

(** [.set_index('CIN')] on what [pd.read_csv] returned (the last case is
    never reached: [read_csv] has raised). *)
Definition set_index_CIN (p : Parsed) : result DataFrame :=
  match p with
  | WithCIN df => Return df
  | NoCIN _ _ => Raise KeyError
  | Unreadable e => Raise e
  end.

Fixpoint position (c : string) (cols : list string) : option nat :=
  match cols with
  | [] => None
  | c' :: t => if String.eqb c c' then Some 0
               else option_map S (position c t)
  end.

Definition rows_of (df : DataFrame) (cin : Key) : list (list Value) :=
  map snd (filter (fun r => String.eqb (fst r) cin) (rows df)).

(** [df.loc[cin, col]]. A short row reads as [NaN] past its end. *)
Definition loc (df : DataFrame) (cin : Key) (col : string) : result Cell :=
  match position col (columns df) with
  | None => Raise KeyError
  | Some j =>
      match rows_of df cin with
      | [] => Raise KeyError
      | [r] => Return (Scalar (nth j r NaN))
      | rs => Return (Series (map (fun r => nth j r NaN) rs))
      end
  end.

(** ** Change records *)

(** A record of the change list is a Python dict: its items, in insertion
    order. *)
Definition Dict : Type := list (string * Cell).

Definition text (s : string) : Cell := Scalar (Str s).

Fixpoint get (k : string) (d : Dict) : option Cell :=
  match d with
  | [] => None
  | (k', v) :: t => if String.eqb k k' then Some v else get k t
  end.

Definition keys (d : Dict) : list string := map fst d.

(** ** [find_changes] *)

(** A [for] loop whose body updates [changes_list]. *)
Fixpoint for_each {X : Type} (xs : list X)
    (body : X -> list Dict -> result (list Dict))
    (changes_list : list Dict) : result (list Dict) :=
  match xs with
  | [] => Return changes_list
  | x :: t => changes_list' <- body x changes_list ;; for_each t body changes_list'
  end.

Definition columns_to_check : list string :=
  ["CompanyStatus"; "AuthorizedCapital"; "PaidupCapital"].

(** The test [old_val != new_val and not (pd.isna(old_val) and
    pd.isna(new_val))]. When an operand is a Series the comparison is
    elementwise (or refused, for Series of different lengths) and the truth
    value of its result is ambiguous: [ValueError]. *)
Definition differs (old_val new_val : Cell) : result bool :=
  match old_val, new_val with
  | Scalar a, Scalar b => Return (py_ne a b && negb (isna a && isna b))
  | _, _ => Raise ValueError
  end.

Definition new_incorporation (df_new : DataFrame) (log_date : string)
    (cin : Key) (changes_list : list Dict) : result (list Dict) :=
  name <- loc df_new cin "CompanyName" ;;
  Return (changes_list ++
    [[("CIN", text cin);
      ("Change_Type", text "New Incorporation");
      ("Field_Changed", text "N/A");
      ("Old_Value", text "N/A");
      ("New_Value", name);
      ("Date", text log_date)]]).

Definition deregistered (df_old : DataFrame) (log_date : string)
    (cin : Key) (changes_list : list Dict) : result (list Dict) :=
  name <- loc df_old cin "CompanyName" ;;
  Return (changes_list ++
    [[("CIN", text cin);
      ("Change_Type", text "Deregistered");
      ("Field_Changed", text "N/A");
      ("Old_Value", name);
      ("New_Value", text "N/A");
      ("Date", text log_date)]]).

Definition field_update (df_old df_new : DataFrame) (log_date : string)
    (cin : Key) (col : string) (changes_list : list Dict)
    : result (list Dict) :=
  old_val <- loc df_old cin col ;;
  new_val <- loc df_new cin col ;;
  changed <- differs old_val new_val ;;
  if (changed : bool) then
    Return (changes_list ++
      [[("CIN", text cin);
        ("Change_Type", text "Field Update");
        ("Field_Changed", text col);
        ("Old_Value", old_val);
        ("New_Value", new_val);
        ("Date", text log_date)]])
  else Return changes_list.

(** The body of [find_changes] once both frames are loaded. *)
Definition compare_frames (df_old df_new : DataFrame) (log_date : string)
    : result (list Dict) :=
  let changes_list := [] in
  let new_cins := index_difference (index df_new) (index df_old) in
  changes_list <- for_each new_cins (new_incorporation df_new log_date) changes_list ;;
  let gone_cins := index_difference (index df_old) (index df_new) in
  changes_list <- for_each gone_cins (deregistered df_old log_date) changes_list ;;
  let common_cins := index_intersection (index df_old) (index df_new) in
  for_each common_cins
    (fun cin => for_each columns_to_check (field_update df_old df_new log_date cin))
    changes_list.

Definition load_frames (old_file new_file : option Parsed)
    : result (DataFrame * DataFrame) :=
  df_old <- (p <- read_csv old_file ;; set_index_CIN p) ;;
  df_new <- (p <- read_csv new_file ;; set_index_CIN p) ;;
  Return (df_old, df_new).

Definition find_changes (old_file new_file : option Parsed) (log_date : string)
    : result (list Dict) :=
  match load_frames old_file new_file with
  | Raise FileNotFoundError => Return []
  | Raise KeyError => Return []
  | Raise e => Raise e
  | Return (df_old, df_new) => compare_frames df_old df_new log_date
  end.

(** ** Summary counts *)

(** The columns of [pd.DataFrame(changes_list)], as written to and read back
    from the JSON log: the keys of the records; no record, no column. *)
Definition log_columns (log : list Dict) : list string :=
  unique (flat_map keys log).

Definition is_text (s : string) (c : option Cell) : bool :=
  match c with
  | Some (Scalar (Str s')) => String.eqb s' s
  | _ => false
  end.

(** [len(log_df[log_df['Change_Type'] == change_type])]. *)
Definition count_type (log : list Dict) (change_type : string) : result nat :=
  if mem "Change_Type" (log_columns log)
  then Return (List.length (filter (fun r => is_text change_type (get "Change_Type" r)) log))
  else Raise KeyError.

(** The three statistics of the daily summary. *)
Definition summary_counts (log : list Dict) : result (nat * nat * nat) :=
  new_corps <- count_type log "New Incorporation" ;;
  deregistered <- count_type log "Deregistered" ;;
  updates <- count_type log "Field Update" ;;
  Return (new_corps, deregistered, updates).

(** ** Scenario A *)

(** The float64 cell of a whole amount, as found in a numeric column that
    has a blank. *)
Definition amount (n : Z) : Value := Float (float_exact n).

Definition scenario_columns : list string :=
  ["CompanyName"; "CompanyStatus"; "AuthorizedCapital"; "PaidupCapital"].

Definition scenario_old : DataFrame :=
  mkFrame scenario_columns
    [("K1", [Str "Alpha"; Str "Active"; Num 100; amount 50]);
     ("K2", [Str "Beta"; Str "Active"; Num 200; NaN])].

Definition scenario_new : DataFrame :=
  mkFrame scenario_columns
    [("K2", [Str "Beta"; Str "Strike Off"; Num 200; NaN]);
     ("K3", [Str "Gamma"; Str "Active"; Num 300; amount 30])].

Definition scenario_log : list Dict :=
  [[("CIN", text "K3"); ("Change_Type", text "New Incorporation");
    ("Field_Changed", text "N/A"); ("Old_Value", text "N/A");
    ("New_Value", text "Gamma"); ("Date", text "Day 2")];
   [("CIN", text "K1"); ("Change_Type", text "Deregistered");
    ("Field_Changed", text "N/A"); ("Old_Value", text "Alpha");
    ("New_Value", text "N/A"); ("Date", text "Day 2")];
   [("CIN", text "K2"); ("Change_Type", text "Field Update");
    ("Field_Changed", text "CompanyStatus"); ("Old_Value", text "Active");
    ("New_Value", text "Strike Off"); ("Date", text "Day 2")]].


(** ** Specification vocabulary *)

(** Two cells are the same cell. *)
Definition value_eqb (a b : Value) : bool :=
  match a, b with
  | NaN, NaN => true
  | Str s, Str t => String.eqb s t
  | Num n, Num m => Z.eqb n m
  | Float f, Float g => float64_eqb f g
  | _, _ => false
  end.

(** Two present values are literally equal: the same text, or the same
    number, whether it is held as an integer or as a float. *)
Definition exactly_equal (a b : Value) : bool :=
  match a, b with
  | Str s, Str t => String.eqb s t
  | Num n, Num m => Z.eqb n m
  | Float f, Float g => float64_eqb f g
  | Num n, Float g => float64_eqb (float_exact n) g
  | Float f, Num m => float64_eqb f (float_exact m)
  | _, _ => false
  end.

(** Null-aware change, as the specification words it: exactly one side is
    absent, or both are present and not literally equal. *)
Definition null_aware_change (a b : Value) : bool :=
  xorb (isna a) (isna b)
  || (negb (isna a) && negb (isna b) && negb (exactly_equal a b)).

(** Equality of two present values when an integer is rounded to float64
    before it is compared with a float. *)
Definition equal_after_rounding (a b : Value) : bool :=
  match a, b with
  | Str s, Str t => String.eqb s t
  | Num n, Num m => Z.eqb n m
  | Float f, Float g => float64_eqb f g
  | Num n, Float g => float64_eqb (float_of_int n) g
  | Float f, Num m => float64_eqb f (float_of_int m)
  | _, _ => false
  end.

(** Null-aware change with that equality. *)
Definition change_after_rounding (a b : Value) : bool :=
  xorb (isna a) (isna b)
  || (negb (isna a) && negb (isna b) && negb (equal_after_rounding a b)).

(** The test of the inner loop on two scalars. *)
Definition cells_differ (a b : Value) : bool :=
  py_ne a b && negb (isna a && isna b).

(** No integer among two cells needs rounding to fit a float64. *)
Definition small_integers (a b : Value) : Prop :=
  forall n, a = Num n \/ b = Num n -> (Z.abs n < 2 ^ 53)%Z.

Definition has_type (change_type : string) (r : Dict) : Prop :=
  get "Change_Type" r = Some (text change_type).

Definition has_key (k : Key) (r : Dict) : Prop :=
  get "CIN" r = Some (text k).

(** The records of type Field Update about field [col] of key [k]. *)
Definition is_update_of (k : Key) (col : string) (r : Dict) : bool :=
  is_text k (get "CIN" r)
  && is_text "Field Update" (get "Change_Type" r)
  && is_text col (get "Field_Changed" r).

Definition count_updates (k : Key) (col : string) (log : list Dict) : nat :=
  List.length (filter (is_update_of k col) log).

(** Number of records selected by [p] in what a step produced. *)
Definition count_in (p : Dict -> bool) (m : result (list Dict)) : nat :=
  match m with
  | Return ys => List.length (filter p ys)
  | Raise _ => 0
  end.

Definition has_column (df : DataFrame) (c : string) : bool := mem c (columns df).

Definition watched_columns_present (df : DataFrame) : bool :=
  forallb (has_column df) columns_to_check.

(** The three key classes computed by the run. *)
Definition new_cins (df_old df_new : DataFrame) : list Key :=
  index_difference (index df_new) (index df_old).

Definition gone_cins (df_old df_new : DataFrame) : list Key :=
  index_difference (index df_old) (index df_new).

Definition common_cins (df_old df_new : DataFrame) : list Key :=
  index_intersection (index df_old) (index df_new).

(** The inner loop of the third pass: all watched fields of one key. *)
Definition watch_key (df_old df_new : DataFrame) (d : string) (k : Key)
    (acc : list Dict) : result (list Dict) :=
  for_each columns_to_check (field_update df_old df_new d k) acc.

(** The run meets a column it needs and that a frame does not have. *)
Definition schema_gap (df_old df_new : DataFrame) : bool :=
  (negb (has_column df_new "CompanyName")
     && negb (Nat.eqb (List.length (new_cins df_old df_new)) 0))
  || (negb (has_column df_old "CompanyName")
     && negb (Nat.eqb (List.length (gone_cins df_old df_new)) 0))
  || (negb (watched_columns_present df_old && watched_columns_present df_new)
     && negb (Nat.eqb (List.length (common_cins df_old df_new)) 0)).

Definition key_lt (a b : Key) : Prop := String.ltb a b = true.

Definition key_field (r : Dict) : option Cell * option Cell :=
  (get "CIN" r, get "Field_Changed" r).

Definition key_field_of (kc : Key * string) : option Cell * option Cell :=
  (Some (text (fst kc)), Some (text (snd kc))).

Definition record_keys : list string :=
  ["CIN"; "Change_Type"; "Field_Changed"; "Old_Value"; "New_Value"; "Date"].

Definition spec_record_keys : list string :=
  ["Key"; "Change_Type"; "Field_Changed"; "Old_Value"; "New_Value"; "Date"].

(** Whether the comparison of field [snd kc] of key [fst kc] appends a
    record. *)
Definition emits (df_old df_new : DataFrame) (d : string)
    (kc : Key * string) : bool :=
  match field_update df_old df_new d (fst kc) (snd kc) [] with
  | Return (_ :: _) => true
  | _ => false
  end.

Definition type_is (change_type : string) (r : Dict) : bool :=
  is_text change_type (get "Change_Type" r).

Definition count_records (change_type : string) (log : list Dict) : nat :=
  List.length (filter (type_is change_type) log).

Definition schema_complete (df : DataFrame) : bool :=
  has_column df "CompanyName" && watched_columns_present df.

(** ** Further sample snapshots *)

(** Key K1 on two rows of the old snapshot, absent from the new one. *)
Definition dup_old : DataFrame :=
  mkFrame scenario_columns
    [("K1", [Str "Alpha"; Str "Active"; Num 100; amount 50]);
     ("K1", [Str "Alpha Ltd"; Str "Active"; Num 100; amount 50]);
     ("K2", [Str "Beta"; Str "Active"; Num 200; NaN])].

Definition dup_new : DataFrame :=
  mkFrame scenario_columns
    [("K2", [Str "Beta"; Str "Active"; Num 200; NaN])].

Definition dup_log : list Dict :=
  [[("CIN", text "K1"); ("Change_Type", text "Deregistered");
    ("Field_Changed", text "N/A");
    ("Old_Value", Series [Str "Alpha"; Str "Alpha Ltd"]);
    ("New_Value", text "N/A"); ("Date", text "Day 2")]].

(** Key K2 on two rows of the old snapshot, and present in the new one. *)
Definition dup_common_old : DataFrame :=
  mkFrame scenario_columns
    [("K2", [Str "Beta"; Str "Active"; Num 200; NaN]);
     ("K2", [Str "Beta"; Str "Dormant"; Num 200; NaN])].

(** Same keys in another row order, both statuses changed. *)
Definition shuffled_old : DataFrame :=
  mkFrame scenario_columns
    [("K2", [Str "Beta"; Str "Active"; Num 200; NaN]);
     ("K1", [Str "Alpha"; Str "Active"; Num 100; amount 50])].

Definition shuffled_new : DataFrame :=
  mkFrame scenario_columns
    [("K1", [Str "Alpha"; Str "Strike Off"; Num 100; amount 50]);
     ("K2", [Str "Beta"; Str "Strike Off"; Num 200; NaN])].

Definition shuffled_log : list Dict :=
  [[("CIN", text "K2"); ("Change_Type", text "Field Update");
    ("Field_Changed", text "CompanyStatus"); ("Old_Value", text "Active");
    ("New_Value", text "Strike Off"); ("Date", text "Day 2")];
   [("CIN", text "K1"); ("Change_Type", text "Field Update");
    ("Field_Changed", text "CompanyStatus"); ("Old_Value", text "Active");
    ("New_Value", text "Strike Off"); ("Date", text "Day 2")]].

(** A new snapshot without the CompanyName column, on the keys of
    [scenario_old]. *)
Definition nameless_new : DataFrame :=
  mkFrame ["CompanyStatus"; "AuthorizedCapital"; "PaidupCapital"]
    [("K1", [Str "Active"; Num 100; amount 50]);
     ("K2", [Str "Strike Off"; Num 200; NaN])].

Definition nameless_log : list Dict :=
  [[("CIN", text "K2"); ("Change_Type", text "Field Update");
    ("Field_Changed", text "CompanyStatus"); ("Old_Value", text "Active");
    ("New_Value", text "Strike Off"); ("Date", text "Day 2")]].

(** Two snapshots on the same two keys. The authorized capital of K1 is
    9007199254740993 in the old file, where the column holds integers only,
    and 9007199254740992 in the new file, where the column has a blank (that
    of K2) and is therefore held in floating point. *)
Definition drift_old : DataFrame :=
  mkFrame scenario_columns
    [("K1", [Str "Alpha"; Str "Active"; Num 9007199254740993; Num 50]);
     ("K2", [Str "Beta"; Str "Active"; Num 200; Num 20])].

Definition drift_new : DataFrame :=
  mkFrame scenario_columns
    [("K1", [Str "Alpha"; Str "Active"; amount 9007199254740992; Num 50]);
     ("K2", [Str "Beta"; Str "Active"; NaN; Num 20])].

Definition drift_log : list Dict :=
  [[("CIN", text "K2"); ("Change_Type", text "Field Update");
    ("Field_Changed", text "AuthorizedCapital"); ("Old_Value", Scalar (Num 200));
    ("New_Value", Scalar NaN); ("Date", text "Day 2")]].

(** ** The records a run appends *)

Definition new_incorporation_record (cin : Key) (name : Cell) (log_date : string)
    : Dict :=
  [("CIN", text cin);
   ("Change_Type", text "New Incorporation");
   ("Field_Changed", text "N/A");
   ("Old_Value", text "N/A");
   ("New_Value", name);
   ("Date", text log_date)].

Definition deregistered_record (cin : Key) (name : Cell) (log_date : string)
    : Dict :=
  [("CIN", text cin);
   ("Change_Type", text "Deregistered");
   ("Field_Changed", text "N/A");
   ("Old_Value", name);
   ("New_Value", text "N/A");
   ("Date", text log_date)].

Definition field_update_record (cin : Key) (col : string)
    (old_val new_val : Cell) (log_date : string) : Dict :=
  [("CIN", text cin);
   ("Change_Type", text "Field Update");
   ("Field_Changed", text col);
   ("Old_Value", old_val);
   ("New_Value", new_val);
   ("Date", text log_date)].

(** The records about key [k]. *)
Definition key_is (k : Key) (r : Dict) : bool := is_text k (get "CIN" r).

(** ** The two comparisons of the script *)

(** Day 1 against day 2, then day 2 against day 3; an exception of the first
    comparison stops the script before the second. *)
Definition run_comparisons (day1 day2 day3 : option Parsed)
    : result (list Dict * list Dict) :=
  changes_day_2 <- find_changes day1 day2 "Day 2" ;;
  changes_day_3 <- find_changes day2 day3 "Day 3" ;;
  Return (changes_day_2, changes_day_3).

(** A snapshot with a header and no row. *)
Definition no_rows : DataFrame := mkFrame scenario_columns [].

(** Day 3 of a chain in which K1 comes back. *)
Definition scenario_day3 : DataFrame :=
  mkFrame scenario_columns
    [("K1", [Str "Alpha"; Str "Active"; Num 100; amount 50]);
     ("K2", [Str "Beta"; Str "Strike Off"; Num 200; NaN])].

(** Scenario A compared the other way round. *)
Definition scenario_back_log : list Dict :=
  [new_incorporation_record "K1" (text "Alpha") "Back";
   deregistered_record "K3" (text "Gamma") "Back";
   field_update_record "K2" "CompanyStatus" (text "Strike Off") (text "Active")
     "Back"].

(** ** Task A: merging and cleaning the state files *)

(** A frame without index: column labels and rows of cells.

    Task A moves rows, compares CINs to find the rows to drop and fills
    missing cells; it never compares a number held as an integer with one
    held as a float. Its frames are therefore modelled by the values of
    their cells, without the dtype of their columns: a number is written
    [Num n] when it is the integer [n], whether pandas holds it as 5 or as
    5.0, and [Float f] otherwise. *)
Record Table : Type := mkTable {
  header : list string;
  body : list (list Value)
}.

(** The cell of a row under a column label; a short row, or a label the
    frame does not have, reads as [NaN]. *)
Definition cell (df : Table) (row : list Value) (c : string) : Value :=
  match position c (header df) with
  | Some j => nth j row NaN
  | None => NaN
  end.

(** The reading loop: a file that cannot be read is reported and skipped. *)
Definition read_all (files : list (option Table)) : list Table :=
  flat_map (fun file => match file with
                        | Some df => [df]
                        | None => []
                        end) files.

(** [pd.concat(all_dataframes, ignore_index=True)]: the columns are the
    labels of the frames in order of first appearance, each row is
    realigned on them, and nothing to concatenate is a [ValueError].

    pandas also gives every column of the result one dtype. A column of
    integers that meets a missing cell or a float becomes float64, which
    leaves every integer up to 2^53 in magnitude as it is and rounds the
    others; this rounding is not modelled. Text is never converted. What is
    proved below of the master frame is either independent of the values of
    the cells, or about text cells, or stated on the cells of the frame that
    [concat] returns. *)
Definition concat (all_dataframes : list Table) : result Table :=
  match all_dataframes with
  | [] => Raise ValueError
  | _ :: _ =>
      let cols := unique (flat_map header all_dataframes) in
      Return (mkTable cols
                (flat_map (fun df => map (fun row => map (cell df row) cols) (body df))
                   all_dataframes))
  end.

Definition value_in (v : Value) (seen : list Value) : bool :=
  existsb (value_eqb v) seen.

(** Rows whose cell [j] was not met before, in order. *)
Fixpoint keep_first (j : nat) (seen : list Value) (rws : list (list Value))
    : list (list Value) :=
  match rws with
  | [] => []
  | row :: rest =>
      if value_in (nth j row NaN) seen then keep_first j seen rest
      else row :: keep_first j (nth j row NaN :: seen) rest
  end.

(** [df.drop_duplicates(subset=[c])]. *)
Definition drop_duplicates (c : string) (df : Table) : result Table :=
  match position c (header df) with
  | None => Raise KeyError
  | Some j => Return (mkTable (header df) (keep_first j [] (body df)))
  end.

Fixpoint update_nth (j : nat) (f : Value -> Value) (row : list Value)
    : list Value :=
  match j, row with
  | O, x :: t => f x :: t
  | O, [] => [f NaN]
  | S j', x :: t => x :: update_nth j' f t
  | S j', [] => NaN :: update_nth j' f []
  end.

Definition fill (v x : Value) : Value := if isna x then v else x.

(** [df[c] = df[c].fillna(v)]. *)
Definition fillna (c : string) (v : Value) (df : Table) : result Table :=
  match position c (header df) with
  | None => Raise KeyError
  | Some j => Return (mkTable (header df) (map (update_nth j (fill v)) (body df)))
  end.

(** Task A up to the master frame that is saved. *)
Definition integrate (files : list (option Table)) : result Table :=
  let all_dataframes := read_all files in
  master_df <- concat all_dataframes ;;
  master_df <- drop_duplicates "CIN" master_df ;;
  master_df <- fillna "AuthorizedCapital" (Num 0) master_df ;;
  master_df <- fillna "PaidupCapital" (Num 0) master_df ;;
  fillna "CompanyStatus" (Str "Unknown") master_df.

Definition filled_columns : list (string * Value) :=
  [("AuthorizedCapital", Num 0); ("PaidupCapital", Num 0);
   ("CompanyStatus", Str "Unknown")].

Definition needed_columns : list string :=
  ["CIN"; "AuthorizedCapital"; "PaidupCapital"; "CompanyStatus"].

(** Two state files that share a company. *)
Definition state_columns : list string :=
  ["CIN"; "CompanyName"; "CompanyStatus"; "AuthorizedCapital"; "PaidupCapital"].

Definition state_one : Table :=
  mkTable state_columns
    [[Str "K1"; Str "Alpha"; Str "Active"; Num 100; NaN];
     [Str "K2"; Str "Beta"; NaN; Num 200; Num 20]].

Definition state_two : Table :=
  mkTable state_columns
    [[Str "K2"; Str "Beta bis"; Str "Dormant"; NaN; NaN];
     [Str "K3"; Str "Gamma"; Str "Active"; NaN; Num 30]].

Definition state_master : Table :=
  mkTable state_columns
    [[Str "K1"; Str "Alpha"; Str "Active"; Num 100; Num 0];
     [Str "K2"; Str "Beta"; Str "Unknown"; Num 200; Num 20];
     [Str "K3"; Str "Gamma"; Str "Active"; Num 0; Num 30]].

(** What cleaning does to a cell of column [c]. *)
Definition fill_for (c : string) (x : Value) : Value :=
  match find (fun p => String.eqb (fst p) c) filled_columns with
  | Some (_, v) => fill v x
  | None => x
  end.

(** Whether a column that Task A needs is in none of the frames. *)
Definition missing_needed (dfs : list Table) : bool :=
  existsb (fun c => negb (mem c (flat_map header dfs))) needed_columns.

(** The three fills on one row, by column position. *)
Definition clean_row (ja jp js : nat) (row : list Value) : list Value :=
  update_nth js (fill (Str "Unknown"))
    (update_nth jp (fill (Num 0))
       (update_nth ja (fill (Num 0)) row)).

(** [cell] by header alone. *)
Definition nth_cell_of (h : list string) (c : string) (row : list Value) : Value :=
  match position c h with
  | Some j => nth j row NaN
  | None => NaN
  end.

(** ** Task C: which companies are enriched *)

(** The values of a column of [pd.DataFrame(changes_list)], the frame that
    is written to the JSON log; a record without the key gives [NaN]. *)
Definition column_values (c : string) (log : list Dict) : list Value :=
  map (fun r => match get c r with
                | Some (Scalar v) => v
                | _ => NaN
                end) log.

(** [Series.unique()]: first occurrences, in order of appearance. *)
Fixpoint unique_values_from (seen l : list Value) : list Value :=
  match l with
  | [] => []
  | v :: t => if value_in v seen then unique_values_from seen t
              else v :: unique_values_from (v :: seen) t
  end.

Definition unique_values (l : list Value) : list Value := unique_values_from [] l.

(** What the scraper read on a company page. *)
Record Scraped : Type := mkScraped {
  director_names : list string;
  email : string;
  website : string
}.

Section Enrichment.

(** What [pd.read_json] makes of a column of the log. On the way back from
    the file pandas tries to convert the column: when every cell of it reads
    as a number the column comes back as numbers (the text 007 as the integer
    7), otherwise it comes back as it was written. *)
Variable read_json_column : list Value -> list Value.

(** [log_df = pd.read_json(...)] followed by [log_df['CIN'].unique()[:25]];
    the log without records is read back as a frame without columns. *)
Definition cins_to_enrich (log : list Dict) : result (list Value) :=
  if mem "CIN" (log_columns log)
  then Return (firstn 25 (unique_values
                            (read_json_column (column_values "CIN" log))))
  else Raise KeyError.

(** The request and the parsing of the page: nothing when the status is not
    200 or when an exception is met. *)
Variable fetch : Value -> option Scraped.

Definition enrich_company_data (cin : Value) : option Dict :=
  match fetch cin with
  | None => None
  | Some page =>
      Some [("CIN", Scalar cin);
            ("Scraped_Directors",
               text (match director_names page with
                     | [] => "Not Found"
                     | _ :: _ => String.concat ", " (director_names page)
                     end));
            ("Scraped_Email", text (email page));
            ("Scraped_Website", text (website page))]
  end.

(** The enrichment loop: one request per selected CIN, the answers that are
    not empty are collected in order. *)
Definition run_enrichment (log : list Dict) : result (list Dict) :=
  cins_to_enrich <- cins_to_enrich log ;;
  Return (flat_map (fun cin => match enrich_company_data cin with
                              | Some (item :: data) => [item :: data]
                              | _ => []
                              end) cins_to_enrich).

End Enrichment.

(** A column that is read back as it was written. *)
Definition as_written (column : list Value) : list Value := column.

(** A scraper that finds every page but the one of K3. *)
Definition sample_fetch (cin : Value) : option Scraped :=
  match cin with
  | Str "K3" => None
  | _ => Some (mkScraped ["A. Kumar"; "B. Rao"] "Not Found" "example.org")
  end.

Definition sample_enriched : list Dict :=
  [[("CIN", text "K1"); ("Scraped_Directors", text "A. Kumar, B. Rao");
    ("Scraped_Email", text "Not Found"); ("Scraped_Website", text "example.org")];
   [("CIN", text "K2"); ("Scraped_Directors", text "A. Kumar, B. Rao");
    ("Scraped_Email", text "Not Found"); ("Scraped_Website", text "example.org")]].

(** [scenario_new] with one more column, placed first. *)
Definition extended_new : DataFrame :=
  mkFrame ("CompanyStateCode" :: scenario_columns)
    [("K2", [Str "DL"; Str "Beta"; Str "Strike Off"; Num 200; NaN]);
     ("K3", [Str "MH"; Str "Gamma"; Str "Active"; Num 300; amount 30])].

(** ** Keys and indexes *)

Lemma mem_In (k : Key) (l : list Key) : mem k l = true <-> In k l.
Proof.
  unfold mem. rewrite existsb_exists. split.
  - intros [x [Hin Heq]]. apply String.eqb_eq in Heq. now subst.
  - intros Hin. exists k. split; [assumption | apply String.eqb_refl].
Qed.

Lemma mem_not_In (k : Key) (l : list Key) : mem k l = false <-> ~ In k l.
Proof.
  rewrite <- mem_In. destruct (mem k l); split; intros; congruence.
Qed.

Lemma In_unique_from (seen l : list Key) (k : Key) :
  In k (unique_from seen l) <-> In k l /\ ~ In k seen.
Proof.
  revert seen. induction l as [|x t IH]; intros seen; simpl.
  - tauto.
  - destruct (mem x seen) eqn:Hm.
    + apply mem_In in Hm. rewrite IH. split.
      * tauto.
      * intros [[->|Hin] Hn]; [contradiction | tauto].
    + apply mem_not_In in Hm. simpl. rewrite IH. simpl. split.
      * intros [->|[Hin Hn]]; [tauto|]. tauto.
      * intros [[->|Hin] Hn]; [tauto|].
        destruct (string_dec x k) as [->|Hne]; [tauto|]. right. tauto.
Qed.

Lemma NoDup_unique_from (seen l : list Key) : NoDup (unique_from seen l).
Proof.
  revert seen. induction l as [|x t IH]; intros seen; simpl.
  - constructor.
  - destruct (mem x seen); [apply IH|].
    constructor; [|apply IH].
    rewrite In_unique_from. simpl. tauto.
Qed.

Lemma unique_from_NoDup (seen l : list Key) :
  NoDup l -> (forall k, In k l -> ~ In k seen) -> unique_from seen l = l.
Proof.
  revert seen. induction l as [|x t IH]; intros seen Hnd Hfresh; simpl.
  - reflexivity.
  - inversion Hnd as [|? ? Hx Ht]; subst.
    assert (Hm : mem x seen = false)
      by (apply mem_not_In, Hfresh; now left).
    rewrite Hm. f_equal. apply IH; [assumption|].
    intros k Hk [->|Hs]; [contradiction|].
    apply (Hfresh k); [now right | assumption].
Qed.

Lemma In_unique (l : list Key) (k : Key) : In k (unique l) <-> In k l.
Proof. unfold unique. rewrite In_unique_from. simpl. tauto. Qed.

Lemma NoDup_unique (l : list Key) : NoDup (unique l).
Proof. apply NoDup_unique_from. Qed.

Lemma unique_NoDup (l : list Key) : NoDup l -> unique l = l.
Proof. intros H. apply unique_from_NoDup; [assumption | intros k _ []]. Qed.

Lemma NoDup_filter_keys (p : Key -> bool) (l : list Key) :
  NoDup l -> NoDup (filter p l).
Proof.
  induction 1 as [|x t Hx Ht IH]; simpl; [constructor|].
  destruct (p x); [|assumption].
  constructor; [|assumption].
  rewrite filter_In. tauto.
Qed.

Lemma In_index_difference (self other : list Key) (k : Key) :
  In k (index_difference self other) <-> In k self /\ ~ In k other.
Proof.
  unfold index_difference. destruct other as [|o other'].
  - rewrite In_unique. simpl. tauto.
  - set (other := o :: other').
    split.
    + intros H.
      apply (Permutation_in _ (Permutation_sym (KeySort.Permuted_sort _))) in H.
      apply In_unique, filter_In in H. destruct H as [H1 H2].
      apply negb_true_iff, mem_not_In in H2. tauto.
    + intros [H1 H2].
      apply (Permutation_in _ (KeySort.Permuted_sort _)).
      apply In_unique, filter_In. split; [assumption|].
      now apply negb_true_iff, mem_not_In.
Qed.

Lemma NoDup_index_difference (self other : list Key) :
  NoDup (index_difference self other).
Proof.
  unfold index_difference. destruct other.
  - apply NoDup_unique.
  - eapply Permutation_NoDup; [apply KeySort.Permuted_sort | apply NoDup_unique].
Qed.

Lemma In_index_intersection (self other : list Key) (k : Key) :
  In k (index_intersection self other) <-> In k self /\ In k other.
Proof.
  unfold index_intersection. rewrite In_unique, filter_In, mem_In. tauto.
Qed.

Lemma NoDup_index_intersection (self other : list Key) :
  NoDup (index_intersection self other).
Proof. apply NoDup_unique. Qed.

Lemma index_intersection_NoDup (self other : list Key) :
  NoDup self ->
  index_intersection self other = filter (fun k => mem k other) self.
Proof.
  intros H. unfold index_intersection. apply unique_NoDup.
  now apply NoDup_filter_keys.
Qed.

Lemma index_difference_self (l : list Key) : index_difference l l = [].
Proof.
  destruct (index_difference l l) as [|k t] eqn:E; [reflexivity|].
  assert (H : In k (index_difference l l)) by (rewrite E; now left).
  apply In_index_difference in H. tauto.
Qed.

(** Sorting distinct keys gives a strictly ascending list. *)
Lemma leb_neq_lt (a b : Key) : String.leb a b = true -> a <> b -> key_lt a b.
Proof.
  unfold key_lt, String.leb, String.ltb. intros Hle Hne.
  destruct (String.compare a b) eqn:E; try reflexivity; try discriminate.
  apply String.compare_eq_iff in E. contradiction.
Qed.

Lemma Sorted_strict (l : list Key) :
  Sorted (fun a b => is_true (KeyOrder.leb a b)) l -> NoDup l -> Sorted key_lt l.
Proof.
  induction 1 as [|a l Hs IH Hhd]; intros Hnd; constructor.
  - apply IH. now inversion Hnd.
  - inversion Hnd as [|? ? Ha _]; subst.
    destruct Hhd as [|b l Hab]; constructor.
    apply leb_neq_lt; [exact Hab|]. intros ->. apply Ha. now left.
Qed.

Lemma Sorted_index_difference (self other : list Key) :
  other <> [] -> Sorted key_lt (index_difference self other).
Proof.
  intros Hne. pose proof (NoDup_index_difference self other) as Hnd.
  unfold index_difference in *. destruct other; [contradiction|].
  apply Sorted_strict; [apply KeySort.Sorted_sort | assumption].
Qed.

(** ** Label lookups *)

Lemma position_None (c : string) (cols : list string) :
  position c cols = None <-> mem c cols = false.
Proof.
  induction cols as [|c' t IH]; simpl.
  - tauto.
  - destruct (String.eqb c c'); simpl.
    + split; discriminate.
    + rewrite <- IH. destruct (position c t); simpl; split; congruence.
Qed.

Lemma rows_of_length (df : DataFrame) (k : Key) :
  List.length (rows_of df k) = count_occ string_dec (index df) k.
Proof.
  unfold rows_of, index. rewrite length_map.
  induction (rows df) as [|[k' r] t IH]; simpl; [reflexivity|].
  destruct (string_dec k' k) as [->|Hne].
  - rewrite String.eqb_refl. simpl. now rewrite IH.
  - apply String.eqb_neq in Hne. now rewrite Hne.
Qed.

Lemma loc_missing (df : DataFrame) (k : Key) (c : string) :
  has_column df c = false -> loc df k c = Raise KeyError.
Proof.
  unfold has_column, loc. intros H. apply position_None in H. now rewrite H.
Qed.

Lemma loc_present (df : DataFrame) (k : Key) (c : string) :
  has_column df c = true -> In k (index df) ->
  exists cell, loc df k c = Return cell.
Proof.
  unfold has_column, loc. intros Hc Hk.
  destruct (position c (columns df)) as [j|] eqn:Hp.
  - pose proof (rows_of_length df k) as Hl.
    apply (count_occ_In string_dec) in Hk.
    destruct (rows_of df k) as [|r [|r' t]]; simpl in Hl; [lia | eauto | eauto].
  - apply position_None in Hp. congruence.
Qed.

Lemma loc_once (df : DataFrame) (k : Key) (c : string) :
  has_column df c = true -> count_occ string_dec (index df) k = 1 ->
  exists v, loc df k c = Return (Scalar v).
Proof.
  unfold has_column, loc. intros Hc Hk.
  destruct (position c (columns df)) as [j|] eqn:Hp.
  - pose proof (rows_of_length df k) as Hl. rewrite Hk in Hl.
    destruct (rows_of df k) as [|r [|r' t]]; simpl in Hl; try lia. eauto.
  - apply position_None in Hp. congruence.
Qed.

Lemma loc_unique (df : DataFrame) (k : Key) (c : string) :
  has_column df c = true -> NoDup (index df) -> In k (index df) ->
  exists v, loc df k c = Return (Scalar v).
Proof.
  intros Hc Hnd Hk. apply loc_once; [assumption|].
  exact (proj1 (NoDup_count_occ' string_dec (index df)) Hnd k Hk).
Qed.

Lemma loc_scalar_once (df : DataFrame) (k : Key) (c : string) (v : Value) :
  loc df k c = Return (Scalar v) -> count_occ string_dec (index df) k = 1.
Proof.
  unfold loc. rewrite <- rows_of_length.
  destruct (position c (columns df)); [|discriminate].
  destruct (rows_of df k) as [|r [|r' t]]; simpl; congruence.
Qed.

Lemma loc_returns_column (df : DataFrame) (k : Key) (c : string) (cell : Cell) :
  loc df k c = Return cell -> has_column df c = true.
Proof.
  intros H. destruct (has_column df c) eqn:E; [reflexivity|].
  rewrite (loc_missing df k c E) in H. discriminate.
Qed.

Lemma float64_eqb_eq (f g : float64) : float64_eqb f g = true <-> f = g.
Proof.
  destruct f as [|s k e|s], g as [|s' k' e'|s']; simpl;
    try (split; [discriminate | congruence]).
  - tauto.
  - rewrite !andb_true_iff, Bool.eqb_true_iff, N.eqb_eq, Z.eqb_eq.
    split; [intros [[-> ->] ->]; reflexivity | intros H; injection H; auto].
  - rewrite Bool.eqb_true_iff. split; congruence.
Qed.

Lemma float64_eqb_refl (f : float64) : float64_eqb f f = true.
Proof. now apply float64_eqb_eq. Qed.

Lemma float64_eqb_sym (f g : float64) : float64_eqb f g = float64_eqb g f.
Proof.
  destruct (float64_eqb f g) eqn:E.
  - apply float64_eqb_eq in E. subst. now rewrite float64_eqb_refl.
  - destruct (float64_eqb g f) eqn:E'; [|reflexivity].
    apply float64_eqb_eq in E'. subst. now rewrite float64_eqb_refl in E.
Qed.

(** The test of the loop on two scalars. *)
Lemma differs_scalars (a b : Value) :
  differs (Scalar a) (Scalar b) = Return (cells_differ a b).
Proof. reflexivity. Qed.

Lemma differs_same (v : Value) : differs (Scalar v) (Scalar v) = Return false.
Proof.
  rewrite differs_scalars. f_equal. unfold cells_differ.
  destruct v; simpl; [reflexivity | | | ].
  - now rewrite String.eqb_refl.
  - now rewrite Z.eqb_refl.
  - now rewrite float64_eqb_refl.
Qed.

(** ** Loops that append to the change list *)

Section Loops.
Context {X : Type}.
Variable body : X -> list Dict -> result (list Dict).
Hypothesis body_appends :
  forall x acc, body x acc = ys <- body x [] ;; Return (acc ++ ys).

Lemma for_each_acc (xs : list X) (acc : list Dict) :
  for_each xs body acc = ys <- for_each xs body [] ;; Return (acc ++ ys).
Proof.
  revert acc. induction xs as [|x t IH]; intros acc; simpl.
  - now rewrite app_nil_r.
  - rewrite (body_appends x acc).
    destruct (body x []) as [ys|e]; simpl; [|reflexivity].
    rewrite (IH (acc ++ ys)), (IH ys).
    destruct (for_each t body []) as [zs|e]; simpl; [|reflexivity].
    now rewrite app_assoc.
Qed.

Lemma for_each_cons (x : X) (t : list X) :
  for_each (x :: t) body [] =
  ys <- body x [] ;; zs <- for_each t body [] ;; Return (ys ++ zs).
Proof.
  simpl. destruct (body x []) as [ys|e]; simpl; [|reflexivity].
  apply for_each_acc.
Qed.

Lemma for_each_returns (xs : list X) :
  (forall x, In x xs -> exists ys, body x [] = Return ys) ->
  exists ys, for_each xs body [] = Return ys.
Proof.
  induction xs as [|x t IH]; intros H.
  - now exists [].
  - rewrite for_each_cons.
    destruct (H x (or_introl eq_refl)) as [ys ->].
    destruct IH as [zs ->]; [intros y Hy; apply H; now right|].
    simpl. eauto.
Qed.

Lemma for_each_raises (xs : list X) (e : Exn) :
  xs <> [] -> (forall x, In x xs -> body x [] = Raise e) ->
  for_each xs body [] = Raise e.
Proof.
  destruct xs as [|x t]; [contradiction|]. intros _ H.
  rewrite for_each_cons, (H x (or_introl eq_refl)). reflexivity.
Qed.

Lemma for_each_nothing (xs : list X) :
  (forall x, In x xs -> body x [] = Return []) ->
  for_each xs body [] = Return [].
Proof.
  induction xs as [|x t IH]; intros H; [reflexivity|].
  rewrite for_each_cons, (H x (or_introl eq_refl)), IH; [reflexivity|].
  intros y Hy. apply H. now right.
Qed.

Lemma for_each_steps (xs : list X) (ys : list Dict) :
  for_each xs body [] = Return ys ->
  forall x, In x xs -> exists zs, body x [] = Return zs.
Proof.
  revert ys. induction xs as [|x t IH]; intros ys H y Hy; [destruct Hy|].
  rewrite for_each_cons in H.
  destruct (body x []) as [us|e] eqn:Hx; simpl in H; [|discriminate].
  destruct (for_each t body []) as [vs|e] eqn:Ht; simpl in H; [|discriminate].
  destruct Hy as [<-|Hy]; [eauto | eapply IH; eauto].
Qed.

Lemma for_each_Forall (P : Dict -> Prop) (xs : list X) (ys : list Dict) :
  (forall x zs, In x xs -> body x [] = Return zs -> Forall P zs) ->
  for_each xs body [] = Return ys -> Forall P ys.
Proof.
  revert ys. induction xs as [|x t IH]; intros ys HP H.
  - injection H as <-. constructor.
  - rewrite for_each_cons in H.
    destruct (body x []) as [us|e] eqn:Hx; simpl in H; [|discriminate].
    destruct (for_each t body []) as [vs|e] eqn:Ht; simpl in H; [|discriminate].
    injection H as <-. apply Forall_app. split.
    + apply (HP x); [now left | assumption].
    + apply IH; [|reflexivity]. intros y zs Hy. apply HP. now right.
Qed.

Lemma for_each_count (p : Dict -> bool) (xs : list X) (ys : list Dict) :
  for_each xs body [] = Return ys ->
  List.length (filter p ys) =
  list_sum (map (fun x => count_in p (body x [])) xs).
Proof.
  revert ys. induction xs as [|x t IH]; intros ys H.
  - injection H as <-. reflexivity.
  - rewrite for_each_cons in H.
    destruct (body x []) as [us|e] eqn:Hx; simpl in H; [|discriminate].
    destruct (for_each t body []) as [vs|e] eqn:Ht; simpl in H; [|discriminate].
    injection H as <-. simpl. rewrite Hx. simpl.
    rewrite filter_app, length_app. f_equal. now apply IH.
Qed.

(** What each step contributes, mapped by [g], read off the list. *)
Lemma for_each_map {B : Type} (g : Dict -> B) (h : X -> list B)
    (xs : list X) (ys : list Dict) :
  (forall x zs, In x xs -> body x [] = Return zs -> map g zs = h x) ->
  for_each xs body [] = Return ys -> map g ys = flat_map h xs.
Proof.
  revert ys. induction xs as [|x t IH]; intros ys Hh H.
  - injection H as <-. reflexivity.
  - rewrite for_each_cons in H.
    destruct (body x []) as [us|e] eqn:Hx; simpl in H; [|discriminate].
    destruct (for_each t body []) as [vs|e] eqn:Ht; simpl in H; [|discriminate].
    injection H as <-. simpl. rewrite map_app. f_equal.
    + apply Hh; [now left | assumption].
    + apply IH; [|reflexivity]. intros y zs Hy. apply Hh. now right.
Qed.
End Loops.

(** ** The three loop bodies *)

Lemma new_incorporation_appends (df : DataFrame) (d : string) (k : Key)
    (acc : list Dict) :
  new_incorporation df d k acc =
  ys <- new_incorporation df d k [] ;; Return (acc ++ ys).
Proof.
  unfold new_incorporation. destruct (loc df k "CompanyName"); reflexivity.
Qed.

Lemma deregistered_appends (df : DataFrame) (d : string) (k : Key)
    (acc : list Dict) :
  deregistered df d k acc =
  ys <- deregistered df d k [] ;; Return (acc ++ ys).
Proof.
  unfold deregistered. destruct (loc df k "CompanyName"); reflexivity.
Qed.

Lemma field_update_appends (df_old df_new : DataFrame) (d : string) (k : Key)
    (c : string) (acc : list Dict) :
  field_update df_old df_new d k c acc =
  ys <- field_update df_old df_new d k c [] ;; Return (acc ++ ys).
Proof.
  unfold field_update.
  destruct (loc df_old k c) as [o|]; simpl; [|reflexivity].
  destruct (loc df_new k c) as [n|]; simpl; [|reflexivity].
  destruct (differs o n) as [[|]|]; simpl; try reflexivity.
  now rewrite app_nil_r.
Qed.

Lemma watch_key_appends (df_old df_new : DataFrame) (d : string) (k : Key)
    (acc : list Dict) :
  watch_key df_old df_new d k acc =
  ys <- watch_key df_old df_new d k [] ;; Return (acc ++ ys).
Proof.
  unfold watch_key. apply for_each_acc. intros c a. apply field_update_appends.
Qed.

(** The run as three independent passes whose outputs are concatenated. *)
Lemma compare_frames_sections (df_old df_new : DataFrame) (d : string) :
  compare_frames df_old df_new d =
  added <- for_each (new_cins df_old df_new) (new_incorporation df_new d) [] ;;
  removed <- for_each (gone_cins df_old df_new) (deregistered df_old d) [] ;;
  updates <- for_each (common_cins df_old df_new) (watch_key df_old df_new d) [] ;;
  Return (added ++ removed ++ updates).
Proof.
  unfold compare_frames, new_cins, gone_cins, common_cins.
  destruct (for_each (index_difference (index df_new) (index df_old)) _ [])
    as [a|e]; simpl; [|reflexivity].
  rewrite (for_each_acc _ (deregistered_appends df_old d)).
  destruct (for_each (index_difference (index df_old) (index df_new)) _ [])
    as [r|e]; simpl; [|reflexivity].
  change (fun cin : Key => for_each columns_to_check (field_update df_old df_new d cin))
    with (watch_key df_old df_new d).
  rewrite (for_each_acc _ (watch_key_appends df_old df_new d)).
  destruct (for_each (index_intersection (index df_old) (index df_new)) _ [])
    as [u|e]; simpl; [|reflexivity].
  now rewrite app_assoc.
Qed.

Lemma find_changes_frames (df_old df_new : DataFrame) (d : string) :
  find_changes (Some (WithCIN df_old)) (Some (WithCIN df_new)) d =
  compare_frames df_old df_new d.
Proof. reflexivity. Qed.

Lemma find_changes_inv (df_old df_new : DataFrame) (d : string) (log : list Dict) :
  find_changes (Some (WithCIN df_old)) (Some (WithCIN df_new)) d = Return log ->
  exists added removed updates,
    for_each (new_cins df_old df_new) (new_incorporation df_new d) [] = Return added
    /\ for_each (gone_cins df_old df_new) (deregistered df_old d) [] = Return removed
    /\ for_each (common_cins df_old df_new) (watch_key df_old df_new d) [] = Return updates
    /\ log = added ++ removed ++ updates.
Proof.
  rewrite find_changes_frames, compare_frames_sections.
  destruct (for_each (new_cins _ _) _ []) as [a|]; simpl; [|discriminate].
  destruct (for_each (gone_cins _ _) _ []) as [r|]; simpl; [|discriminate].
  destruct (for_each (common_cins _ _) _ []) as [u|]; simpl; [|discriminate].
  intros H. injection H as <-. exists a, r, u. auto.
Qed.

(** What one step of each loop produces. *)
Lemma new_incorporation_inv (df : DataFrame) (d : string) (k : Key) (zs : list Dict) :
  new_incorporation df d k [] = Return zs ->
  exists r, zs = [r] /\ has_type "New Incorporation" r /\ has_key k r
            /\ keys r = record_keys.
Proof.
  unfold new_incorporation. destruct (loc df k "CompanyName"); simpl; [|discriminate].
  intros H. injection H as <-. eexists. split; [reflexivity|].
  repeat split.
Qed.

Lemma deregistered_inv (df : DataFrame) (d : string) (k : Key) (zs : list Dict) :
  deregistered df d k [] = Return zs ->
  exists r, zs = [r] /\ has_type "Deregistered" r /\ has_key k r
            /\ keys r = record_keys.
Proof.
  unfold deregistered. destruct (loc df k "CompanyName"); simpl; [|discriminate].
  intros H. injection H as <-. eexists. split; [reflexivity|].
  repeat split.
Qed.

Lemma field_update_inv (df_old df_new : DataFrame) (d : string) (k : Key)
    (c : string) (zs : list Dict) :
  field_update df_old df_new d k c [] = Return zs ->
  exists v w, loc df_old k c = Return (Scalar v)
    /\ loc df_new k c = Return (Scalar w)
    /\ if cells_differ v w
       then exists r, zs = [r] /\ has_type "Field Update" r /\ has_key k r
                      /\ get "Field_Changed" r = Some (text c)
                      /\ get "Old_Value" r = Some (Scalar v)
                      /\ get "New_Value" r = Some (Scalar w)
                      /\ keys r = record_keys
       else zs = [].
Proof.
  unfold field_update.
  destruct (loc df_old k c) as [[v|vs]|]; cbn [bind]; try discriminate;
    destruct (loc df_new k c) as [[w|ws]|]; cbn [bind];
    try (simpl; discriminate).
  rewrite differs_scalars. cbn [bind]. intros H. exists v, w.
  split; [reflexivity|]. split; [reflexivity|].
  destruct (cells_differ v w); injection H as <-; [|reflexivity].
  eexists. split; [reflexivity|]. repeat split.
Qed.

Lemma field_update_Forall (P : Dict -> Prop) (df_old df_new : DataFrame)
    (d : string) (k : Key) (c : string) (zs : list Dict) :
  (forall r, has_type "Field Update" r -> has_key k r ->
             get "Field_Changed" r = Some (text c) -> keys r = record_keys -> P r) ->
  field_update df_old df_new d k c [] = Return zs -> Forall P zs.
Proof.
  intros HP H. apply field_update_inv in H.
  destruct H as (v & w & _ & _ & H).
  destruct (cells_differ v w).
  - destruct H as (r & -> & Ht & Hk & Hf & _ & _ & Hkeys). constructor; auto.
  - subst. constructor.
Qed.

Lemma watch_key_Forall (P : Dict -> Prop) (df_old df_new : DataFrame)
    (d : string) (k : Key) (zs : list Dict) :
  (forall r, has_type "Field Update" r -> has_key k r -> keys r = record_keys -> P r) ->
  watch_key df_old df_new d k [] = Return zs -> Forall P zs.
Proof.
  intros HP. unfold watch_key.
  apply (for_each_Forall _ (field_update_appends df_old df_new d k)).
  intros c us _. apply field_update_Forall. auto.
Qed.

(** ** Outcome of each pass *)

Lemma length_zero_nil {A : Type} (l : list A) :
  Nat.eqb (List.length l) 0 = true <-> l = [].
Proof. destruct l; simpl; split; congruence. Qed.

Lemma new_cins_in_new (df_old df_new : DataFrame) (k : Key) :
  In k (new_cins df_old df_new) <-> In k (index df_new) /\ ~ In k (index df_old).
Proof. apply In_index_difference. Qed.

Lemma gone_cins_in_old (df_old df_new : DataFrame) (k : Key) :
  In k (gone_cins df_old df_new) <-> In k (index df_old) /\ ~ In k (index df_new).
Proof. apply In_index_difference. Qed.

Lemma common_cins_in_both (df_old df_new : DataFrame) (k : Key) :
  In k (common_cins df_old df_new) <-> In k (index df_old) /\ In k (index df_new).
Proof. apply In_index_intersection. Qed.

(** A pass over membership changes fails only on a missing name column,
    and only if it has a key to process. *)
Lemma name_pass_outcome (df : DataFrame) (d : string) (ks : list Key)
    (body : DataFrame -> string -> Key -> list Dict -> result (list Dict)) :
  (forall k acc, body df d k acc = ys <- body df d k [] ;; Return (acc ++ ys)) ->
  (forall k, body df d k [] =
             name <- loc df k "CompanyName" ;; body df d k [] ) ->
  (forall k cell, loc df k "CompanyName" = Return cell ->
                  exists zs, body df d k [] = Return zs) ->
  (forall k, In k ks -> In k (index df)) ->
  let gap := negb (has_column df "CompanyName")
             && negb (Nat.eqb (List.length ks) 0) in
  (gap = false /\ exists zs, for_each ks (body df d) [] = Return zs)
  \/ (gap = true /\ for_each ks (body df d) [] = Raise KeyError).
Proof.
  intros Happ Hloc Hret Hin gap. subst gap.
  destruct (has_column df "CompanyName") eqn:Hc; simpl.
  - left. split; [reflexivity|].
    apply (for_each_returns _ Happ). intros k Hk.
    destruct (loc_present df k "CompanyName" Hc (Hin k Hk)) as [cell Hcell].
    eauto.
  - destruct (Nat.eqb (List.length ks) 0) eqn:Hl; simpl.
    + left. split; [reflexivity|]. apply length_zero_nil in Hl. subst.
      now exists [].
    + right. split; [reflexivity|].
      apply (for_each_raises _ Happ).
      * intros ->. discriminate.
      * intros k _. rewrite Hloc, (loc_missing df k _ Hc). reflexivity.
Qed.

Lemma added_pass_outcome (df_old df_new : DataFrame) (d : string) :
  let gap := negb (has_column df_new "CompanyName")
             && negb (Nat.eqb (List.length (new_cins df_old df_new)) 0) in
  (gap = false /\ exists zs,
      for_each (new_cins df_old df_new) (new_incorporation df_new d) [] = Return zs)
  \/ (gap = true /\
      for_each (new_cins df_old df_new) (new_incorporation df_new d) [] = Raise KeyError).
Proof.
  apply (name_pass_outcome df_new d (new_cins df_old df_new) new_incorporation).
  - intros k acc. apply new_incorporation_appends.
  - intros k. unfold new_incorporation.
    destruct (loc df_new k "CompanyName"); reflexivity.
  - intros k cell H. unfold new_incorporation. rewrite H. simpl. eauto.
  - intros k Hk. now apply new_cins_in_new in Hk.
Qed.

Lemma removed_pass_outcome (df_old df_new : DataFrame) (d : string) :
  let gap := negb (has_column df_old "CompanyName")
             && negb (Nat.eqb (List.length (gone_cins df_old df_new)) 0) in
  (gap = false /\ exists zs,
      for_each (gone_cins df_old df_new) (deregistered df_old d) [] = Return zs)
  \/ (gap = true /\
      for_each (gone_cins df_old df_new) (deregistered df_old d) [] = Raise KeyError).
Proof.
  apply (name_pass_outcome df_old d (gone_cins df_old df_new) deregistered).
  - intros k acc. apply deregistered_appends.
  - intros k. unfold deregistered.
    destruct (loc df_old k "CompanyName"); reflexivity.
  - intros k cell H. unfold deregistered. rewrite H. simpl. eauto.
  - intros k Hk. now apply gone_cins_in_old in Hk.
Qed.

(** For a key on one row of each snapshot, one field comparison fails only
    on a missing column. *)
Lemma field_update_outcome (df_old df_new : DataFrame) (d : string)
    (k : Key) (c : string) :
  count_occ string_dec (index df_old) k = 1 ->
  count_occ string_dec (index df_new) k = 1 ->
  (has_column df_old c && has_column df_new c = true
     /\ exists zs, field_update df_old df_new d k c [] = Return zs)
  \/ (has_column df_old c && has_column df_new c = false
     /\ field_update df_old df_new d k c [] = Raise KeyError).
Proof.
  intros Hko Hkn. unfold field_update.
  destruct (has_column df_old c) eqn:Hco.
  - destruct (loc_once df_old k c Hco Hko) as [v ->]. cbn [bind].
    destruct (has_column df_new c) eqn:Hcn.
    + destruct (loc_once df_new k c Hcn Hkn) as [w ->]. cbn [bind].
      rewrite differs_scalars. cbn [bind]. left. split; [reflexivity|].
      destruct (cells_differ v w); eauto.
    + rewrite (loc_missing df_new k c Hcn). right. split; reflexivity.
  - rewrite (loc_missing df_old k c Hco). right. split; reflexivity.
Qed.

Lemma watch_key_outcome (df_old df_new : DataFrame) (d : string) (k : Key) :
  count_occ string_dec (index df_old) k = 1 ->
  count_occ string_dec (index df_new) k = 1 ->
  let ok := watched_columns_present df_old && watched_columns_present df_new in
  (ok = true /\ exists zs, watch_key df_old df_new d k [] = Return zs)
  \/ (ok = false /\ watch_key df_old df_new d k [] = Raise KeyError).
Proof.
  intros Hko Hkn ok. subst ok.
  unfold watch_key, watched_columns_present, columns_to_check.
  pose proof (field_update_appends df_old df_new d k) as Happ.
  rewrite !(for_each_cons _ Happ). cbn [for_each forallb].
  destruct (field_update_outcome df_old df_new d k "CompanyStatus" Hko Hkn)
    as [[H1 [z1 E1]]|[H1 E1]];
  destruct (field_update_outcome df_old df_new d k "AuthorizedCapital" Hko Hkn)
    as [[H2 [z2 E2]]|[H2 E2]];
  destruct (field_update_outcome df_old df_new d k "PaidupCapital" Hko Hkn)
    as [[H3 [z3 E3]]|[H3 E3]];
  rewrite E1; cbn [bind]; try rewrite E2; cbn [bind]; try rewrite E3; cbn [bind];
  destruct (has_column df_old "CompanyStatus"),
           (has_column df_new "CompanyStatus"),
           (has_column df_old "AuthorizedCapital"),
           (has_column df_new "AuthorizedCapital"),
           (has_column df_old "PaidupCapital"),
           (has_column df_new "PaidupCapital");
  simpl in *; try discriminate; eauto.
Qed.

Lemma updates_pass_outcome (df_old df_new : DataFrame) (d : string) :
  (forall k, In k (common_cins df_old df_new) ->
     count_occ string_dec (index df_old) k = 1
     /\ count_occ string_dec (index df_new) k = 1) ->
  let gap := negb (watched_columns_present df_old && watched_columns_present df_new)
             && negb (Nat.eqb (List.length (common_cins df_old df_new)) 0) in
  (gap = false /\ exists zs,
      for_each (common_cins df_old df_new) (watch_key df_old df_new d) [] = Return zs)
  \/ (gap = true /\
      for_each (common_cins df_old df_new) (watch_key df_old df_new d) [] = Raise KeyError).
Proof.
  intros Hk gap. subst gap.
  pose proof (watch_key_appends df_old df_new d) as Happ.
  destruct (watched_columns_present df_old && watched_columns_present df_new) eqn:Hok;
    simpl.
  - left. split; [reflexivity|]. apply (for_each_returns _ Happ). intros k Hin.
    destruct (Hk k Hin) as [Hko Hkn].
    destruct (watch_key_outcome df_old df_new d k Hko Hkn) as [[_ H]|[H _]];
      [assumption | congruence].
  - destruct (Nat.eqb (List.length (common_cins df_old df_new)) 0) eqn:Hl; simpl.
    + left. split; [reflexivity|]. apply length_zero_nil in Hl. rewrite Hl.
      now exists [].
    + right. split; [reflexivity|]. apply (for_each_raises _ Happ).
      * intros E. rewrite E in Hl. discriminate.
      * intros k Hin. destruct (Hk k Hin) as [Hko Hkn].
        destruct (watch_key_outcome df_old df_new d k Hko Hkn) as [[H _]|[_ H]];
          [congruence | assumption].
Qed.

(** When every key of both snapshots is on one row of each, a run either
    returns or stops on a missing column. *)
Lemma find_changes_outcome_once (df_old df_new : DataFrame) (d : string) :
  (forall k, In k (common_cins df_old df_new) ->
     count_occ string_dec (index df_old) k = 1
     /\ count_occ string_dec (index df_new) k = 1) ->
  (schema_gap df_old df_new = false
     /\ exists log, find_changes (Some (WithCIN df_old)) (Some (WithCIN df_new)) d
                    = Return log)
  \/ (schema_gap df_old df_new = true
     /\ find_changes (Some (WithCIN df_old)) (Some (WithCIN df_new)) d
        = Raise KeyError).
Proof.
  intros Hk. rewrite find_changes_frames, compare_frames_sections.
  unfold schema_gap.
  destruct (added_pass_outcome df_old df_new d) as [[-> [a ->]]|[-> ->]];
    cbn [bind orb]; [|right; split; reflexivity].
  destruct (removed_pass_outcome df_old df_new d) as [[-> [r ->]]|[-> ->]];
    cbn [bind orb]; [|right; split; reflexivity].
  destruct (updates_pass_outcome df_old df_new d Hk) as [[-> [u ->]]|[-> ->]];
    cbn [bind orb]; [left | right]; split; eauto.
Qed.

(** With unique keys a run either returns or stops on a missing column. *)
Lemma find_changes_outcome (df_old df_new : DataFrame) (d : string) :
  NoDup (index df_old) -> NoDup (index df_new) ->
  (schema_gap df_old df_new = false
     /\ exists log, find_changes (Some (WithCIN df_old)) (Some (WithCIN df_new)) d
                    = Return log)
  \/ (schema_gap df_old df_new = true
     /\ find_changes (Some (WithCIN df_old)) (Some (WithCIN df_new)) d
        = Raise KeyError).
Proof.
  intros Ho Hn. apply find_changes_outcome_once.
  intros k Hk. apply common_cins_in_both in Hk. destruct Hk as [Hko Hkn].
  split; apply NoDup_count_occ'; assumption.
Qed.

(** ** Counting field updates *)

Lemma list_sum_map_single {A : Type} (f : A -> nat) (l : list A) (a : A) :
  NoDup l -> In a l -> (forall b, In b l -> b <> a -> f b = 0) ->
  list_sum (map f l) = f a.
Proof.
  induction 1 as [|x t Hx Ht IH]; intros Hin Hz; [destruct Hin|].
  simpl. destruct Hin as [->|Hin].
  - assert (E : list_sum (map f t) = 0).
    { clear IH. induction t as [|y t' IHt]; [reflexivity|]. simpl.
      rewrite (Hz y); [|right; now left | intros ->; apply Hx; now left].
      apply IHt.
      - intros H. apply Hx. now right.
      - now inversion Ht.
      - intros b Hb. apply Hz. destruct Hb as [->|Hb]; [now left | right; now right]. }
    lia.
  - rewrite (Hz x); [|now left | intros ->; contradiction].
    apply IH; [assumption|]. intros b Hb. apply Hz. now right.
Qed.

Lemma NoDup_columns_to_check : NoDup columns_to_check.
Proof.
  unfold columns_to_check.
  repeat constructor; simpl; intuition discriminate.
Qed.

Lemma no_update_other_type (k : Key) (col ty : string) (l : list Dict) :
  String.eqb ty "Field Update" = false ->
  Forall (has_type ty) l -> filter (is_update_of k col) l = [].
Proof.
  intros Hty. induction 1 as [|r t Hr _ IH]; [reflexivity|].
  simpl. unfold is_update_of at 1. rewrite Hr. simpl. rewrite Hty.
  now rewrite andb_false_r.
Qed.

Lemma no_update_other_key (k k' : Key) (col : string) (l : list Dict) :
  k' <> k -> Forall (has_key k') l -> filter (is_update_of k col) l = [].
Proof.
  intros Hne. induction 1 as [|r t Hr _ IH]; [reflexivity|].
  simpl. unfold is_update_of at 1. rewrite Hr. simpl.
  apply String.eqb_neq in Hne. now rewrite Hne.
Qed.

Lemma no_update_other_field (k : Key) (col c : string) (l : list Dict) :
  c <> col -> Forall (fun r => get "Field_Changed" r = Some (text c)) l ->
  filter (is_update_of k col) l = [].
Proof.
  intros Hne. induction 1 as [|r t Hr _ IH]; [reflexivity|].
  simpl. unfold is_update_of at 1. rewrite Hr. simpl.
  apply String.eqb_neq in Hne. rewrite Hne. now rewrite andb_false_r.
Qed.

Lemma added_have_type (df_old df_new : DataFrame) (d : string) (ks : list Key)
    (added : list Dict) :
  for_each ks (new_incorporation df_new d) [] = Return added ->
  Forall (fun r => has_type "New Incorporation" r /\ keys r = record_keys) added.
Proof.
  apply (for_each_Forall _ (new_incorporation_appends df_new d)).
  intros k zs _ H. apply new_incorporation_inv in H.
  destruct H as (r & -> & Ht & _ & Hk). now repeat constructor.
Qed.

Lemma removed_have_type (df_old : DataFrame) (d : string) (ks : list Key)
    (removed : list Dict) :
  for_each ks (deregistered df_old d) [] = Return removed ->
  Forall (fun r => has_type "Deregistered" r /\ keys r = record_keys) removed.
Proof.
  apply (for_each_Forall _ (deregistered_appends df_old d)).
  intros k zs _ H. apply deregistered_inv in H.
  destruct H as (r & -> & Ht & _ & Hk). now repeat constructor.
Qed.

Lemma updates_have_type (df_old df_new : DataFrame) (d : string) (ks : list Key)
    (updates : list Dict) :
  for_each ks (watch_key df_old df_new d) [] = Return updates ->
  Forall (fun r => has_type "Field Update" r /\ keys r = record_keys) updates.
Proof.
  apply (for_each_Forall _ (watch_key_appends df_old df_new d)).
  intros k zs _. apply watch_key_Forall. auto.
Qed.

Lemma Forall_proj1 {A : Type} (P Q : A -> Prop) (l : list A) :
  Forall (fun x => P x /\ Q x) l -> Forall P l.
Proof. apply Forall_impl. tauto. Qed.

Lemma Forall_proj2 {A : Type} (P Q : A -> Prop) (l : list A) :
  Forall (fun x => P x /\ Q x) l -> Forall Q l.
Proof. apply Forall_impl. tauto. Qed.

(** Updates of field [col] of key [k] produced while visiting key [k']. *)
Lemma watch_key_count_other (df_old df_new : DataFrame) (d : string)
    (k k' : Key) (col : string) :
  k' <> k ->
  count_in (is_update_of k col) (watch_key df_old df_new d k' []) = 0.
Proof.
  intros Hne. destruct (watch_key df_old df_new d k' []) as [zs|e] eqn:E;
    [|reflexivity].
  simpl. rewrite (no_update_other_key k k' col zs Hne); [reflexivity|].
  revert E. apply watch_key_Forall. auto.
Qed.

Lemma field_update_count_other (df_old df_new : DataFrame) (d : string)
    (k : Key) (col c : string) :
  c <> col ->
  count_in (is_update_of k col) (field_update df_old df_new d k c []) = 0.
Proof.
  intros Hne. destruct (field_update df_old df_new d k c []) as [zs|e] eqn:E;
    [|reflexivity].
  simpl. rewrite (no_update_other_field k col c zs Hne); [reflexivity|].
  revert E. apply field_update_Forall. auto.
Qed.

Lemma field_update_count (df_old df_new : DataFrame) (d : string)
    (k : Key) (col : string) (v w : Value) :
  loc df_old k col = Return (Scalar v) ->
  loc df_new k col = Return (Scalar w) ->
  count_in (is_update_of k col) (field_update df_old df_new d k col []) =
  if cells_differ v w then 1 else 0.
Proof.
  intros Ho Hn. unfold field_update. rewrite Ho, Hn. cbn [bind].
  rewrite differs_scalars. cbn [bind].
  destruct (cells_differ v w); [|reflexivity].
  cbn. unfold is_update_of. cbn. now rewrite !String.eqb_refl.
Qed.

Lemma watch_key_count (df_old df_new : DataFrame) (d : string)
    (k : Key) (col : string) (v w : Value) (zs : list Dict) :
  In col columns_to_check ->
  loc df_old k col = Return (Scalar v) ->
  loc df_new k col = Return (Scalar w) ->
  watch_key df_old df_new d k [] = Return zs ->
  List.length (filter (is_update_of k col) zs) =
  if cells_differ v w then 1 else 0.
Proof.
  intros Hcol Ho Hn H. unfold watch_key in H.
  rewrite (for_each_count _ (field_update_appends df_old df_new d k) _ _ _ H).
  rewrite (list_sum_map_single _ columns_to_check col NoDup_columns_to_check Hcol).
  - now apply field_update_count.
  - intros c _ Hne. now apply field_update_count_other.
Qed.

Lemma In_of_loc (df : DataFrame) (k : Key) (c : string) (v : Value) :
  loc df k c = Return (Scalar v) -> In k (index df).
Proof.
  intros H. apply loc_scalar_once in H.
  apply (count_occ_In string_dec). lia.
Qed.

Lemma count_updates_run (df_old df_new : DataFrame) (d : string)
    (log : list Dict) (k : Key) (col : string) (v w : Value) :
  find_changes (Some (WithCIN df_old)) (Some (WithCIN df_new)) d = Return log ->
  In col columns_to_check ->
  loc df_old k col = Return (Scalar v) ->
  loc df_new k col = Return (Scalar w) ->
  count_updates k col log = if cells_differ v w then 1 else 0.
Proof.
  intros Hrun Hcol Ho Hn.
  apply find_changes_inv in Hrun.
  destruct Hrun as (a & r & u & Ha & Hr & Hu & ->).
  unfold count_updates. rewrite !filter_app, !length_app.
  rewrite (no_update_other_type k col "New Incorporation" a eq_refl);
    [|eapply Forall_proj1, added_have_type; eauto].
  rewrite (no_update_other_type k col "Deregistered" r eq_refl);
    [|eapply Forall_proj1, removed_have_type; eauto].
  simpl.
  rewrite (for_each_count _ (watch_key_appends df_old df_new d) _ _ _ Hu).
  assert (Hk : In k (common_cins df_old df_new)).
  { apply common_cins_in_both. split; eapply In_of_loc; eauto. }
  rewrite (list_sum_map_single _ _ k (NoDup_index_intersection _ _) Hk).
  - destruct (for_each_steps _ (watch_key_appends df_old df_new d) _ _ Hu k Hk)
      as [zs Hzs].
    rewrite Hzs. simpl. eapply watch_key_count; eauto.
  - intros k' _ Hne. now apply watch_key_count_other.
Qed.

(** ** Sample runs *)

Example scenario_A_runs :
  find_changes (Some (WithCIN scenario_old)) (Some (WithCIN scenario_new)) "Day 2"
  = Return scenario_log.
Proof. vm_compute. reflexivity. Qed.

Example dup_runs :
  find_changes (Some (WithCIN dup_old)) (Some (WithCIN dup_new)) "Day 2"
  = Return dup_log.
Proof. vm_compute. reflexivity. Qed.

Example dup_common_raises :
  find_changes (Some (WithCIN dup_common_old)) (Some (WithCIN dup_new)) "Day 2"
  = Raise ValueError.
Proof. vm_compute. reflexivity. Qed.

Example shuffled_runs :
  find_changes (Some (WithCIN shuffled_old)) (Some (WithCIN shuffled_new)) "Day 2"
  = Return shuffled_log.
Proof. vm_compute. reflexivity. Qed.

Example nameless_runs :
  find_changes (Some (WithCIN scenario_old)) (Some (WithCIN nameless_new)) "Day 2"
  = Return nameless_log.
Proof. vm_compute. reflexivity. Qed.

Example nameless_with_addition_raises :
  find_changes (Some (WithCIN dup_new)) (Some (WithCIN nameless_new)) "Day 2"
  = Raise KeyError.
Proof. vm_compute. reflexivity. Qed.

Example summary_scenario : summary_counts scenario_log = Return (1, 1, 1).
Proof. vm_compute. reflexivity. Qed.

Example summary_empty : summary_counts [] = Raise KeyError.
Proof. vm_compute. reflexivity. Qed.

(** ** The order on keys is transitive *)

Lemma ascii_compare_lt_trans (x y z : ascii) :
  Ascii.compare x y = Lt -> Ascii.compare y z = Lt -> Ascii.compare x z = Lt.
Proof.
  unfold Ascii.compare. rewrite !N.compare_lt_iff. apply N.lt_trans.
Qed.

Lemma key_lt_trans (a b c : Key) : key_lt a b -> key_lt b c -> key_lt a c.
Proof.
  unfold key_lt, String.ltb.
  assert (H : forall a b c, String.compare a b = Lt -> String.compare b c = Lt ->
                            String.compare a c = Lt).
  { clear. induction a as [|x a IH]; intros [|y b] [|z c]; simpl;
      try congruence.
    destruct (Ascii.compare x y) eqn:Exy; try discriminate;
      destruct (Ascii.compare y z) eqn:Eyz; try discriminate; intros H1 H2.
    - apply Ascii.compare_eq_iff in Exy, Eyz. subst.
      rewrite (proj2 (N.compare_eq_iff _ _) eq_refl : Ascii.compare z z = Eq).
      eauto.
    - apply Ascii.compare_eq_iff in Exy. subst. now rewrite Eyz.
    - apply Ascii.compare_eq_iff in Eyz. subst. now rewrite Exy.
    - now rewrite (ascii_compare_lt_trans x y z Exy Eyz). }
  intros H1 H2.
  destruct (String.compare a b) eqn:E1; try discriminate.
  destruct (String.compare b c) eqn:E2; try discriminate.
  now rewrite (H a b c E1 E2).
Qed.

Lemma StronglySorted_index_difference (self other : list Key) :
  other <> [] -> StronglySorted key_lt (index_difference self other).
Proof.
  intros H. apply Sorted_StronglySorted.
  - intros a b c. apply key_lt_trans.
  - now apply Sorted_index_difference.
Qed.

(** ** Keys and fields of the records, in order *)

Lemma flat_map_singleton {A B : Type} (f : A -> B) (l : list A) :
  flat_map (fun x => [f x]) l = map f l.
Proof. induction l as [|x t IH]; simpl; congruence. Qed.

Lemma flat_map_optional {A B : Type} (p : A -> bool) (f : A -> B) (l : list A) :
  flat_map (fun x => if p x then [f x] else []) l = map f (filter p l).
Proof.
  induction l as [|x t IH]; simpl; [reflexivity|].
  destruct (p x); simpl; congruence.
Qed.

Lemma flat_map_paired {A B C : Type} (p : A * B -> bool) (f : A * B -> C)
    (a : A) (l : list B) :
  flat_map (fun y => if p (a, y) then [f (a, y)] else []) l =
  map f (filter p (map (pair a) l)).
Proof.
  induction l as [|y t IH]; simpl; [reflexivity|].
  destruct (p (a, y)); simpl; congruence.
Qed.

Lemma flat_map_list_prod {A B C : Type} (p : A * B -> bool) (f : A * B -> C)
    (l : list A) (l' : list B) :
  flat_map (fun x => map f (filter p (map (pair x) l'))) l =
  map f (filter p (list_prod l l')).
Proof.
  induction l as [|x t IH]; simpl; [reflexivity|].
  now rewrite filter_app, map_app, IH.
Qed.

Lemma added_keys (df_new : DataFrame) (d : string) (ks : list Key)
    (added : list Dict) :
  for_each ks (new_incorporation df_new d) [] = Return added ->
  map (get "CIN") added = map (fun k => Some (text k)) ks.
Proof.
  intros H. etransitivity; [|apply flat_map_singleton].
  apply (for_each_map _ (new_incorporation_appends df_new d) _ _ _ _) with (2 := H).
  intros k zs _ Hz. apply new_incorporation_inv in Hz.
  destruct Hz as (r & -> & _ & Hk & _). simpl. now rewrite Hk.
Qed.

Lemma removed_keys (df_old : DataFrame) (d : string) (ks : list Key)
    (removed : list Dict) :
  for_each ks (deregistered df_old d) [] = Return removed ->
  map (get "CIN") removed = map (fun k => Some (text k)) ks.
Proof.
  intros H. etransitivity; [|apply flat_map_singleton].
  apply (for_each_map _ (deregistered_appends df_old d) _ _ _ _) with (2 := H).
  intros k zs _ Hz. apply deregistered_inv in Hz.
  destruct Hz as (r & -> & _ & Hk & _). simpl. now rewrite Hk.
Qed.

Lemma field_update_key_field (df_old df_new : DataFrame) (d : string)
    (k : Key) (c : string) (zs : list Dict) :
  field_update df_old df_new d k c [] = Return zs ->
  map key_field zs =
  if emits df_old df_new d (k, c) then [key_field_of (k, c)] else [].
Proof.
  intros H. unfold emits. cbn [fst snd]. rewrite H.
  apply field_update_inv in H. destruct H as (v & w & _ & _ & H).
  destruct (cells_differ v w).
  - destruct H as (r & -> & _ & Hk & Hf & _). simpl.
    unfold key_field, key_field_of. simpl. now rewrite Hk, Hf.
  - now subst.
Qed.

Lemma watch_key_key_field (df_old df_new : DataFrame) (d : string)
    (k : Key) (zs : list Dict) :
  watch_key df_old df_new d k [] = Return zs ->
  map key_field zs =
  map key_field_of (filter (emits df_old df_new d) (map (pair k) columns_to_check)).
Proof.
  intros H. unfold watch_key in H.
  rewrite (for_each_map _ (field_update_appends df_old df_new d k) key_field
             (fun c => if emits df_old df_new d (k, c)
                       then [key_field_of (k, c)] else []) _ _)
    with (2 := H).
  - apply flat_map_paired.
  - intros c us _. apply field_update_key_field.
Qed.

Lemma updates_key_field (df_old df_new : DataFrame) (d : string)
    (ks : list Key) (updates : list Dict) :
  for_each ks (watch_key df_old df_new d) [] = Return updates ->
  map key_field updates =
  map key_field_of (filter (emits df_old df_new d) (list_prod ks columns_to_check)).
Proof.
  intros H. rewrite <- flat_map_list_prod.
  apply (for_each_map _ (watch_key_appends df_old df_new d) _ _ _ _) with (2 := H).
  intros k zs _. apply watch_key_key_field.
Qed.

(** ** Duplicate keys *)

Lemma duplicate_key_run_fails (df_old df_new : DataFrame) (d : string)
    (k : Key) (log : list Dict) :
  In k (index df_old) -> In k (index df_new) ->
  2 <= count_occ string_dec (index df_old) k
  \/ 2 <= count_occ string_dec (index df_new) k ->
  find_changes (Some (WithCIN df_old)) (Some (WithCIN df_new)) d <> Return log.
Proof.
  intros Hko Hkn Hdup Hrun.
  apply find_changes_inv in Hrun.
  destruct Hrun as (a & r & u & _ & _ & Hu & _).
  assert (Hk : In k (common_cins df_old df_new))
    by (apply common_cins_in_both; tauto).
  destruct (for_each_steps _ (watch_key_appends df_old df_new d) _ _ Hu k Hk)
    as [zs Hzs].
  unfold watch_key in Hzs.
  destruct (for_each_steps _ (field_update_appends df_old df_new d k) _ _ Hzs
              "CompanyStatus" (or_introl eq_refl)) as [us Hus].
  apply field_update_inv in Hus. destruct Hus as (v & w & Ho & Hn & _).
  apply loc_scalar_once in Ho, Hn. lia.
Qed.

Lemma for_each_dichotomy {X : Type} (body : X -> list Dict -> result (list Dict))
    (e : Exn) (xs : list X) :
  (forall y acc, body y acc = ys <- body y [] ;; Return (acc ++ ys)) ->
  (forall y, In y xs -> (exists ys, body y [] = Return ys) \/ body y [] = Raise e) ->
  (exists ys, for_each xs body [] = Return ys) \/ for_each xs body [] = Raise e.
Proof.
  intros Happ Hall. induction xs as [|y t IH]; [left; now exists []|].
  rewrite (for_each_cons _ Happ).
  destruct (Hall y (or_introl eq_refl)) as [[ys Hy]|Hy]; rewrite Hy; cbn [bind];
    [|now right].
  destruct IH as [[zs Hz]|Hz]; [intros z Hz; apply Hall; now right | |];
    rewrite Hz; cbn [bind]; eauto.
Qed.

Lemma field_update_complete (df_old df_new : DataFrame) (d : string)
    (k : Key) (c : string) :
  has_column df_old c = true -> has_column df_new c = true ->
  In k (index df_old) -> In k (index df_new) ->
  (exists zs, field_update df_old df_new d k c [] = Return zs)
  \/ field_update df_old df_new d k c [] = Raise ValueError.
Proof.
  intros Hco Hcn Hko Hkn. unfold field_update.
  destruct (loc_present df_old k c Hco Hko) as [o ->].
  destruct (loc_present df_new k c Hcn Hkn) as [n ->]. cbn [bind].
  destruct o as [v|vs], n as [w|ws]; simpl; auto.
  destruct (py_ne v w && negb (isna v && isna w)); eauto.
Qed.

Lemma watched_columns_each (df : DataFrame) (c : string) :
  watched_columns_present df = true -> In c columns_to_check ->
  has_column df c = true.
Proof.
  unfold watched_columns_present. rewrite forallb_forall. auto.
Qed.

Lemma watch_key_complete (df_old df_new : DataFrame) (d : string) (k : Key) :
  watched_columns_present df_old = true -> watched_columns_present df_new = true ->
  In k (index df_old) -> In k (index df_new) ->
  (exists zs, watch_key df_old df_new d k [] = Return zs)
  \/ watch_key df_old df_new d k [] = Raise ValueError.
Proof.
  intros Hwo Hwn Hko Hkn. unfold watch_key.
  apply for_each_dichotomy; [apply field_update_appends|].
  intros c Hc. apply field_update_complete; auto using watched_columns_each.
Qed.

Lemma duplicate_key_value_error (df_old df_new : DataFrame) (d : string) (k : Key) :
  schema_complete df_old = true -> schema_complete df_new = true ->
  In k (index df_old) -> In k (index df_new) ->
  2 <= count_occ string_dec (index df_old) k
  \/ 2 <= count_occ string_dec (index df_new) k ->
  find_changes (Some (WithCIN df_old)) (Some (WithCIN df_new)) d = Raise ValueError.
Proof.
  unfold schema_complete. intros Hso Hsn Hko Hkn Hdup.
  apply andb_true_iff in Hso, Hsn. destruct Hso as [Hno Hwo], Hsn as [Hnn Hwn].
  pose proof (duplicate_key_run_fails df_old df_new d k) as Hfail.
  rewrite find_changes_frames, compare_frames_sections in *.
  destruct (added_pass_outcome df_old df_new d) as [[_ [a Ha]]|[Hg _]];
    [|rewrite Hnn in Hg; discriminate].
  destruct (removed_pass_outcome df_old df_new d) as [[_ [r Hr]]|[Hg _]];
    [|rewrite Hno in Hg; discriminate].
  rewrite Ha, Hr in *. cbn [bind] in *.
  destruct (for_each_dichotomy (watch_key df_old df_new d) ValueError
              (common_cins df_old df_new) (watch_key_appends df_old df_new d))
    as [[u Hu]|Hu].
  - intros y Hy. apply common_cins_in_both in Hy.
    apply watch_key_complete; tauto.
  - exfalso. apply (Hfail (a ++ r ++ u)); auto. now rewrite Hu.
  - now rewrite Hu.
Qed.

(** ** A snapshot against itself *)

Lemma find_changes_self (S : DataFrame) (d : string) :
  NoDup (index S) -> watched_columns_present S = true ->
  find_changes (Some (WithCIN S)) (Some (WithCIN S)) d = Return [].
Proof.
  intros Hnd Hw. rewrite find_changes_frames, compare_frames_sections.
  unfold new_cins, gone_cins. rewrite index_difference_self. cbn [for_each bind].
  rewrite (for_each_nothing _ (watch_key_appends S S d)); [reflexivity|].
  intros k Hk. apply common_cins_in_both in Hk. destruct Hk as [Hk _].
  unfold watch_key.
  apply (for_each_nothing _ (field_update_appends S S d k)).
  intros c Hc. unfold field_update.
  destruct (loc_unique S k c (watched_columns_each S c Hw Hc) Hnd Hk) as [v ->].
  cbn [bind]. now rewrite differs_same.
Qed.

(** ** Summary of a non-empty log *)

Lemma summary_counts_nonempty (log : list Dict) :
  log <> [] -> Forall (fun r => keys r = record_keys) log ->
  summary_counts log =
  Return (count_records "New Incorporation" log,
          count_records "Deregistered" log,
          count_records "Field Update" log).
Proof.
  intros Hne Hk.
  assert (Hc : mem "Change_Type" (log_columns log) = true).
  { apply mem_In. unfold log_columns. apply In_unique.
    destruct log as [|r t]; [contradiction|].
    simpl. apply in_or_app. left. inversion Hk as [|? ? Hr _]; subst.
    rewrite Hr. unfold record_keys. simpl. tauto. }
  unfold summary_counts, count_type. rewrite Hc. reflexivity.
Qed.

Lemma filter_nonempty {A : Type} (p : A -> bool) (l : list A) :
  1 <= List.length (filter p l) -> exists x, In x l /\ p x = true.
Proof.
  destruct (filter p l) as [|x t] eqn:E; simpl; [lia|]. intros _.
  assert (H : In x (filter p l)) by (rewrite E; now left).
  apply filter_In in H. eauto.
Qed.

Lemma is_text_true (s : string) (c : option Cell) :
  is_text s c = true -> c = Some (text s).
Proof.
  destruct c as [[[|s'| |]|]|]; simpl; try discriminate.
  intros H. apply String.eqb_eq in H. now subst.
Qed.

Lemma is_update_of_true (k : Key) (col : string) (r : Dict) :
  is_update_of k col r = true ->
  has_key k r /\ has_type "Field Update" r
  /\ get "Field_Changed" r = Some (text col).
Proof.
  unfold is_update_of. rewrite !andb_true_iff. intros [[H1 H2] H3].
  repeat split; now apply is_text_true.
Qed.

Lemma value_eqb_eq (a b : Value) : value_eqb a b = true <-> a = b.
Proof.
  destruct a, b; simpl; try (split; [discriminate | congruence]).
  - tauto.
  - rewrite String.eqb_eq. split; congruence.
  - rewrite Z.eqb_eq. split; congruence.
  - rewrite float64_eqb_eq. split; congruence.
Qed.

Lemma common_key_values (df_old df_new : DataFrame) (d : string)
    (log : list Dict) (k : Key) (col : string) :
  find_changes (Some (WithCIN df_old)) (Some (WithCIN df_new)) d = Return log ->
  In k (index df_old) -> In k (index df_new) -> In col columns_to_check ->
  exists v w, loc df_old k col = Return (Scalar v)
              /\ loc df_new k col = Return (Scalar w).
Proof.
  intros Hrun Hko Hkn Hcol. apply find_changes_inv in Hrun.
  destruct Hrun as (a & r & u & _ & _ & Hu & _).
  assert (Hk : In k (common_cins df_old df_new))
    by (apply common_cins_in_both; tauto).
  destruct (for_each_steps _ (watch_key_appends df_old df_new d) _ _ Hu k Hk)
    as [zs Hzs].
  unfold watch_key in Hzs.
  destruct (for_each_steps _ (field_update_appends df_old df_new d k) _ _ Hzs
              col Hcol) as [us Hus].
  apply field_update_inv in Hus. destruct Hus as (v & w & Ho & Hn & _). eauto.
Qed.

(** ** Integers and floats *)

Lemma odd_part_value (p : positive) :
  (0 <= snd (odd_part p))%Z
  /\ Zpos p = ((2 * Z.of_N (fst (odd_part p)) + 1) * 2 ^ snd (odd_part p))%Z.
Proof.
  induction p as [q _|q IH|].
  - cbn [odd_part fst snd]. split; [lia|].
    rewrite Z.pow_0_r, Pos2Z.inj_xI. cbn [Z.of_N]. lia.
  - cbn [odd_part]. destruct (odd_part q) as [k e]. cbn [fst snd] in *.
    destruct IH as [He IH].
    split; [lia|]. rewrite Z.pow_add_r by lia. rewrite Pos2Z.inj_xO, IH.
    rewrite Z.pow_1_r. ring.
  - split; [cbn; lia | reflexivity].
Qed.

Lemma float_exact_parts (p q : positive) (s s' : bool) :
  (let (k, e) := odd_part p in FFinite s k e)
  = (let (k, e) := odd_part q in FFinite s' k e) ->
  p = q /\ s = s'.
Proof.
  pose proof (odd_part_value p) as [_ Hp]. pose proof (odd_part_value q) as [_ Hq].
  destruct (odd_part p) as [k e], (odd_part q) as [k' e']. cbn [fst snd] in *.
  intros H. injection H as Hs Hk He. subst. split; [|reflexivity].
  assert (E : Zpos p = Zpos q) by (rewrite Hp, Hq; reflexivity).
  now injection E.
Qed.

(** Two integers have the same float only if they are the same integer. *)
Lemma float_exact_inj (n m : Z) : float_exact n = float_exact m -> n = m.
Proof.
  destruct n as [|p|p], m as [|q|q]; cbn [float_exact]; intros H;
    try reflexivity;
    try (destruct (odd_part q); discriminate H);
    try (destruct (odd_part p); discriminate H);
    apply float_exact_parts in H; destruct H as [-> H];
    first [reflexivity | discriminate H].
Qed.

(** Literal equality of an integer cell and a float cell of whole value. *)
Lemma exactly_equal_amount (n m : Z) :
  exactly_equal (Num n) (amount m) = Z.eqb n m.
Proof.
  unfold amount. simpl. destruct (Z.eqb n m) eqn:E.
  - apply Z.eqb_eq in E. subst. apply float64_eqb_refl.
  - destruct (float64_eqb (float_exact n) (float_exact m)) eqn:F; [|reflexivity].
    apply float64_eqb_eq, float_exact_inj in F. apply Z.eqb_neq in E. contradiction.
Qed.

Lemma round_53_small (m : Z) : (0 <= m < 2 ^ 53)%Z -> round_53 m = m.
Proof.
  intros [H0 H1]. unfold round_53.
  assert (Hb : (Z.log2 m + 1 <=? 53)%Z = true).
  { apply Z.leb_le. destruct (Z.eq_dec m 0) as [->|Hne]; [simpl; lia|].
    assert (Z.log2 m < 53)%Z by (apply Z.log2_lt_pow2; lia). lia. }
  now rewrite Hb.
Qed.

(** An integer below 2^53 in magnitude is converted to float64 exactly. *)
Lemma float_of_int_small (n : Z) :
  (Z.abs n < 2 ^ 53)%Z -> float_of_int n = float_exact n.
Proof.
  intros H. unfold float_of_int. rewrite round_53_small by lia.
  f_equal. destruct n; reflexivity.
Qed.

(** The test of the loop is null-aware change, with the equality that
    rounds an integer before it is compared with a float. *)
Lemma cells_differ_rounding (a b : Value) :
  cells_differ a b = change_after_rounding a b.
Proof.
  unfold cells_differ, change_after_rounding.
  destruct a, b; simpl; rewrite ?andb_true_r; reflexivity.
Qed.

Lemma equal_after_rounding_small (a b : Value) :
  small_integers a b -> equal_after_rounding a b = exactly_equal a b.
Proof.
  intros H. destruct a, b; simpl; try reflexivity.
  - rewrite float_of_int_small; [reflexivity|]. apply H. now left.
  - rewrite float_of_int_small; [reflexivity|]. apply H. now right.
Qed.

Lemma change_after_rounding_small (a b : Value) :
  small_integers a b -> change_after_rounding a b = null_aware_change a b.
Proof.
  intros H. unfold change_after_rounding, null_aware_change.
  now rewrite (equal_after_rounding_small a b H).
Qed.

(** * The claims *)

(** C1 (as the code has it). For every key present in both snapshots and
    every watched field, with old cell [v] and new cell [w], the change list
    of a run holds exactly one Field Update record for that key and field
    when exactly one of [v], [w] is null, or both are present and unequal
    for the comparison that the code makes, in which an integer cell is
    rounded to float64 before it is compared with a float cell; it holds
    none otherwise. In particular it holds none when both are null and
    exactly one when exactly one is null. When no integer cell among the
    two is 2^53 or more in magnitude, the comparison is the literal one. *)
Theorem C1_field_update_iff_change_after_rounding
    (df_old df_new : DataFrame) (d : string) (log : list Dict)
    (k : Key) (col : string) :
  find_changes (Some (WithCIN df_old)) (Some (WithCIN df_new)) d = Return log ->
  In k (index df_old) -> In k (index df_new) -> In col columns_to_check ->
  exists v w,
    loc df_old k col = Return (Scalar v)
    /\ loc df_new k col = Return (Scalar w)
    /\ count_updates k col log = (if change_after_rounding v w then 1 else 0)
    /\ (isna v = true -> isna w = true -> count_updates k col log = 0)
    /\ (isna v <> isna w -> count_updates k col log = 1)
    /\ (isna v = false -> isna w = false ->
        (count_updates k col log = 1 <-> equal_after_rounding v w = false))
    /\ (small_integers v w ->
        count_updates k col log = (if null_aware_change v w then 1 else 0)).
Proof.
  intros Hrun Hko Hkn Hcol.
  destruct (common_key_values df_old df_new d log k col Hrun Hko Hkn Hcol)
    as (v & w & Ho & Hn).
  exists v, w. split; [assumption|]. split; [assumption|].
  pose proof (count_updates_run df_old df_new d log k col v w Hrun Hcol Ho Hn) as Hc.
  rewrite cells_differ_rounding in Hc.
  split; [assumption|]. rewrite Hc.
  split; [|split; [|split]].
  - intros Hv Hw. unfold change_after_rounding. rewrite Hv, Hw. reflexivity.
  - intros Hne. unfold change_after_rounding.
    destruct (isna v), (isna w); simpl; congruence.
  - intros Hv Hw. unfold change_after_rounding. rewrite Hv, Hw. simpl.
    destruct (equal_after_rounding v w); simpl; split; congruence.
  - intros Hs. now rewrite (change_after_rounding_small v w Hs).
Qed.

Lemma C1_witness :
  exists v w,
    loc scenario_old "K2" "CompanyStatus" = Return (Scalar v)
    /\ loc scenario_new "K2" "CompanyStatus" = Return (Scalar w)
    /\ count_updates "K2" "CompanyStatus" scenario_log
       = (if change_after_rounding v w then 1 else 0)
    /\ (isna v = true -> isna w = true ->
        count_updates "K2" "CompanyStatus" scenario_log = 0)
    /\ (isna v <> isna w -> count_updates "K2" "CompanyStatus" scenario_log = 1)
    /\ (isna v = false -> isna w = false ->
        (count_updates "K2" "CompanyStatus" scenario_log = 1
         <-> equal_after_rounding v w = false))
    /\ (small_integers v w ->
        count_updates "K2" "CompanyStatus" scenario_log
        = (if null_aware_change v w then 1 else 0)).
Proof.
  apply (C1_field_update_iff_change_after_rounding scenario_old scenario_new "Day 2").
  - vm_compute. reflexivity.
  - simpl. tauto.
  - simpl. tauto.
  - simpl. tauto.
Defined.

(** C1, refuted as stated: the authorized capital of K1 is present on both
    sides and the two numbers are unequal, 9007199254740993 in the old
    snapshot and 9007199254740992 in the new one, yet the change list of the
    run has no Field Update record for K1 and that field. The old cell is an
    integer and the new cell a float: the code's [!=] converts the integer
    to float64, which rounds it to the new value. *)
Lemma C1_counterexample :
  find_changes (Some (WithCIN drift_old)) (Some (WithCIN drift_new)) "Day 2"
  = Return drift_log
  /\ In "K1" (index drift_old) /\ In "K1" (index drift_new)
  /\ In "AuthorizedCapital" columns_to_check
  /\ loc drift_old "K1" "AuthorizedCapital"
     = Return (Scalar (Num 9007199254740993))
  /\ loc drift_new "K1" "AuthorizedCapital"
     = Return (Scalar (amount 9007199254740992))
  /\ isna (Num 9007199254740993) = false
  /\ isna (amount 9007199254740992) = false
  /\ exactly_equal (Num 9007199254740993) (amount 9007199254740992) = false
  /\ null_aware_change (Num 9007199254740993) (amount 9007199254740992) = true
  /\ count_updates "K1" "AuthorizedCapital" drift_log = 0.
Proof.
  split; [vm_compute; reflexivity|].
  split; [simpl; tauto|]. split; [simpl; tauto|]. split; [simpl; tauto|].
  repeat split.
Qed.

(** C2 (as the code has it). There is no duplicate-key check and no
    DuplicateKeyError. When a key present in both snapshots is on two rows
    of either, the run raises and returns no change list; the exception is
    a ValueError when both snapshots have the name and watched columns. A
    key on two rows of one snapshot that is absent from the other does not
    stop the run: whenever every key present in both snapshots is on one
    row of each, and no needed column is missing, the run returns a change
    list. *)
Theorem C2_duplicate_common_key_raises
    (df_old df_new : DataFrame) (d : string) :
  (forall k,
     In k (index df_old) -> In k (index df_new) ->
     2 <= count_occ string_dec (index df_old) k
     \/ 2 <= count_occ string_dec (index df_new) k ->
     (exists e,
        find_changes (Some (WithCIN df_old)) (Some (WithCIN df_new)) d = Raise e)
     /\ (schema_complete df_old = true -> schema_complete df_new = true ->
         find_changes (Some (WithCIN df_old)) (Some (WithCIN df_new)) d
         = Raise ValueError))
  /\ ((forall k, In k (index df_old) -> In k (index df_new) ->
         count_occ string_dec (index df_old) k = 1
         /\ count_occ string_dec (index df_new) k = 1) ->
      schema_gap df_old df_new = false ->
      exists log,
        find_changes (Some (WithCIN df_old)) (Some (WithCIN df_new)) d = Return log).
Proof.
  split.
  - intros k Hko Hkn Hdup. split.
    + destruct (find_changes (Some (WithCIN df_old)) (Some (WithCIN df_new)) d)
        as [log|e] eqn:E; [|eauto].
      exfalso. exact (duplicate_key_run_fails df_old df_new d k log Hko Hkn Hdup E).
    + intros Hso Hsn. now apply (duplicate_key_value_error df_old df_new d k).
  - intros Honce Hgap.
    destruct (find_changes_outcome_once df_old df_new d) as [[_ H]|[H _]].
    + intros k Hk. apply common_cins_in_both in Hk. now apply Honce.
    + exact H.
    + congruence.
Qed.

Lemma C2_witness :
  find_changes (Some (WithCIN dup_common_old)) (Some (WithCIN dup_new)) "Day 2"
  = Raise ValueError
  /\ exists log,
       find_changes (Some (WithCIN dup_old)) (Some (WithCIN dup_new)) "Day 2"
       = Return log.
Proof.
  split.
  - destruct (proj1 (C2_duplicate_common_key_raises dup_common_old dup_new "Day 2")
                "K2") as [_ H].
    + simpl. tauto.
    + simpl. tauto.
    + left. vm_compute. lia.
    + apply H; reflexivity.
  - apply (proj2 (C2_duplicate_common_key_raises dup_old dup_new "Day 2")).
    + intros k Ho [<-|[]]. split; reflexivity.
    + reflexivity.
Defined.

(** C2, refuted as stated: key K1 is on two rows of the old snapshot, and
    the run returns a change list instead of failing. *)
Lemma C2_counterexample :
  2 <= count_occ string_dec (index dup_old) "K1"
  /\ find_changes (Some (WithCIN dup_old)) (Some (WithCIN dup_new)) "Day 2"
     = Return dup_log.
Proof. split; [vm_compute; lia | vm_compute; reflexivity]. Qed.

(** C3. A returned change list is made of three contiguous sections: the
    New Incorporation records, then the Deregistered records, then the Field
    Update records; with unique keys and no needed column missing the run
    does return; Scenario A yields exactly the three expected records in
    that order. *)
Theorem C3_three_sections :
  (forall df_old df_new d log,
     find_changes (Some (WithCIN df_old)) (Some (WithCIN df_new)) d = Return log ->
     exists added removed updates,
       log = added ++ removed ++ updates
       /\ Forall (has_type "New Incorporation") added
       /\ Forall (has_type "Deregistered") removed
       /\ Forall (has_type "Field Update") updates)
  /\ (forall df_old df_new d,
        NoDup (index df_old) -> NoDup (index df_new) ->
        schema_gap df_old df_new = false ->
        exists log,
          find_changes (Some (WithCIN df_old)) (Some (WithCIN df_new)) d = Return log)
  /\ find_changes (Some (WithCIN scenario_old)) (Some (WithCIN scenario_new)) "Day 2"
     = Return scenario_log.
Proof.
  split; [|split].
  - intros df_old df_new d log Hrun. apply find_changes_inv in Hrun.
    destruct Hrun as (a & r & u & Ha & Hr & Hu & ->).
    exists a, r, u. split; [reflexivity|]. repeat split.
    + eapply Forall_proj1, added_have_type; eauto.
    + eapply Forall_proj1, removed_have_type; eauto.
    + eapply Forall_proj1, updates_have_type; eauto.
  - intros df_old df_new d Ho Hn Hgap.
    destruct (find_changes_outcome df_old df_new d Ho Hn) as [[_ H]|[H _]];
      [assumption | congruence].
  - vm_compute. reflexivity.
Qed.

Lemma C3_witness :
  exists added removed updates,
    scenario_log = added ++ removed ++ updates
    /\ Forall (has_type "New Incorporation") added
    /\ Forall (has_type "Deregistered") removed
    /\ Forall (has_type "Field Update") updates.
Proof.
  apply (proj1 C3_three_sections scenario_old scenario_new "Day 2").
  vm_compute. reflexivity.
Defined.

(** C4 (as the code has it). In a returned change list the New
    Incorporation records follow the added keys and the Deregistered records
    the removed keys, each in strictly ascending order of key provided the
    other snapshot has at least one row; the Field Update records are
    grouped by key in the order in which the common keys occur in the OLD
    snapshot, and within a key follow the watch-list order
    CompanyStatus, AuthorizedCapital, PaidupCapital. *)
Theorem C4_order_within_sections
    (df_old df_new : DataFrame) (d : string) (log : list Dict) :
  NoDup (index df_old) -> NoDup (index df_new) ->
  find_changes (Some (WithCIN df_old)) (Some (WithCIN df_new)) d = Return log ->
  exists added removed updates,
    log = added ++ removed ++ updates
    /\ map (get "CIN") added
       = map (fun k => Some (text k)) (new_cins df_old df_new)
    /\ (index df_old <> [] -> StronglySorted key_lt (new_cins df_old df_new))
    /\ map (get "CIN") removed
       = map (fun k => Some (text k)) (gone_cins df_old df_new)
    /\ (index df_new <> [] -> StronglySorted key_lt (gone_cins df_old df_new))
    /\ map key_field updates
       = map key_field_of
           (filter (emits df_old df_new d)
              (list_prod (filter (fun k => mem k (index df_new)) (index df_old))
                         columns_to_check)).
Proof.
  intros Ho Hn Hrun. apply find_changes_inv in Hrun.
  destruct Hrun as (a & r & u & Ha & Hr & Hu & ->).
  exists a, r, u. split; [reflexivity|].
  split; [now apply (added_keys df_new d)|].
  split; [intros H; now apply StronglySorted_index_difference|].
  split; [now apply (removed_keys df_old d)|].
  split; [intros H; now apply StronglySorted_index_difference|].
  rewrite <- (index_intersection_NoDup (index df_old) (index df_new) Ho).
  now apply updates_key_field.
Qed.

Lemma C4_witness :
  exists added removed updates,
    shuffled_log = added ++ removed ++ updates
    /\ map (get "CIN") added
       = map (fun k => Some (text k)) (new_cins shuffled_old shuffled_new)
    /\ (index shuffled_old <> [] ->
        StronglySorted key_lt (new_cins shuffled_old shuffled_new))
    /\ map (get "CIN") removed
       = map (fun k => Some (text k)) (gone_cins shuffled_old shuffled_new)
    /\ (index shuffled_new <> [] ->
        StronglySorted key_lt (gone_cins shuffled_old shuffled_new))
    /\ map key_field updates
       = map key_field_of
           (filter (emits shuffled_old shuffled_new "Day 2")
              (list_prod
                 (filter (fun k => mem k (index shuffled_new)) (index shuffled_old))
                 columns_to_check)).
Proof.
  apply (C4_order_within_sections shuffled_old shuffled_new "Day 2").
  - repeat constructor; simpl; intuition discriminate.
  - repeat constructor; simpl; intuition discriminate.
  - vm_compute. reflexivity.
Defined.

(** C4, refuted as stated: both snapshots have unique keys, the change list
    is made of Field Update records only, and the record of K2 comes before
    the record of K1. *)
Lemma C4_counterexample :
  NoDup (index shuffled_old) /\ NoDup (index shuffled_new)
  /\ find_changes (Some (WithCIN shuffled_old)) (Some (WithCIN shuffled_new)) "Day 2"
     = Return shuffled_log
  /\ Forall (has_type "Field Update") shuffled_log
  /\ map (get "CIN") shuffled_log = [Some (text "K2"); Some (text "K1")]
  /\ ~ key_lt "K2" "K1".
Proof.
  split; [repeat constructor; simpl; intuition discriminate|].
  split; [repeat constructor; simpl; intuition discriminate|].
  split; [vm_compute; reflexivity|].
  split; [repeat constructor|].
  split; [reflexivity|].
  unfold key_lt. vm_compute. discriminate.
Qed.

(** C5 (as the code has it). Every key of either snapshot is in exactly one
    of the classes added, removed, common; added and removed are disjoint;
    and a common key with a watched field whose two cells differ for the
    comparison that the code makes (exactly one is null, or both are present
    and unequal once an integer cell is rounded to float64 to be compared
    with a float cell) has at least one Field Update record in the returned
    change list. That is the case whenever the cells differ literally and no
    integer cell among them is 2^53 or more in magnitude. *)
Theorem C5_classes_partition_and_updates_complete
    (df_old df_new : DataFrame) (d : string) :
  (forall k, In k (index df_old) \/ In k (index df_new) ->
     (In k (new_cins df_old df_new) /\ ~ In k (gone_cins df_old df_new)
        /\ ~ In k (common_cins df_old df_new))
     \/ (~ In k (new_cins df_old df_new) /\ In k (gone_cins df_old df_new)
        /\ ~ In k (common_cins df_old df_new))
     \/ (~ In k (new_cins df_old df_new) /\ ~ In k (gone_cins df_old df_new)
        /\ In k (common_cins df_old df_new)))
  /\ (forall k, ~ (In k (new_cins df_old df_new) /\ In k (gone_cins df_old df_new)))
  /\ (forall log k col v w,
        find_changes (Some (WithCIN df_old)) (Some (WithCIN df_new)) d = Return log ->
        In k (common_cins df_old df_new) -> In col columns_to_check ->
        loc df_old k col = Return (Scalar v) ->
        loc df_new k col = Return (Scalar w) ->
        change_after_rounding v w = true
        \/ (small_integers v w /\ null_aware_change v w = true) ->
        exists r, In r log /\ has_type "Field Update" r /\ has_key k r).
Proof.
  split; [|split].
  - intros k Hk.
    rewrite new_cins_in_new, gone_cins_in_old, common_cins_in_both.
    destruct (in_dec string_dec k (index df_old)),
             (in_dec string_dec k (index df_new)); tauto.
  - intros k. rewrite new_cins_in_new, gone_cins_in_old. tauto.
  - intros log k col v w Hrun _ Hcol Ho Hn Hch.
    assert (Hd : cells_differ v w = true).
    { rewrite cells_differ_rounding. destruct Hch as [Hch|[Hs Hch]]; [assumption|].
      now rewrite (change_after_rounding_small v w Hs). }
    pose proof (count_updates_run df_old df_new d log k col v w Hrun Hcol Ho Hn) as Hc.
    rewrite Hd in Hc. unfold count_updates in Hc.
    destruct (filter_nonempty (is_update_of k col) log) as [r [Hin Hr]]; [lia|].
    apply is_update_of_true in Hr. exists r. tauto.
Qed.

Lemma C5_witness :
  exists r, In r scenario_log /\ has_type "Field Update" r /\ has_key "K2" r.
Proof.
  apply (proj2 (proj2 (C5_classes_partition_and_updates_complete
                         scenario_old scenario_new "Day 2"))
           scenario_log "K2" "CompanyStatus" (Str "Active") (Str "Strike Off")).
  - vm_compute. reflexivity.
  - vm_compute. tauto.
  - simpl. tauto.
  - reflexivity.
  - reflexivity.
  - left. reflexivity.
Defined.

(** C5, refuted as stated: the keys of both snapshots are unique, K1 is
    common, and its authorized capital differs under null-aware comparison
    (both cells are present, 9007199254740993 is not 9007199254740992), yet
    the returned change list has no record at all about K1. *)
Lemma C5_counterexample :
  NoDup (index drift_old) /\ NoDup (index drift_new)
  /\ find_changes (Some (WithCIN drift_old)) (Some (WithCIN drift_new)) "Day 2"
     = Return drift_log
  /\ In "K1" (common_cins drift_old drift_new)
  /\ In "AuthorizedCapital" columns_to_check
  /\ (exists v w,
        loc drift_old "K1" "AuthorizedCapital" = Return (Scalar v)
        /\ loc drift_new "K1" "AuthorizedCapital" = Return (Scalar w)
        /\ null_aware_change v w = true)
  /\ forall r, In r drift_log -> ~ has_key "K1" r.
Proof.
  split; [repeat constructor; simpl; intuition discriminate|].
  split; [repeat constructor; simpl; intuition discriminate|].
  split; [vm_compute; reflexivity|].
  split; [vm_compute; tauto|].
  split; [simpl; tauto|].
  split.
  - exists (Num 9007199254740993), (amount 9007199254740992). repeat split.
  - intros r [<-|[]]. unfold has_key. simpl. discriminate.
Qed.

(** C6 (as the code has it). There is no schema check before the diff. With
    unique keys the run stops with a KeyError exactly when it reaches a
    lookup in a missing column: the new snapshot lacks CompanyName and some
    key is added, or the old snapshot lacks CompanyName and some key is
    removed, or a watched column is missing from either snapshot and some
    key is common; in that case no change list is returned, and otherwise
    the run returns one. *)
Theorem C6_missing_column_stops_the_run
    (df_old df_new : DataFrame) (d : string) :
  NoDup (index df_old) -> NoDup (index df_new) ->
  (find_changes (Some (WithCIN df_old)) (Some (WithCIN df_new)) d = Raise KeyError
     <-> schema_gap df_old df_new = true)
  /\ (schema_gap df_old df_new = false ->
      exists log,
        find_changes (Some (WithCIN df_old)) (Some (WithCIN df_new)) d = Return log).
Proof.
  intros Ho Hn.
  destruct (find_changes_outcome df_old df_new d Ho Hn) as [[Hg [log Hl]]|[Hg Hl]];
    rewrite Hg, Hl; split; try split; try congruence; eauto.
Qed.

Lemma C6_witness :
  find_changes (Some (WithCIN dup_new)) (Some (WithCIN nameless_new)) "Day 2"
  = Raise KeyError.
Proof.
  destruct (C6_missing_column_stops_the_run dup_new nameless_new "Day 2")
    as [[_ H] _].
  - repeat constructor; simpl; intuition discriminate.
  - repeat constructor; simpl; intuition discriminate.
  - apply H. reflexivity.
Defined.

(** C6, refuted as stated: the new snapshot has no CompanyName column, yet
    the run succeeds and returns a change list; and with a missing input
    file the run returns an empty list as if nothing had changed. *)
Lemma C6_counterexample :
  has_column nameless_new "CompanyName" = false
  /\ find_changes (Some (WithCIN scenario_old)) (Some (WithCIN nameless_new)) "Day 2"
     = Return nameless_log
  /\ find_changes None (Some (WithCIN scenario_new)) "Day 2" = Return [].
Proof. repeat split. Qed.

(** C7 (as the code has it). Every record of a returned change list carries
    exactly the keys CIN, Change_Type, Field_Changed, Old_Value, New_Value,
    Date, in that order: the key is stored under the name CIN. *)
Theorem C7_record_field_names
    (old_file new_file : option Parsed) (d : string) (log : list Dict) :
  find_changes old_file new_file d = Return log ->
  Forall (fun r => keys r = record_keys) log.
Proof.
  destruct old_file as [[df_old|co bo|eo]|], new_file as [[df_new|cn bn|en]|];
    try destruct eo; try destruct en;
    try (simpl; intros H; first [discriminate H | injection H as <-; constructor]).
  intros Hrun. apply find_changes_inv in Hrun.
  destruct Hrun as (a & r & u & Ha & Hr & Hu & ->).
  rewrite !Forall_app. repeat split.
  - eapply Forall_proj2, added_have_type; eauto.
  - eapply Forall_proj2, removed_have_type; eauto.
  - eapply Forall_proj2, updates_have_type; eauto.
Qed.

Lemma C7_witness : Forall (fun r => keys r = record_keys) scenario_log.
Proof.
  apply (C7_record_field_names (Some (WithCIN scenario_old))
           (Some (WithCIN scenario_new)) "Day 2").
  vm_compute. reflexivity.
Defined.

(** C7, refuted as stated: the first record of Scenario A's change list is
    keyed by CIN, not by Key. *)
Lemma C7_counterexample :
  find_changes (Some (WithCIN scenario_old)) (Some (WithCIN scenario_new)) "Day 2"
  = Return scenario_log
  /\ exists r, In r scenario_log
               /\ keys r = record_keys /\ keys r <> spec_record_keys.
Proof.
  split; [vm_compute; reflexivity|].
  exists (nth 0 scenario_log []). split; [simpl; tauto|].
  split; [reflexivity | discriminate].
Qed.

(** C8. Reconciling a snapshot with unique keys (and the watched columns)
    against itself returns the empty change list, whatever the label. *)
Theorem C8_self_reconciliation_is_empty (S : DataFrame) (d : string) :
  NoDup (index S) -> watched_columns_present S = true ->
  find_changes (Some (WithCIN S)) (Some (WithCIN S)) d = Return [].
Proof. apply find_changes_self. Qed.

Lemma C8_witness :
  find_changes (Some (WithCIN scenario_old)) (Some (WithCIN scenario_old)) "Day 2"
  = Return [].
Proof.
  apply (C8_self_reconciliation_is_empty scenario_old "Day 2").
  - repeat constructor; simpl; intuition discriminate.
  - reflexivity.
Defined.

(** C9, at the input where the code departs from it: a run that finds no
    change returns the empty log, and on the empty log the summary raises a
    KeyError instead of counting zero records of each type. On Scenario A's
    log the counts are 1, 1, 1. *)
Theorem C9_summary_of_empty_log :
  find_changes (Some (WithCIN scenario_new)) (Some (WithCIN scenario_new)) "Day 3"
  = Return []
  /\ summary_counts [] = Raise KeyError
  /\ summary_counts scenario_log = Return (1, 1, 1).
Proof. repeat split. Qed.

(** C10 (as the code has it). [find_changes] raises nothing and returns the
    empty list, which is also what a successful run without changes returns,
    when the first failure met while loading the two snapshots, the old one
    first, is a missing file or a missing CIN column: the old file is
    missing or has no CIN column, or the old file is loaded and the new file
    is missing or has no CIN column. A file that [pd.read_csv] refuses for
    another reason (an empty file, a malformed one, ...) is not covered: its
    exception reaches the caller, and when it is the old file it does so
    even if the new file is missing or has no CIN column. *)
Theorem C10_missing_input_returns_empty
    (old_file new_file : option Parsed) (d : string) :
  (old_file = None
   \/ (exists cols body, old_file = Some (NoCIN cols body))
   \/ ((exists df_old, old_file = Some (WithCIN df_old))
       /\ (new_file = None
           \/ exists cols body, new_file = Some (NoCIN cols body))) ->
   find_changes old_file new_file d = Return []
   /\ find_changes old_file new_file d
      = find_changes (Some (WithCIN scenario_old)) (Some (WithCIN scenario_old)) d)
  /\ (forall e, e <> FileNotFoundError -> e <> KeyError ->
        old_file = Some (Unreadable e)
        \/ ((exists df_old, old_file = Some (WithCIN df_old))
            /\ new_file = Some (Unreadable e)) ->
        find_changes old_file new_file d = Raise e).
Proof.
  split.
  - intros H.
    assert (E : find_changes old_file new_file d = Return []).
    { destruct H as [->|[(c & b & ->)|[[df ->] [->|(c & b & ->)]]]]; reflexivity. }
    split; [assumption|]. rewrite E. symmetry. apply find_changes_self.
    + repeat constructor; simpl; intuition discriminate.
    + reflexivity.
  - intros e Hf Hk [->|[[df ->] ->]]; destruct e; try reflexivity; contradiction.
Qed.

Lemma C10_witness :
  find_changes None (Some (NoCIN ["CompanyName"] [[Str "Alpha"]])) "Day 2" = Return []
  /\ find_changes None (Some (NoCIN ["CompanyName"] [[Str "Alpha"]])) "Day 2"
     = find_changes (Some (WithCIN scenario_old)) (Some (WithCIN scenario_old)) "Day 2".
Proof.
  apply (proj1 (C10_missing_input_returns_empty None
                  (Some (NoCIN ["CompanyName"] [[Str "Alpha"]])) "Day 2")).
  left. reflexivity.
Defined.

(** C10, refuted as stated: the new file is missing, and [find_changes]
    raises to its caller instead of returning the empty list, because the
    old file, read first, is an empty file that [pd.read_csv] refuses with
    an EmptyDataError; the same happens when the old file has the CIN column
    and the new file is the empty one. *)
Lemma C10_counterexample :
  find_changes (Some (Unreadable EmptyDataError)) None "Day 2"
  = Raise EmptyDataError
  /\ find_changes (Some (WithCIN scenario_old)) (Some (Unreadable EmptyDataError))
       "Day 2"
     = Raise EmptyDataError.
Proof. split; reflexivity. Qed.

(** * Further properties of the run *)

(** ** More on loops *)

Lemma for_each_In {X : Type} (body : X -> list Dict -> result (list Dict))
    (xs : list X) (ys : list Dict) (r : Dict) :
  (forall x acc, body x acc = zs <- body x [] ;; Return (acc ++ zs)) ->
  for_each xs body [] = Return ys -> In r ys ->
  exists x zs, In x xs /\ body x [] = Return zs /\ In r zs.
Proof.
  intros Happ. revert ys. induction xs as [|x t IH]; intros ys H Hr.
  - injection H as <-. destruct Hr.
  - rewrite (for_each_cons _ Happ) in H.
    destruct (body x []) as [us|e] eqn:Hx; cbn [bind] in H; [|discriminate].
    destruct (for_each t body []) as [vs|e] eqn:Ht; cbn [bind] in H; [|discriminate].
    injection H as <-. apply in_app_or in Hr. destruct Hr as [Hr|Hr].
    + exists x, us. split; [now left | auto].
    + destruct (IH vs eq_refl Hr) as (y & zs & Hy & Hb & Hz).
      exists y, zs. split; [now right | auto].
Qed.

Lemma for_each_In_conv {X : Type} (body : X -> list Dict -> result (list Dict))
    (xs : list X) (ys zs : list Dict) (x : X) (r : Dict) :
  (forall x acc, body x acc = zs <- body x [] ;; Return (acc ++ zs)) ->
  for_each xs body [] = Return ys ->
  In x xs -> body x [] = Return zs -> In r zs -> In r ys.
Proof.
  intros Happ. revert ys. induction xs as [|y t IH]; intros ys H Hx Hb Hr.
  - destruct Hx.
  - rewrite (for_each_cons _ Happ) in H.
    destruct (body y []) as [us|e] eqn:Hy; cbn [bind] in H; [|discriminate].
    destruct (for_each t body []) as [vs|e] eqn:Ht; cbn [bind] in H; [|discriminate].
    injection H as <-. apply in_or_app. destruct Hx as [->|Hx].
    + left. congruence.
    + right. now apply IH.
Qed.

Lemma for_each_singletons {X : Type} (body : X -> list Dict -> result (list Dict))
    (R : X -> Dict -> Prop) (xs : list X) (ys : list Dict) :
  (forall x acc, body x acc = zs <- body x [] ;; Return (acc ++ zs)) ->
  (forall x zs, body x [] = Return zs -> exists r, zs = [r] /\ R x r) ->
  for_each xs body [] = Return ys -> Forall2 R xs ys.
Proof.
  intros Happ Hone. revert ys. induction xs as [|x t IH]; intros ys H.
  - injection H as <-. constructor.
  - rewrite (for_each_cons _ Happ) in H.
    destruct (body x []) as [us|e] eqn:Hx; cbn [bind] in H; [|discriminate].
    destruct (for_each t body []) as [vs|e] eqn:Ht; cbn [bind] in H; [|discriminate].
    injection H as <-. destruct (Hone x us Hx) as (r & -> & Hr).
    simpl. constructor; [assumption | now apply IH].
Qed.

Lemma for_each_raise_at {X : Type} (body : X -> list Dict -> result (list Dict))
    (xs : list X) (e : Exn) :
  (forall x acc, body x acc = zs <- body x [] ;; Return (acc ++ zs)) ->
  for_each xs body [] = Raise e -> exists x, In x xs /\ body x [] = Raise e.
Proof.
  intros Happ. induction xs as [|x t IH]; intros H; [discriminate|].
  rewrite (for_each_cons _ Happ) in H.
  destruct (body x []) as [us|e'] eqn:Hx; cbn [bind] in H.
  - destruct (for_each t body []) as [vs|e''] eqn:Ht; cbn [bind] in H;
      [discriminate|].
    destruct (IH H) as (y & Hy & Hb). exists y. split; [now right | assumption].
  - exists x. split; [now left | congruence].
Qed.

Lemma list_sum_map_zero {A : Type} (f : A -> nat) (l : list A) :
  (forall b, In b l -> f b = 0) -> list_sum (map f l) = 0.
Proof.
  induction l as [|x t IH]; intros H; [reflexivity|].
  simpl. rewrite (H x (or_introl eq_refl)), IH; [reflexivity|].
  intros b Hb. apply H. now right.
Qed.

(** ** What each step appends, in full *)

Lemma new_incorporation_full (df : DataFrame) (d : string) (k : Key)
    (zs : list Dict) :
  new_incorporation df d k [] = Return zs ->
  exists r, zs = [r] /\
    exists name, loc df k "CompanyName" = Return name
                 /\ r = new_incorporation_record k name d.
Proof.
  unfold new_incorporation.
  destruct (loc df k "CompanyName") as [name|]; cbn [bind]; [|discriminate].
  intros H. injection H as <-. eexists. split; [reflexivity|]. eauto.
Qed.

Lemma deregistered_full (df : DataFrame) (d : string) (k : Key)
    (zs : list Dict) :
  deregistered df d k [] = Return zs ->
  exists r, zs = [r] /\
    exists name, loc df k "CompanyName" = Return name
                 /\ r = deregistered_record k name d.
Proof.
  unfold deregistered.
  destruct (loc df k "CompanyName") as [name|]; cbn [bind]; [|discriminate].
  intros H. injection H as <-. eexists. split; [reflexivity|]. eauto.
Qed.

Lemma field_update_full (df_old df_new : DataFrame) (d : string) (k : Key)
    (c : string) (zs : list Dict) :
  field_update df_old df_new d k c [] = Return zs ->
  exists v w, loc df_old k c = Return (Scalar v)
    /\ loc df_new k c = Return (Scalar w)
    /\ zs = if cells_differ v w
            then [field_update_record k c (Scalar v) (Scalar w) d] else [].
Proof.
  unfold field_update.
  destruct (loc df_old k c) as [[v|vs]|]; cbn [bind]; try discriminate;
    destruct (loc df_new k c) as [[w|ws]|]; cbn [bind];
    try (simpl; discriminate).
  rewrite differs_scalars. cbn [bind]. intros H. exists v, w.
  split; [reflexivity|]. split; [reflexivity|].
  destruct (cells_differ v w); now injection H as <-.
Qed.

Lemma has_type_functional (t1 t2 : string) (r : Dict) :
  has_type t1 r -> has_type t2 r -> t1 = t2.
Proof. unfold has_type, text. intros H1 H2. congruence. Qed.

(** ** Content of the records *)

(** X1. Every record of a returned change list carries the label of the run in
    its Date field. *)
Theorem records_carry_the_label
    (old_file new_file : option Parsed) (d : string) (log : list Dict) :
  find_changes old_file new_file d = Return log ->
  Forall (fun r => get "Date" r = Some (text d)) log.
Proof.
  destruct old_file as [[df_old|co bo|eo]|], new_file as [[df_new|cn bn|en]|];
    try destruct eo; try destruct en;
    try (simpl; intros H; first [discriminate H | injection H as <-; constructor]).
  intros Hrun. apply find_changes_inv in Hrun.
  destruct Hrun as (a & r & u & Ha & Hr & Hu & ->).
  rewrite !Forall_app. repeat split.
  - revert Ha. apply (for_each_Forall _ (new_incorporation_appends df_new d)).
    intros k zs _ H. apply new_incorporation_full in H.
    destruct H as (x & -> & name & _ & ->). now repeat constructor.
  - revert Hr. apply (for_each_Forall _ (deregistered_appends df_old d)).
    intros k zs _ H. apply deregistered_full in H.
    destruct H as (x & -> & name & _ & ->). now repeat constructor.
  - revert Hu. apply (for_each_Forall _ (watch_key_appends df_old df_new d)).
    intros k zs _. unfold watch_key.
    apply (for_each_Forall _ (field_update_appends df_old df_new d k)).
    intros c us _ H. apply field_update_full in H.
    destruct H as (v & w & _ & _ & ->).
    destruct (cells_differ v w); now repeat constructor.
Qed.

Lemma records_carry_the_label_witness :
  Forall (fun r => get "Date" r = Some (text "Day 2")) scenario_log.
Proof.
  apply (records_carry_the_label (Some (WithCIN scenario_old))
           (Some (WithCIN scenario_new)) "Day 2").
  vm_compute. reflexivity.
Defined.

(** X2. The first section of a returned change list holds, for each added key in
    turn, one New Incorporation record whose New_Value is the CompanyName
    cell of that key in the new snapshot and whose Field_Changed and
    Old_Value are "N/A"; the second section holds, for each removed key in
    turn, one Deregistered record whose Old_Value is the CompanyName cell of
    the key in the old snapshot. *)
Theorem membership_records_content
    (df_old df_new : DataFrame) (d : string) (log : list Dict) :
  find_changes (Some (WithCIN df_old)) (Some (WithCIN df_new)) d = Return log ->
  exists added removed updates,
    log = added ++ removed ++ updates
    /\ Forall2 (fun k r => exists name,
                  loc df_new k "CompanyName" = Return name
                  /\ r = new_incorporation_record k name d)
         (new_cins df_old df_new) added
    /\ Forall2 (fun k r => exists name,
                  loc df_old k "CompanyName" = Return name
                  /\ r = deregistered_record k name d)
         (gone_cins df_old df_new) removed
    /\ Forall (has_type "Field Update") updates.
Proof.
  intros Hrun. apply find_changes_inv in Hrun.
  destruct Hrun as (a & r & u & Ha & Hr & Hu & ->).
  exists a, r, u. split; [reflexivity|]. repeat split.
  - revert Ha. apply for_each_singletons; [apply new_incorporation_appends|].
    intros k zs. apply new_incorporation_full.
  - revert Hr. apply for_each_singletons; [apply deregistered_appends|].
    intros k zs. apply deregistered_full.
  - eapply Forall_proj1, updates_have_type; eauto.
Qed.

Lemma membership_records_content_witness :
  exists added removed updates,
    scenario_log = added ++ removed ++ updates
    /\ Forall2 (fun k r => exists name,
                  loc scenario_new k "CompanyName" = Return name
                  /\ r = new_incorporation_record k name "Day 2")
         (new_cins scenario_old scenario_new) added
    /\ Forall2 (fun k r => exists name,
                  loc scenario_old k "CompanyName" = Return name
                  /\ r = deregistered_record k name "Day 2")
         (gone_cins scenario_old scenario_new) removed
    /\ Forall (has_type "Field Update") updates.
Proof.
  apply (membership_records_content scenario_old scenario_new "Day 2").
  vm_compute. reflexivity.
Defined.

Lemma In_updates_iff (df_old df_new : DataFrame) (d : string)
    (u : list Dict) (r : Dict) :
  for_each (common_cins df_old df_new) (watch_key df_old df_new d) [] = Return u ->
  In r u <->
  exists k col v w,
    In k (common_cins df_old df_new) /\ In col columns_to_check
    /\ loc df_old k col = Return (Scalar v)
    /\ loc df_new k col = Return (Scalar w)
    /\ change_after_rounding v w = true
    /\ r = field_update_record k col (Scalar v) (Scalar w) d.
Proof.
  intros Hu. split.
  - intros Hr.
    destruct (for_each_In _ _ _ r (watch_key_appends df_old df_new d) Hu Hr)
      as (k & zs & Hk & Hzs & Hrz).
    unfold watch_key in Hzs.
    destruct (for_each_In _ _ _ r (field_update_appends df_old df_new d k) Hzs Hrz)
      as (c & us & Hc & Hus & Hru).
    apply field_update_full in Hus. destruct Hus as (v & w & Ho & Hn & ->).
    destruct (cells_differ v w) eqn:E; [|destruct Hru].
    rewrite cells_differ_rounding in E.
    destruct Hru as [<-|[]]. exists k, c, v, w. auto 10.
  - intros (k & col & v & w & Hk & Hc & Ho & Hn & E & ->).
    rewrite <- cells_differ_rounding in E.
    destruct (for_each_steps _ (watch_key_appends df_old df_new d) _ _ Hu k Hk)
      as [zs Hzs].
    apply (for_each_In_conv _ _ _ zs k _ (watch_key_appends df_old df_new d) Hu Hk Hzs).
    unfold watch_key in Hzs.
    destruct (for_each_steps _ (field_update_appends df_old df_new d k) _ _ Hzs
                col Hc) as [us Hus].
    apply (for_each_In_conv _ _ _ us col _
             (field_update_appends df_old df_new d k) Hzs Hc Hus).
    apply field_update_full in Hus. destruct Hus as (v' & w' & Ho' & Hn' & ->).
    rewrite Ho in Ho'. rewrite Hn in Hn'.
    injection Ho' as <-. injection Hn' as <-. rewrite E. now left.
Qed.

(** X3. A Field Update record is in a returned change list exactly when it
    reports, for a key of both snapshots and a watched field, the old and
    the new cell of that field, and these differ for the comparison that
    the code makes: exactly one of them is null, or both are present and
    unequal, an integer cell being rounded to float64 before it is compared
    with a float cell. No update is spurious, none is missing, and Old_Value
    and New_Value are the two cells compared. *)
Theorem field_update_records_iff
    (df_old df_new : DataFrame) (d : string) (log : list Dict) (r : Dict) :
  find_changes (Some (WithCIN df_old)) (Some (WithCIN df_new)) d = Return log ->
  (In r log /\ has_type "Field Update" r) <->
  exists k col v w,
    In k (common_cins df_old df_new) /\ In col columns_to_check
    /\ loc df_old k col = Return (Scalar v)
    /\ loc df_new k col = Return (Scalar w)
    /\ change_after_rounding v w = true
    /\ r = field_update_record k col (Scalar v) (Scalar w) d.
Proof.
  intros Hrun. apply find_changes_inv in Hrun.
  destruct Hrun as (a & rm & u & Ha & Hr & Hu & ->).
  rewrite <- (In_updates_iff df_old df_new d u r Hu). split.
  - intros [Hin Hty]. apply in_app_or in Hin. destruct Hin as [Hin|Hin].
    + pose proof (Forall_proj1 _ _ _ (added_have_type df_old df_new d _ _ Ha)) as HF.
      rewrite Forall_forall in HF.
      pose proof (has_type_functional _ _ r (HF r Hin) Hty). discriminate.
    + apply in_app_or in Hin. destruct Hin as [Hin|Hin]; [|assumption].
      pose proof (Forall_proj1 _ _ _ (removed_have_type df_old d _ _ Hr)) as HF.
      rewrite Forall_forall in HF.
      pose proof (has_type_functional _ _ r (HF r Hin) Hty). discriminate.
  - intros Hin. split.
    + apply in_or_app. right. apply in_or_app. now right.
    + pose proof (Forall_proj1 _ _ _ (updates_have_type df_old df_new d _ _ Hu)) as HF.
      rewrite Forall_forall in HF. auto.
Qed.

Lemma field_update_records_iff_witness :
  (In (field_update_record "K2" "CompanyStatus" (text "Active") (text "Strike Off")
         "Day 2") scenario_log
   /\ has_type "Field Update"
        (field_update_record "K2" "CompanyStatus" (text "Active") (text "Strike Off")
           "Day 2")) <->
  exists k col v w,
    In k (common_cins scenario_old scenario_new) /\ In col columns_to_check
    /\ loc scenario_old k col = Return (Scalar v)
    /\ loc scenario_new k col = Return (Scalar w)
    /\ change_after_rounding v w = true
    /\ field_update_record "K2" "CompanyStatus" (text "Active") (text "Strike Off")
         "Day 2"
       = field_update_record k col (Scalar v) (Scalar w) "Day 2".
Proof.
  apply (field_update_records_iff scenario_old scenario_new "Day 2" scenario_log).
  vm_compute. reflexivity.
Defined.

(** ** Records per key, and size of the change list *)

Lemma key_is_has_key (k k' : Key) (r : Dict) :
  has_key k' r -> key_is k r = String.eqb k' k.
Proof. unfold has_key, key_is. intros ->. reflexivity. Qed.

Lemma filter_key_other (k : Key) (l : list Dict) :
  Forall (fun r => exists k', k' <> k /\ has_key k' r) l ->
  filter (key_is k) l = [].
Proof.
  induction 1 as [|r t (k' & Hne & Hk) _ IH]; [reflexivity|].
  simpl. rewrite (key_is_has_key k k' r Hk).
  apply String.eqb_neq in Hne. now rewrite Hne.
Qed.

Lemma count_key_Forall2 (R : Key -> Dict -> Prop) (k : Key)
    (ks : list Key) (ys : list Dict) :
  (forall k' r, R k' r -> has_key k' r) ->
  Forall2 R ks ys ->
  List.length (filter (key_is k) ys) = count_occ string_dec ks k.
Proof.
  intros HR. induction 1 as [|k' r ks' ys' Hr _ IH]; [reflexivity|].
  simpl. rewrite (key_is_has_key k k' r (HR k' r Hr)).
  destruct (string_dec k' k) as [->|Hne].
  - rewrite String.eqb_refl. simpl. now rewrite IH.
  - apply String.eqb_neq in Hne. now rewrite Hne.
Qed.

Lemma length_one {A : Type} (l : list A) :
  List.length l = 1 -> exists x, l = [x].
Proof. destruct l as [|x [|y t]]; simpl; try discriminate. eauto. Qed.

Lemma updates_keys_common (df_old df_new : DataFrame) (d : string)
    (u : list Dict) :
  for_each (common_cins df_old df_new) (watch_key df_old df_new d) [] = Return u ->
  Forall (fun r => exists k', In k' (common_cins df_old df_new) /\ has_key k' r) u.
Proof.
  intros Hu. apply Forall_forall. intros r Hr.
  apply (In_updates_iff df_old df_new d u r Hu) in Hr.
  destruct Hr as (k & col & v & w & Hk & _ & _ & _ & _ & ->).
  exists k. split; [assumption | reflexivity].
Qed.

Lemma watch_key_length (df_old df_new : DataFrame) (d : string) (k : Key)
    (zs : list Dict) :
  watch_key df_old df_new d k [] = Return zs -> List.length zs <= 3.
Proof.
  intros H. apply watch_key_key_field in H.
  apply (f_equal (@List.length _)) in H. rewrite !length_map in H. rewrite H.
  etransitivity; [apply filter_length_le|]. now rewrite length_map.
Qed.

Lemma added_section (df_new : DataFrame) (d : string) (ks : list Key)
    (a : list Dict) :
  for_each ks (new_incorporation df_new d) [] = Return a ->
  Forall2 (fun k r => exists name,
             loc df_new k "CompanyName" = Return name
             /\ r = new_incorporation_record k name d) ks a.
Proof.
  apply for_each_singletons; [apply new_incorporation_appends|].
  intros k zs. apply new_incorporation_full.
Qed.

Lemma removed_section (df_old : DataFrame) (d : string) (ks : list Key)
    (rm : list Dict) :
  for_each ks (deregistered df_old d) [] = Return rm ->
  Forall2 (fun k r => exists name,
             loc df_old k "CompanyName" = Return name
             /\ r = deregistered_record k name d) ks rm.
Proof.
  apply for_each_singletons; [apply deregistered_appends|].
  intros k zs. apply deregistered_full.
Qed.

Lemma count_key_added (df_new : DataFrame) (d : string) (ks : list Key)
    (a : list Dict) (k : Key) :
  for_each ks (new_incorporation df_new d) [] = Return a ->
  List.length (filter (key_is k) a) = count_occ string_dec ks k.
Proof.
  intros H. apply added_section in H.
  apply (count_key_Forall2 _ k _ _) with (2 := H).
  intros k' r (name & _ & ->). reflexivity.
Qed.

Lemma count_key_removed (df_old : DataFrame) (d : string) (ks : list Key)
    (rm : list Dict) (k : Key) :
  for_each ks (deregistered df_old d) [] = Return rm ->
  List.length (filter (key_is k) rm) = count_occ string_dec ks k.
Proof.
  intros H. apply removed_section in H.
  apply (count_key_Forall2 _ k _ _) with (2 := H).
  intros k' r (name & _ & ->). reflexivity.
Qed.

Lemma filter_key_updates_other (df_old df_new : DataFrame) (d : string)
    (u : list Dict) (k : Key) :
  for_each (common_cins df_old df_new) (watch_key df_old df_new d) [] = Return u ->
  ~ In k (common_cins df_old df_new) -> filter (key_is k) u = [].
Proof.
  intros Hu Hn. apply filter_key_other.
  generalize (updates_keys_common df_old df_new d u Hu). apply Forall_impl.
  intros r (k' & Hk' & Hr). exists k'. split; [|assumption].
  intros ->. contradiction.
Qed.

Lemma filter_key_updates_length (df_old df_new : DataFrame) (d : string)
    (u : list Dict) (k : Key) :
  for_each (common_cins df_old df_new) (watch_key df_old df_new d) [] = Return u ->
  List.length (filter (key_is k) u) <= 3.
Proof.
  intros Hu.
  destruct (in_dec string_dec k (common_cins df_old df_new)) as [Hk|Hk].
  - rewrite (for_each_count _ (watch_key_appends df_old df_new d) _ _ _ Hu).
    rewrite (list_sum_map_single _ _ k (NoDup_index_intersection _ _) Hk).
    + destruct (for_each_steps _ (watch_key_appends df_old df_new d) _ _ Hu k Hk)
        as [zs Hzs].
      rewrite Hzs. simpl.
      etransitivity; [apply filter_length_le | now apply watch_key_length in Hzs].
    + intros k' _ Hne.
      destruct (watch_key df_old df_new d k' []) as [zs|e] eqn:E; [|reflexivity].
      simpl. rewrite filter_key_other; [reflexivity|].
      generalize (watch_key_Forall (has_key k') df_old df_new d k' zs
                    (fun r _ H _ => H) E).
      apply Forall_impl. intros r Hr. exists k'. auto.
  - rewrite (filter_key_updates_other df_old df_new d u k Hu Hk). simpl. lia.
Qed.

Lemma Forall_filter_keep {A : Type} (P : A -> Prop) (p : A -> bool) (l : list A) :
  Forall P l -> Forall P (filter p l).
Proof.
  rewrite !Forall_forall. intros H x Hx. apply filter_In in Hx. apply H, Hx.
Qed.

(** X4. In a returned change list each added key has exactly one record, a New
    Incorporation; each removed key has exactly one record, a Deregistered;
    a key of both snapshots has Field Update records only, at most three;
    and a key of neither snapshot has no record. *)
Theorem records_of_a_key
    (df_old df_new : DataFrame) (d : string) (log : list Dict) (k : Key) :
  find_changes (Some (WithCIN df_old)) (Some (WithCIN df_new)) d = Return log ->
  (In k (new_cins df_old df_new) ->
     exists r, filter (key_is k) log = [r] /\ has_type "New Incorporation" r)
  /\ (In k (gone_cins df_old df_new) ->
     exists r, filter (key_is k) log = [r] /\ has_type "Deregistered" r)
  /\ (In k (common_cins df_old df_new) ->
     Forall (has_type "Field Update") (filter (key_is k) log)
     /\ List.length (filter (key_is k) log) <= 3)
  /\ (~ In k (index df_old) -> ~ In k (index df_new) ->
     filter (key_is k) log = []).
Proof.
  intros Hrun. apply find_changes_inv in Hrun.
  destruct Hrun as (a & rm & u & Ha & Hr & Hu & ->).
  pose proof (count_key_added df_new d _ a k Ha) as La.
  pose proof (count_key_removed df_old d _ rm k Hr) as Lr.
  pose proof (filter_key_updates_other df_old df_new d u k Hu) as Hu0.
  pose proof (NoDup_index_difference (index df_new) (index df_old)) as Nn.
  pose proof (NoDup_index_difference (index df_old) (index df_new)) as Ng.
  fold (new_cins df_old df_new) in Nn. fold (gone_cins df_old df_new) in Ng.
  pose proof (new_cins_in_new df_old df_new k) as In1.
  pose proof (gone_cins_in_old df_old df_new k) as In2.
  pose proof (common_cins_in_both df_old df_new k) as In3.
  pose proof (Forall_proj1 _ _ _ (added_have_type df_old df_new d _ _ Ha)) as Ta.
  pose proof (Forall_proj1 _ _ _ (removed_have_type df_old d _ _ Hr)) as Tr.
  pose proof (Forall_proj1 _ _ _ (updates_have_type df_old df_new d _ _ Hu)) as Tu.
  rewrite !filter_app.
  split; [|split; [|split]].
  - intros Hk.
    rewrite (proj1 (NoDup_count_occ' string_dec _) Nn k Hk) in La.
    assert (Hg : ~ In k (gone_cins df_old df_new)) by tauto.
    apply (count_occ_not_In string_dec) in Hg. rewrite Hg in Lr.
    apply length_zero_iff_nil in Lr. rewrite Lr, Hu0 by tauto.
    destruct (length_one _ La) as [r Er]. rewrite Er. exists r.
    split; [reflexivity|].
    assert (Hin : In r (filter (key_is k) a)) by (rewrite Er; now left).
    apply filter_In in Hin. rewrite Forall_forall in Ta. apply Ta, Hin.
  - intros Hk.
    rewrite (proj1 (NoDup_count_occ' string_dec _) Ng k Hk) in Lr.
    assert (Hg : ~ In k (new_cins df_old df_new)) by tauto.
    apply (count_occ_not_In string_dec) in Hg. rewrite Hg in La.
    apply length_zero_iff_nil in La. rewrite La, Hu0 by tauto.
    destruct (length_one _ Lr) as [r Er]. rewrite Er. exists r.
    split; [reflexivity|].
    assert (Hin : In r (filter (key_is k) rm)) by (rewrite Er; now left).
    apply filter_In in Hin. rewrite Forall_forall in Tr. apply Tr, Hin.
  - intros Hk.
    assert (Hg : ~ In k (new_cins df_old df_new)) by tauto.
    apply (count_occ_not_In string_dec) in Hg. rewrite Hg in La.
    apply length_zero_iff_nil in La.
    assert (Hg' : ~ In k (gone_cins df_old df_new)) by tauto.
    apply (count_occ_not_In string_dec) in Hg'. rewrite Hg' in Lr.
    apply length_zero_iff_nil in Lr. rewrite La, Lr. simpl. split.
    + now apply Forall_filter_keep.
    + now apply (filter_key_updates_length df_old df_new d).
  - intros Ho Hn.
    assert (Hg : ~ In k (new_cins df_old df_new)) by tauto.
    apply (count_occ_not_In string_dec) in Hg. rewrite Hg in La.
    apply length_zero_iff_nil in La.
    assert (Hg' : ~ In k (gone_cins df_old df_new)) by tauto.
    apply (count_occ_not_In string_dec) in Hg'. rewrite Hg' in Lr.
    apply length_zero_iff_nil in Lr. rewrite La, Lr, Hu0 by tauto. reflexivity.
Qed.

Lemma records_of_a_key_witness :
  exists r, filter (key_is "K3") scenario_log = [r]
            /\ has_type "New Incorporation" r.
Proof.
  apply (proj1 (records_of_a_key scenario_old scenario_new "Day 2" scenario_log "K3"
                  eq_refl)).
  vm_compute. tauto.
Defined.

(** ** Size of the change list and the summary of a run *)

Lemma sections_lengths (df_old df_new : DataFrame) (d : string)
    (a rm u : list Dict) :
  for_each (new_cins df_old df_new) (new_incorporation df_new d) [] = Return a ->
  for_each (gone_cins df_old df_new) (deregistered df_old d) [] = Return rm ->
  for_each (common_cins df_old df_new) (watch_key df_old df_new d) [] = Return u ->
  List.length a = List.length (new_cins df_old df_new)
  /\ List.length rm = List.length (gone_cins df_old df_new)
  /\ List.length u
     = List.length (filter (emits df_old df_new d)
                      (list_prod (common_cins df_old df_new) columns_to_check)).
Proof.
  intros Ha Hr Hu. repeat split.
  - symmetry. eapply Forall2_length, added_section, Ha.
  - symmetry. eapply Forall2_length, removed_section, Hr.
  - apply updates_key_field in Hu.
    apply (f_equal (@List.length _)) in Hu. now rewrite !length_map in Hu.
Qed.

(** X5. A returned change list has one record per added key, one per removed
    key and one per watched field that changed on a common key: at most
    three per common key. *)
Theorem change_list_length
    (df_old df_new : DataFrame) (d : string) (log : list Dict) :
  find_changes (Some (WithCIN df_old)) (Some (WithCIN df_new)) d = Return log ->
  List.length log
  = List.length (new_cins df_old df_new) + List.length (gone_cins df_old df_new)
    + List.length (filter (emits df_old df_new d)
                     (list_prod (common_cins df_old df_new) columns_to_check))
  /\ List.length log
     <= List.length (new_cins df_old df_new) + List.length (gone_cins df_old df_new)
        + 3 * List.length (common_cins df_old df_new).
Proof.
  intros Hrun. apply find_changes_inv in Hrun.
  destruct Hrun as (a & rm & u & Ha & Hr & Hu & ->).
  destruct (sections_lengths df_old df_new d a rm u Ha Hr Hu) as (La & Lr & Lu).
  rewrite !length_app, La, Lr, Lu.
  split; [lia|].
  pose proof (filter_length_le (emits df_old df_new d)
                (list_prod (common_cins df_old df_new) columns_to_check)) as Hle.
  rewrite length_prod in Hle. simpl in Hle. lia.
Qed.

Lemma change_list_length_witness :
  List.length scenario_log
  = List.length (new_cins scenario_old scenario_new)
    + List.length (gone_cins scenario_old scenario_new)
    + List.length (filter (emits scenario_old scenario_new "Day 2")
                     (list_prod (common_cins scenario_old scenario_new)
                        columns_to_check))
  /\ List.length scenario_log
     <= List.length (new_cins scenario_old scenario_new)
        + List.length (gone_cins scenario_old scenario_new)
        + 3 * List.length (common_cins scenario_old scenario_new).
Proof.
  apply (change_list_length scenario_old scenario_new "Day 2").
  vm_compute. reflexivity.
Defined.

Lemma count_records_all (ty : string) (l : list Dict) :
  Forall (has_type ty) l -> count_records ty l = List.length l.
Proof.
  unfold count_records. induction 1 as [|r t Hr _ IH]; [reflexivity|].
  simpl. unfold type_is at 1. rewrite Hr. simpl. rewrite String.eqb_refl.
  simpl. now rewrite IH.
Qed.

Lemma count_records_none (ty ty' : string) (l : list Dict) :
  String.eqb ty' ty = false -> Forall (has_type ty') l -> count_records ty l = 0.
Proof.
  unfold count_records. intros Hne. induction 1 as [|r t Hr _ IH]; [reflexivity|].
  simpl. unfold type_is at 1. rewrite Hr. simpl. now rewrite Hne.
Qed.

Lemma count_records_app (ty : string) (l l' : list Dict) :
  count_records ty (l ++ l') = count_records ty l + count_records ty l'.
Proof. unfold count_records. now rewrite filter_app, length_app. Qed.

(** X6. The summary of a non-empty change list returned by a run counts the
    added keys, the removed keys and the field changes of that run, and the
    three counts add up to the number of records. *)
Theorem summary_of_a_run
    (df_old df_new : DataFrame) (d : string) (log : list Dict) :
  find_changes (Some (WithCIN df_old)) (Some (WithCIN df_new)) d = Return log ->
  log <> [] ->
  exists updates,
    summary_counts log
    = Return (List.length (new_cins df_old df_new),
              List.length (gone_cins df_old df_new),
              updates)
    /\ updates <= 3 * List.length (common_cins df_old df_new)
    /\ List.length (new_cins df_old df_new)
       + List.length (gone_cins df_old df_new) + updates = List.length log.
Proof.
  intros Hrun Hne. apply find_changes_inv in Hrun.
  destruct Hrun as (a & rm & u & Ha & Hr & Hu & ->).
  destruct (sections_lengths df_old df_new d a rm u Ha Hr Hu) as (La & Lr & Lu).
  pose proof (added_have_type df_old df_new d _ _ Ha) as Ta.
  pose proof (removed_have_type df_old d _ _ Hr) as Tr.
  pose proof (updates_have_type df_old df_new d _ _ Hu) as Tu.
  exists (List.length u). split; [|split].
  - rewrite summary_counts_nonempty; [|assumption|].
    + rewrite !count_records_app.
      rewrite (count_records_all "New Incorporation" a (Forall_proj1 _ _ _ Ta)).
      rewrite (count_records_none "New Incorporation" "Deregistered" rm eq_refl
                 (Forall_proj1 _ _ _ Tr)).
      rewrite (count_records_none "New Incorporation" "Field Update" u eq_refl
                 (Forall_proj1 _ _ _ Tu)).
      rewrite (count_records_none "Deregistered" "New Incorporation" a eq_refl
                 (Forall_proj1 _ _ _ Ta)).
      rewrite (count_records_all "Deregistered" rm (Forall_proj1 _ _ _ Tr)).
      rewrite (count_records_none "Deregistered" "Field Update" u eq_refl
                 (Forall_proj1 _ _ _ Tu)).
      rewrite (count_records_none "Field Update" "New Incorporation" a eq_refl
                 (Forall_proj1 _ _ _ Ta)).
      rewrite (count_records_none "Field Update" "Deregistered" rm eq_refl
                 (Forall_proj1 _ _ _ Tr)).
      rewrite (count_records_all "Field Update" u (Forall_proj1 _ _ _ Tu)).
      rewrite La, Lr. repeat f_equal; lia.
    + rewrite !Forall_app. repeat split; eapply Forall_proj2; eauto.
  - rewrite Lu.
    pose proof (filter_length_le (emits df_old df_new d)
                  (list_prod (common_cins df_old df_new) columns_to_check)) as Hle.
    rewrite length_prod in Hle. simpl in Hle. lia.
  - rewrite !length_app. lia.
Qed.

Lemma summary_of_a_run_witness :
  exists updates,
    summary_counts scenario_log
    = Return (List.length (new_cins scenario_old scenario_new),
              List.length (gone_cins scenario_old scenario_new),
              updates)
    /\ updates <= 3 * List.length (common_cins scenario_old scenario_new)
    /\ List.length (new_cins scenario_old scenario_new)
       + List.length (gone_cins scenario_old scenario_new) + updates
       = List.length scenario_log.
Proof.
  apply (summary_of_a_run scenario_old scenario_new "Day 2").
  - vm_compute. reflexivity.
  - discriminate.
Defined.

(** ** Empty snapshots *)

Lemma nil_of_no_In {A : Type} (l : list A) : (forall x, ~ In x l) -> l = [].
Proof. destruct l as [|x t]; [reflexivity|]. intros H. destruct (H x). now left. Qed.

Lemma same_elements_length (l l' : list Key) :
  NoDup l -> NoDup l' -> (forall k, In k l <-> In k l') ->
  List.length l = List.length l'.
Proof.
  intros H H' Hiff. apply Permutation_length. now apply NoDup_Permutation.
Qed.

Lemma keys_of_section (R : Key -> Dict -> Prop) (ks : list Key) (ys : list Dict)
    (k : Key) :
  (forall k' r, R k' r -> has_key k' r) ->
  Forall2 R ks ys ->
  In k ks <-> exists r, In r ys /\ has_key k r.
Proof.
  intros HR. induction 1 as [|k' r ks' ys' Hr _ IH]; simpl.
  - split; [tauto | intros (r & [] & _)].
  - rewrite IH. split.
    + intros [->|(r' & Hin & Hk)]; [exists r; auto | exists r'; auto].
    + intros (r' & [<-|Hin] & Hk).
      * left. apply HR in Hr. unfold has_key, text in *. congruence.
      * right. eauto.
Qed.

Lemma added_keys_iff (df_new : DataFrame) (d : string) (ks : list Key)
    (a : list Dict) (k : Key) :
  for_each ks (new_incorporation df_new d) [] = Return a ->
  In k ks <-> exists r, In r a /\ has_key k r.
Proof.
  intros H. apply added_section in H.
  apply (keys_of_section _ ks a k) with (2 := H).
  intros k' r (name & _ & ->). reflexivity.
Qed.

Lemma removed_keys_iff (df_old : DataFrame) (d : string) (ks : list Key)
    (rm : list Dict) (k : Key) :
  for_each ks (deregistered df_old d) [] = Return rm ->
  In k ks <-> exists r, In r rm /\ has_key k r.
Proof.
  intros H. apply removed_section in H.
  apply (keys_of_section _ ks rm k) with (2 := H).
  intros k' r (name & _ & ->). reflexivity.
Qed.

(** X7. When the old snapshot has no row and the new one has a CompanyName
    column, the run returns New Incorporation records only, one for each
    key of the new snapshot; no watched column is needed. Likewise an empty
    new snapshot gives Deregistered records only, one per key of the old
    snapshot. *)
Theorem empty_snapshot_runs (df_old df_new : DataFrame) (d : string) :
  (rows df_old = [] -> has_column df_new "CompanyName" = true ->
   exists log,
     find_changes (Some (WithCIN df_old)) (Some (WithCIN df_new)) d = Return log
     /\ Forall (has_type "New Incorporation") log
     /\ (forall k, In k (index df_new) <-> exists r, In r log /\ has_key k r)
     /\ (NoDup (index df_new) -> List.length log = List.length (rows df_new)))
  /\ (rows df_new = [] -> has_column df_old "CompanyName" = true ->
   exists log,
     find_changes (Some (WithCIN df_old)) (Some (WithCIN df_new)) d = Return log
     /\ Forall (has_type "Deregistered") log
     /\ (forall k, In k (index df_old) <-> exists r, In r log /\ has_key k r)
     /\ (NoDup (index df_old) -> List.length log = List.length (rows df_old))).
Proof.
  split.
  - intros He Hc.
    assert (Hi : index df_old = []) by (unfold index; now rewrite He).
    assert (Hg : gone_cins df_old df_new = []).
    { apply nil_of_no_In. intros k Hk. apply gone_cins_in_old in Hk.
      rewrite Hi in Hk. tauto. }
    assert (Hcm : common_cins df_old df_new = []).
    { apply nil_of_no_In. intros k Hk. apply common_cins_in_both in Hk.
      rewrite Hi in Hk. tauto. }
    rewrite find_changes_frames, compare_frames_sections, Hg, Hcm.
    destruct (added_pass_outcome df_old df_new d) as [[_ [a Ha]]|[Hgap _]];
      [|rewrite Hc in Hgap; discriminate].
    rewrite Ha. cbn [bind for_each]. rewrite app_nil_r.
    exists a. split; [reflexivity|].
    split; [eapply Forall_proj1, added_have_type; eauto|].
    pose proof (added_section df_new d _ a Ha) as Hs. split.
    + intros k. rewrite <- (added_keys_iff df_new d _ a k Ha).
      rewrite new_cins_in_new, Hi. simpl. tauto.
    + intros Hnd. rewrite <- (Forall2_length Hs).
      rewrite <- (length_map fst (rows df_new)). fold (index df_new).
      apply same_elements_length;
        [apply NoDup_index_difference | assumption |].
      intros k. rewrite new_cins_in_new, Hi. simpl. tauto.
  - intros He Hc.
    assert (Hi : index df_new = []) by (unfold index; now rewrite He).
    assert (Hg : new_cins df_old df_new = []).
    { apply nil_of_no_In. intros k Hk. apply new_cins_in_new in Hk.
      rewrite Hi in Hk. tauto. }
    assert (Hcm : common_cins df_old df_new = []).
    { apply nil_of_no_In. intros k Hk. apply common_cins_in_both in Hk.
      rewrite Hi in Hk. tauto. }
    rewrite find_changes_frames, compare_frames_sections, Hg, Hcm.
    destruct (removed_pass_outcome df_old df_new d) as [[_ [rm Hr]]|[Hgap _]];
      [|rewrite Hc in Hgap; discriminate].
    cbn [bind for_each]. rewrite Hr. cbn [bind]. rewrite app_nil_r.
    exists rm. split; [reflexivity|].
    split; [eapply Forall_proj1, removed_have_type; eauto|].
    pose proof (removed_section df_old d _ rm Hr) as Hs. split.
    + intros k. rewrite <- (removed_keys_iff df_old d _ rm k Hr).
      rewrite gone_cins_in_old, Hi. simpl. tauto.
    + intros Hnd. rewrite <- (Forall2_length Hs).
      rewrite <- (length_map fst (rows df_old)). fold (index df_old).
      apply same_elements_length;
        [apply NoDup_index_difference | assumption |].
      intros k. rewrite gone_cins_in_old, Hi. simpl. tauto.
Qed.

Lemma empty_snapshot_runs_witness :
  exists log,
    find_changes (Some (WithCIN no_rows)) (Some (WithCIN scenario_new)) "Day 2"
    = Return log
    /\ Forall (has_type "New Incorporation") log
    /\ (forall k, In k (index scenario_new) <-> exists r, In r log /\ has_key k r)
    /\ (NoDup (index scenario_new) ->
        List.length log = List.length (rows scenario_new)).
Proof.
  apply (proj1 (empty_snapshot_runs no_rows scenario_new "Day 2")); reflexivity.
Defined.

(** ** Exceptions that escape a run *)

Lemma loc_raise (df : DataFrame) (k : Key) (c : string) (e : Exn) :
  loc df k c = Raise e -> In k (index df) ->
  e = KeyError /\ has_column df c = false.
Proof.
  intros H Hk. destruct (has_column df c) eqn:Hc.
  - destruct (loc_present df k c Hc Hk) as [cell Hcell]. congruence.
  - rewrite (loc_missing df k c Hc) in H. split; congruence.
Qed.

Lemma loc_series (df : DataFrame) (k : Key) (c : string) (vs : list Value) :
  loc df k c = Return (Series vs) -> 2 <= count_occ string_dec (index df) k.
Proof.
  unfold loc. rewrite <- rows_of_length.
  destruct (position c (columns df)); [|discriminate].
  destruct (rows_of df k) as [|r [|r' t]]; simpl; try discriminate. lia.
Qed.

Lemma watched_columns_missing (df : DataFrame) (c : string) :
  In c columns_to_check -> has_column df c = false ->
  watched_columns_present df = false.
Proof.
  intros Hc Hm. destruct (watched_columns_present df) eqn:E; [|reflexivity].
  rewrite (watched_columns_each df c E Hc) in Hm. discriminate.
Qed.

(** X8. An exception that escapes a run has one of two causes. A KeyError means
    that a column the run needs is missing: CompanyName in a snapshot, or a
    watched column. A ValueError means that a key present in both snapshots
    is on two rows of one of them. No other exception escapes. *)
Theorem escaping_exception_cause
    (df_old df_new : DataFrame) (d : string) (e : Exn) :
  find_changes (Some (WithCIN df_old)) (Some (WithCIN df_new)) d = Raise e ->
  (e = KeyError
   /\ (has_column df_new "CompanyName" = false
       \/ has_column df_old "CompanyName" = false
       \/ watched_columns_present df_old && watched_columns_present df_new = false))
  \/ (e = ValueError
      /\ exists k, In k (common_cins df_old df_new)
           /\ (2 <= count_occ string_dec (index df_old) k
               \/ 2 <= count_occ string_dec (index df_new) k)).
Proof.
  rewrite find_changes_frames, compare_frames_sections.
  destruct (for_each (new_cins df_old df_new) _ []) as [a|e1] eqn:Ha; cbn [bind].
  2:{ intros H. injection H as <-.
      apply (for_each_raise_at _ _ _ (new_incorporation_appends df_new d)) in Ha.
      destruct Ha as (k & Hk & Hb). apply new_cins_in_new in Hk.
      unfold new_incorporation in Hb.
      destruct (loc df_new k "CompanyName") as [name|e2] eqn:El; [discriminate|].
      cbn [bind] in Hb. injection Hb as ->.
      destruct (loc_raise df_new k _ e1 El (proj1 Hk)) as [-> Hc]. left. auto. }
  destruct (for_each (gone_cins df_old df_new) _ []) as [rm|e1] eqn:Hr; cbn [bind].
  2:{ intros H. injection H as <-.
      apply (for_each_raise_at _ _ _ (deregistered_appends df_old d)) in Hr.
      destruct Hr as (k & Hk & Hb). apply gone_cins_in_old in Hk.
      unfold deregistered in Hb.
      destruct (loc df_old k "CompanyName") as [name|e2] eqn:El; [discriminate|].
      cbn [bind] in Hb. injection Hb as ->.
      destruct (loc_raise df_old k _ e1 El (proj1 Hk)) as [-> Hc]. left. auto. }
  destruct (for_each (common_cins df_old df_new) _ []) as [u|e1] eqn:Hu; cbn [bind];
    [discriminate|].
  intros H. injection H as <-.
  apply (for_each_raise_at _ _ _ (watch_key_appends df_old df_new d)) in Hu.
  destruct Hu as (k & Hk & Hb). unfold watch_key in Hb.
  apply (for_each_raise_at _ _ _ (field_update_appends df_old df_new d k)) in Hb.
  destruct Hb as (c & Hc & Hb). pose proof Hk as Hk'.
  apply common_cins_in_both in Hk'. destruct Hk' as [Hko Hkn].
  unfold field_update in Hb.
  destruct (loc df_old k c) as [o|e2] eqn:Eo; cbn [bind] in Hb.
  2:{ injection Hb as ->. destruct (loc_raise df_old k c e1 Eo Hko) as [-> Hm].
      left. split; [reflexivity|]. right. right.
      now rewrite (watched_columns_missing df_old c Hc Hm). }
  destruct (loc df_new k c) as [n|e2] eqn:En; cbn [bind] in Hb.
  2:{ injection Hb as ->. destruct (loc_raise df_new k c e1 En Hkn) as [-> Hm].
      left. split; [reflexivity|]. right. right.
      rewrite (watched_columns_missing df_new c Hc Hm). apply andb_false_r. }
  right. destruct o as [v|vs], n as [w|ws]; simpl in Hb;
    try (destruct (py_ne v w && negb (isna v && isna w)); discriminate);
    injection Hb as <-; (split; [reflexivity|]); exists k; (split; [assumption|]).
  - right. eapply loc_series; eauto.
  - left. eapply loc_series; eauto.
  - left. eapply loc_series; eauto.
Qed.

Lemma escaping_exception_cause_witness :
  (ValueError = KeyError
   /\ (has_column dup_new "CompanyName" = false
       \/ has_column dup_common_old "CompanyName" = false
       \/ watched_columns_present dup_common_old && watched_columns_present dup_new
          = false))
  \/ (ValueError = ValueError
      /\ exists k, In k (common_cins dup_common_old dup_new)
           /\ (2 <= count_occ string_dec (index dup_common_old) k
               \/ 2 <= count_occ string_dec (index dup_new) k)).
Proof.
  apply (escaping_exception_cause dup_common_old dup_new "Day 2" ValueError).
  reflexivity.
Defined.

(** ** Swapping the two snapshots *)

Lemma py_ne_sym (a b : Value) : py_ne a b = py_ne b a.
Proof.
  destruct a, b; simpl; try reflexivity; f_equal.
  - apply String.eqb_sym.
  - apply Z.eqb_sym.
  - apply float64_eqb_sym.
  - apply float64_eqb_sym.
  - apply float64_eqb_sym.
Qed.

Lemma cells_differ_sym (a b : Value) :
  cells_differ a b = cells_differ b a.
Proof.
  unfold cells_differ. now rewrite (py_ne_sym a b), (andb_comm (isna a)).
Qed.

Lemma change_after_rounding_sym (a b : Value) :
  change_after_rounding a b = change_after_rounding b a.
Proof. rewrite <- !cells_differ_rounding. apply cells_differ_sym. Qed.

Lemma filter_type_keep (ty : string) (l : list Dict) :
  Forall (has_type ty) l -> filter (type_is ty) l = l.
Proof.
  induction 1 as [|r t Hr _ IH]; [reflexivity|].
  simpl. unfold type_is at 1. rewrite Hr. simpl. rewrite String.eqb_refl.
  now rewrite IH.
Qed.

Lemma filter_type_drop (ty ty' : string) (l : list Dict) :
  String.eqb ty' ty = false -> Forall (has_type ty') l ->
  filter (type_is ty) l = [].
Proof.
  intros Hne. induction 1 as [|r t Hr _ IH]; [reflexivity|].
  simpl. unfold type_is at 1. rewrite Hr. simpl. now rewrite Hne.
Qed.

Lemma update_record_in_log (df_old df_new : DataFrame) (d : string)
    (log : list Dict) (k : Key) (col : string) (v w : Value) :
  find_changes (Some (WithCIN df_old)) (Some (WithCIN df_new)) d = Return log ->
  In (field_update_record k col (Scalar v) (Scalar w) d) log <->
  In k (common_cins df_old df_new) /\ In col columns_to_check
  /\ loc df_old k col = Return (Scalar v)
  /\ loc df_new k col = Return (Scalar w)
  /\ change_after_rounding v w = true.
Proof.
  intros Hrun. apply find_changes_inv in Hrun.
  destruct Hrun as (a & rm & u & Ha & Hr & Hu & ->).
  pose proof (Forall_proj1 _ _ _ (added_have_type df_old df_new d _ _ Ha)) as Ta.
  pose proof (Forall_proj1 _ _ _ (removed_have_type df_old d _ _ Hr)) as Tr.
  rewrite Forall_forall in Ta, Tr.
  set (r := field_update_record k col (Scalar v) (Scalar w) d).
  assert (Hty : has_type "Field Update" r) by reflexivity.
  split.
  - intros Hin. apply in_app_or in Hin. destruct Hin as [Hin|Hin].
    { pose proof (has_type_functional _ _ r (Ta r Hin) Hty). discriminate. }
    apply in_app_or in Hin. destruct Hin as [Hin|Hin].
    { pose proof (has_type_functional _ _ r (Tr r Hin) Hty). discriminate. }
    apply (In_updates_iff df_old df_new d u r Hu) in Hin.
    destruct Hin as (k' & c' & v' & w' & Hk & Hc & Ho & Hn & E & Er).
    unfold r, field_update_record, text in Er.
    injection Er as -> -> -> ->. auto.
  - intros (Hk & Hc & Ho & Hn & E).
    apply in_or_app. right. apply in_or_app. right.
    apply (In_updates_iff df_old df_new d u r Hu).
    exists k, col, v, w. auto 10.
Qed.

Lemma type_sections (df_old df_new : DataFrame) (d : string) (log : list Dict) :
  find_changes (Some (WithCIN df_old)) (Some (WithCIN df_new)) d = Return log ->
  map (get "CIN") (filter (type_is "New Incorporation") log)
  = map (fun k => Some (text k)) (new_cins df_old df_new)
  /\ map (get "CIN") (filter (type_is "Deregistered") log)
     = map (fun k => Some (text k)) (gone_cins df_old df_new).
Proof.
  intros Hrun. apply find_changes_inv in Hrun.
  destruct Hrun as (a & rm & u & Ha & Hr & Hu & ->).
  pose proof (Forall_proj1 _ _ _ (added_have_type df_old df_new d _ _ Ha)) as Ta.
  pose proof (Forall_proj1 _ _ _ (removed_have_type df_old d _ _ Hr)) as Tr.
  pose proof (Forall_proj1 _ _ _ (updates_have_type df_old df_new d _ _ Hu)) as Tu.
  rewrite !filter_app. split.
  - rewrite (filter_type_keep _ a Ta).
    rewrite (filter_type_drop "New Incorporation" "Deregistered" rm eq_refl Tr).
    rewrite (filter_type_drop "New Incorporation" "Field Update" u eq_refl Tu).
    rewrite !app_nil_r. now apply (added_keys df_new d).
  - rewrite (filter_type_drop "Deregistered" "New Incorporation" a eq_refl Ta).
    rewrite (filter_type_keep _ rm Tr).
    rewrite (filter_type_drop "Deregistered" "Field Update" u eq_refl Tu).
    rewrite !app_nil_r. now apply (removed_keys df_old d).
Qed.

(** X9. Comparing the snapshots the other way round mirrors the change list:
    the keys reported as New Incorporation are those that were reported as
    Deregistered, in the same order, and conversely; and a field update is
    reported exactly when the opposite update was, with Old_Value and
    New_Value exchanged. *)
Theorem swapped_snapshots_mirror_the_log
    (df_old df_new : DataFrame) (d d' : string) (log log' : list Dict) :
  find_changes (Some (WithCIN df_old)) (Some (WithCIN df_new)) d = Return log ->
  find_changes (Some (WithCIN df_new)) (Some (WithCIN df_old)) d' = Return log' ->
  map (get "CIN") (filter (type_is "New Incorporation") log')
  = map (get "CIN") (filter (type_is "Deregistered") log)
  /\ map (get "CIN") (filter (type_is "Deregistered") log')
     = map (get "CIN") (filter (type_is "New Incorporation") log)
  /\ (forall k col v w,
        In (field_update_record k col (Scalar v) (Scalar w) d) log <->
        In (field_update_record k col (Scalar w) (Scalar v) d') log').
Proof.
  intros Hf Hb.
  destruct (type_sections df_old df_new d log Hf) as [Hn Hg].
  destruct (type_sections df_new df_old d' log' Hb) as [Hn' Hg'].
  split; [|split].
  - rewrite Hn', Hg. reflexivity.
  - rewrite Hg', Hn. reflexivity.
  - intros k col v w.
    rewrite (update_record_in_log df_old df_new d log k col v w Hf).
    rewrite (update_record_in_log df_new df_old d' log' k col w v Hb).
    rewrite (change_after_rounding_sym w v), !common_cins_in_both. tauto.
Qed.

Lemma swapped_snapshots_mirror_the_log_witness :
  map (get "CIN") (filter (type_is "New Incorporation") scenario_back_log)
  = map (get "CIN") (filter (type_is "Deregistered") scenario_log)
  /\ map (get "CIN") (filter (type_is "Deregistered") scenario_back_log)
     = map (get "CIN") (filter (type_is "New Incorporation") scenario_log)
  /\ (forall k col v w,
        In (field_update_record k col (Scalar v) (Scalar w) "Day 2") scenario_log <->
        In (field_update_record k col (Scalar w) (Scalar v) "Back")
           scenario_back_log).
Proof.
  apply (swapped_snapshots_mirror_the_log scenario_old scenario_new "Day 2" "Back").
  - vm_compute. reflexivity.
  - vm_compute. reflexivity.
Defined.

(** ** Row order of an unchanged snapshot *)

Lemma Permutation_filter_rows {A : Type} (p : A -> bool) (l l' : list A) :
  Permutation l l' -> Permutation (filter p l) (filter p l').
Proof.
  induction 1 as [|x l l' _ IH|x y l|l l' l'' _ IH1 _ IH2]; simpl.
  - constructor.
  - destruct (p x); [now constructor | assumption].
  - destruct (p x), (p y); try reflexivity. constructor.
  - now transitivity (filter p l').
Qed.

Lemma loc_permuted (df df' : DataFrame) (k : Key) (c : string) :
  columns df = columns df' -> Permutation (rows df) (rows df') ->
  NoDup (index df) -> In k (index df) ->
  loc df' k c = loc df k c.
Proof.
  intros Hc Hp Hnd Hk. unfold loc. rewrite <- Hc.
  destruct (position c (columns df)) as [j|]; [|reflexivity].
  pose proof (rows_of_length df k) as Hl.
  rewrite (proj1 (NoDup_count_occ' string_dec (index df)) Hnd k Hk) in Hl.
  assert (Hpr : Permutation (rows_of df k) (rows_of df' k)).
  { unfold rows_of. apply Permutation_map. now apply Permutation_filter_rows. }
  destruct (rows_of df k) as [|r [|r' t]]; simpl in Hl; try lia.
  now rewrite (Permutation_length_1_inv Hpr).
Qed.

(** X10. Reordering the rows of a snapshot is not a change: when the new snapshot
    has the rows of the old one in another order (same columns, unique
    keys, watched columns present), the run returns the empty change
    list. *)
Theorem reordered_rows_are_no_change (df_old df_new : DataFrame) (d : string) :
  columns df_old = columns df_new ->
  Permutation (rows df_old) (rows df_new) ->
  NoDup (index df_old) -> watched_columns_present df_old = true ->
  find_changes (Some (WithCIN df_old)) (Some (WithCIN df_new)) d = Return [].
Proof.
  intros Hc Hp Hnd Hw.
  assert (Hi : forall k, In k (index df_old) <-> In k (index df_new)).
  { intros k. unfold index. split; apply Permutation_in;
      [|symmetry]; now apply Permutation_map. }
  rewrite find_changes_frames, compare_frames_sections.
  assert (Hn : new_cins df_old df_new = []).
  { apply nil_of_no_In. intros k Hk. apply new_cins_in_new in Hk.
    rewrite <- Hi in Hk. tauto. }
  assert (Hg : gone_cins df_old df_new = []).
  { apply nil_of_no_In. intros k Hk. apply gone_cins_in_old in Hk.
    rewrite <- Hi in Hk. tauto. }
  rewrite Hn, Hg. cbn [for_each bind].
  rewrite (for_each_nothing _ (watch_key_appends df_old df_new d)); [reflexivity|].
  intros k Hk. apply common_cins_in_both in Hk. destruct Hk as [Hk _].
  unfold watch_key.
  apply (for_each_nothing _ (field_update_appends df_old df_new d k)).
  intros c Hcol. unfold field_update.
  rewrite (loc_permuted df_old df_new k c Hc Hp Hnd Hk).
  destruct (loc_unique df_old k c (watched_columns_each df_old c Hw Hcol) Hnd Hk)
    as [v ->].
  cbn [bind]. now rewrite differs_same.
Qed.

Lemma reordered_rows_are_no_change_witness :
  find_changes (Some (WithCIN shuffled_old))
    (Some (WithCIN (mkFrame scenario_columns (rev (rows shuffled_old))))) "Day 2"
  = Return [].
Proof.
  apply (reordered_rows_are_no_change shuffled_old
           (mkFrame scenario_columns (rev (rows shuffled_old))) "Day 2").
  - reflexivity.
  - apply Permutation_rev.
  - repeat constructor; simpl; intuition discriminate.
  - reflexivity.
Defined.

(** ** The two comparisons in sequence *)

Lemma new_incorporation_in_log (df_old df_new : DataFrame) (d : string)
    (log : list Dict) (k : Key) :
  find_changes (Some (WithCIN df_old)) (Some (WithCIN df_new)) d = Return log ->
  (exists r, In r log /\ has_type "New Incorporation" r /\ has_key k r)
  <-> In k (new_cins df_old df_new).
Proof.
  intros Hrun. apply find_changes_inv in Hrun.
  destruct Hrun as (a & rm & u & Ha & Hr & Hu & ->).
  pose proof (Forall_proj1 _ _ _ (added_have_type df_old df_new d _ _ Ha)) as Ta.
  pose proof (Forall_proj1 _ _ _ (removed_have_type df_old d _ _ Hr)) as Tr.
  pose proof (Forall_proj1 _ _ _ (updates_have_type df_old df_new d _ _ Hu)) as Tu.
  rewrite Forall_forall in Ta, Tr, Tu.
  rewrite (added_keys_iff df_new d _ a k Ha). split.
  - intros (r & Hin & Hty & Hk). exists r. split; [|assumption].
    apply in_app_or in Hin. destruct Hin as [Hin|Hin]; [assumption|].
    apply in_app_or in Hin. destruct Hin as [Hin|Hin].
    + pose proof (has_type_functional _ _ r (Tr r Hin) Hty). discriminate.
    + pose proof (has_type_functional _ _ r (Tu r Hin) Hty). discriminate.
  - intros (r & Hin & Hk). exists r. split; [apply in_or_app; now left|].
    split; [now apply Ta | assumption].
Qed.

Lemma deregistered_in_log (df_old df_new : DataFrame) (d : string)
    (log : list Dict) (k : Key) :
  find_changes (Some (WithCIN df_old)) (Some (WithCIN df_new)) d = Return log ->
  (exists r, In r log /\ has_type "Deregistered" r /\ has_key k r)
  <-> In k (gone_cins df_old df_new).
Proof.
  intros Hrun. apply find_changes_inv in Hrun.
  destruct Hrun as (a & rm & u & Ha & Hr & Hu & ->).
  pose proof (Forall_proj1 _ _ _ (added_have_type df_old df_new d _ _ Ha)) as Ta.
  pose proof (Forall_proj1 _ _ _ (removed_have_type df_old d _ _ Hr)) as Tr.
  pose proof (Forall_proj1 _ _ _ (updates_have_type df_old df_new d _ _ Hu)) as Tu.
  rewrite Forall_forall in Ta, Tr, Tu.
  rewrite (removed_keys_iff df_old d _ rm k Hr). split.
  - intros (r & Hin & Hty & Hk). exists r. split; [|assumption].
    apply in_app_or in Hin. destruct Hin as [Hin|Hin].
    { pose proof (has_type_functional _ _ r (Ta r Hin) Hty). discriminate. }
    apply in_app_or in Hin. destruct Hin as [Hin|Hin]; [assumption|].
    pose proof (has_type_functional _ _ r (Tu r Hin) Hty). discriminate.
  - intros (r & Hin & Hk). exists r.
    split; [apply in_or_app; right; apply in_or_app; now left|].
    split; [now apply Tr | assumption].
Qed.

Lemma run_comparisons_inv (day1 day2 day3 : option Parsed)
    (log2 log3 : list Dict) :
  run_comparisons day1 day2 day3 = Return (log2, log3) ->
  find_changes day1 day2 "Day 2" = Return log2
  /\ find_changes day2 day3 "Day 3" = Return log3.
Proof.
  unfold run_comparisons.
  destruct (find_changes day1 day2 "Day 2") as [l2|]; cbn [bind]; [|discriminate].
  destruct (find_changes day2 day3 "Day 3") as [l3|]; cbn [bind]; [|discriminate].
  intros H. injection H as <- <-. auto.
Qed.

Lemma update_keys_in_log (df_old df_new : DataFrame) (d : string)
    (log : list Dict) (r : Dict) :
  find_changes (Some (WithCIN df_old)) (Some (WithCIN df_new)) d = Return log ->
  In r log -> has_type "Field Update" r ->
  exists k, In k (common_cins df_old df_new) /\ has_key k r.
Proof.
  intros Hrun Hin Hty. apply find_changes_inv in Hrun.
  destruct Hrun as (a & rm & u & Ha & Hr & Hu & ->).
  pose proof (Forall_proj1 _ _ _ (added_have_type df_old df_new d _ _ Ha)) as Ta.
  pose proof (Forall_proj1 _ _ _ (removed_have_type df_old d _ _ Hr)) as Tr.
  rewrite Forall_forall in Ta, Tr.
  apply in_app_or in Hin. destruct Hin as [Hin|Hin].
  { pose proof (has_type_functional _ _ r (Ta r Hin) Hty). discriminate. }
  apply in_app_or in Hin. destruct Hin as [Hin|Hin].
  { pose proof (has_type_functional _ _ r (Tr r Hin) Hty). discriminate. }
  pose proof (updates_keys_common df_old df_new d u Hu) as Hk.
  rewrite Forall_forall in Hk. auto.
Qed.

(** X11. Over the two consecutive comparisons of the script: a key of day 1 and
    day 3 that is missing on day 2 is logged Deregistered on Day 2 and New
    Incorporation on Day 3; no key is logged New Incorporation on both days,
    nor Deregistered on both days; and a key logged Deregistered on Day 2
    has no Field Update record on Day 3. *)
Theorem consecutive_comparisons
    (d1 d2 d3 : DataFrame) (log2 log3 : list Dict) (k : Key) :
  run_comparisons (Some (WithCIN d1)) (Some (WithCIN d2)) (Some (WithCIN d3))
  = Return (log2, log3) ->
  (In k (index d1) -> ~ In k (index d2) -> In k (index d3) ->
     (exists r, In r log2 /\ has_type "Deregistered" r /\ has_key k r)
     /\ (exists r, In r log3 /\ has_type "New Incorporation" r /\ has_key k r))
  /\ ~ ((exists r, In r log2 /\ has_type "New Incorporation" r /\ has_key k r)
        /\ (exists r, In r log3 /\ has_type "New Incorporation" r /\ has_key k r))
  /\ ~ ((exists r, In r log2 /\ has_type "Deregistered" r /\ has_key k r)
        /\ (exists r, In r log3 /\ has_type "Deregistered" r /\ has_key k r))
  /\ ((exists r, In r log2 /\ has_type "Deregistered" r /\ has_key k r) ->
      forall r, In r log3 -> has_type "Field Update" r -> ~ has_key k r).
Proof.
  intros H. apply run_comparisons_inv in H. destruct H as [H2 H3].
  rewrite (new_incorporation_in_log d1 d2 "Day 2" log2 k H2).
  rewrite (new_incorporation_in_log d2 d3 "Day 3" log3 k H3).
  rewrite (deregistered_in_log d1 d2 "Day 2" log2 k H2).
  rewrite (deregistered_in_log d2 d3 "Day 3" log3 k H3).
  rewrite !new_cins_in_new, !gone_cins_in_old.
  split; [tauto|]. split; [tauto|]. split; [tauto|].
  intros [_ Hn2] r Hin Hty Hk.
  destruct (update_keys_in_log d2 d3 "Day 3" log3 r H3 Hin Hty) as (k' & Hc & Hk').
  unfold has_key, text in Hk, Hk'. rewrite Hk in Hk'. injection Hk' as <-.
  apply common_cins_in_both in Hc. tauto.
Qed.

Lemma consecutive_comparisons_witness :
  (exists r, In r scenario_log /\ has_type "Deregistered" r /\ has_key "K1" r)
  /\ (exists r, In r [new_incorporation_record "K1" (text "Alpha") "Day 3";
                      deregistered_record "K3" (text "Gamma") "Day 3"]
                /\ has_type "New Incorporation" r /\ has_key "K1" r).
Proof.
  apply (proj1 (consecutive_comparisons scenario_old scenario_new scenario_day3
                  scenario_log
                  [new_incorporation_record "K1" (text "Alpha") "Day 3";
                   deregistered_record "K3" (text "Gamma") "Day 3"]
                  "K1" eq_refl)).
  - simpl. tauto.
  - simpl. intuition discriminate.
  - simpl. tauto.
Defined.

(** * Task A: the master frame *)

Example integrate_two_states :
  integrate [Some state_one; None; Some state_two] = Return state_master.
Proof. vm_compute. reflexivity. Qed.

(** ** Positions, cells and rows *)

Lemma position_Some (c : string) (h : list string) (j : nat) :
  position c h = Some j -> j < List.length h /\ nth j h "" = c.
Proof.
  revert j. induction h as [|c' t IH]; intros j; simpl; [discriminate|].
  destruct (String.eqb c c') eqn:E.
  - intros H. injection H as <-. apply String.eqb_eq in E. subst.
    split; [lia | reflexivity].
  - destruct (position c t) as [i|]; simpl; [|discriminate].
    intros H. injection H as <-. destruct (IH i eq_refl). split; [lia | assumption].
Qed.

Lemma position_inj (c c' : string) (h : list string) (j : nat) :
  position c h = Some j -> position c' h = Some j -> c = c'.
Proof.
  intros H H'. apply position_Some in H, H'.
  destruct H as [_ <-], H' as [_ <-]. reflexivity.
Qed.

Lemma position_In (c : string) (h : list string) :
  In c h <-> exists j, position c h = Some j.
Proof.
  rewrite <- mem_In. destruct (position c h) as [j|] eqn:E.
  - split; [eauto|]. intros _.
    destruct (mem c h) eqn:M; [reflexivity|].
    apply position_None in M. congruence.
  - apply position_None in E. rewrite E. split; [discriminate|].
    intros [j Hj]. discriminate.
Qed.

Lemma position_nth_NoDup (h : list string) (i : nat) :
  NoDup h -> i < List.length h -> position (nth i h "") h = Some i.
Proof.
  intros Hnd. revert i. induction Hnd as [|c t Hc Ht IH]; intros i Hi; simpl in *.
  - lia.
  - destruct i as [|i].
    + now rewrite String.eqb_refl.
    + assert (Hin : In (nth i t "") t) by (apply nth_In; lia).
      destruct (String.eqb (nth i t "") c) eqn:E.
      * apply String.eqb_eq in E. subst. contradiction.
      * rewrite IH by lia. reflexivity.
Qed.

Lemma nth_update_nth_same (j : nat) (f : Value -> Value) (row : list Value) :
  nth j (update_nth j f row) NaN = f (nth j row NaN).
Proof.
  revert row. induction j as [|j IH]; intros [|x t]; simpl; try reflexivity.
  - rewrite IH. now destruct j.
  - apply IH.
Qed.

Lemma nth_update_nth_other (i j : nat) (f : Value -> Value) (row : list Value) :
  i <> j -> nth i (update_nth j f row) NaN = nth i row NaN.
Proof.
  revert i row. induction j as [|j IH]; intros i [|x t] Hne; simpl.
  - destruct i as [|[|i]]; [lia | reflexivity | reflexivity].
  - destruct i; [lia | reflexivity].
  - destruct i as [|i]; [reflexivity|]. rewrite IH by lia. now destruct i.
  - destruct i as [|i]; [reflexivity|]. apply IH. lia.
Qed.

Lemma length_update_nth (j : nat) (f : Value -> Value) (row : list Value) :
  j < List.length row -> List.length (update_nth j f row) = List.length row.
Proof.
  revert row. induction j as [|j IH]; intros [|x t] H; simpl in *; try lia.
  rewrite IH; lia.
Qed.

Lemma update_nth_id (j : nat) (f : Value -> Value) (row : list Value) :
  j < List.length row -> f (nth j row NaN) = nth j row NaN ->
  update_nth j f row = row.
Proof.
  revert row. induction j as [|j IH]; intros [|x t] H Hf; simpl in *; try lia.
  - now rewrite Hf.
  - rewrite IH; [reflexivity | lia | assumption].
Qed.

Lemma value_in_In (v : Value) (seen : list Value) :
  value_in v seen = true <-> In v seen.
Proof.
  unfold value_in. rewrite existsb_exists. split.
  - intros (x & Hx & E). apply value_eqb_eq in E. now subst.
  - intros H. exists v. split; [assumption | now apply value_eqb_eq].
Qed.

Lemma keep_first_NoDup (j : nat) (seen : list Value) (rws : list (list Value)) :
  NoDup (map (fun row => nth j row NaN) (keep_first j seen rws))
  /\ forall row, In row (keep_first j seen rws) ->
                 In row rws /\ ~ In (nth j row NaN) seen.
Proof.
  revert seen. induction rws as [|r t IH]; intros seen; simpl.
  - split; [constructor | intros row []].
  - destruct (value_in (nth j r NaN) seen) eqn:E.
    + destruct (IH seen) as [H1 H2]. split; [assumption|].
      intros row Hr. destruct (H2 row Hr). auto.
    + destruct (IH (nth j r NaN :: seen)) as [H1 H2]. split.
      * simpl. constructor; [|assumption]. intros Hin.
        apply in_map_iff in Hin. destruct Hin as (row & Heq & Hr).
        destruct (H2 row Hr) as [_ Hn]. apply Hn. left. now symmetry.
      * intros row [<-|Hr].
        -- split; [now left|]. intros Hs. apply value_in_In in Hs. congruence.
        -- destruct (H2 row Hr) as [Hi Hn]. split; [now right|].
           intros Hs. apply Hn. now right.
Qed.

Lemma keep_first_covers (j : nat) (seen : list Value) (rws : list (list Value))
    (row : list Value) :
  In row rws ->
  In (nth j row NaN) seen
  \/ exists row', In row' (keep_first j seen rws)
                  /\ nth j row' NaN = nth j row NaN.
Proof.
  revert seen. induction rws as [|r t IH]; intros seen Hin; [destruct Hin|].
  simpl. destruct (value_in (nth j r NaN) seen) eqn:E.
  - destruct Hin as [->|Hin]; [left; now apply value_in_In | now apply IH].
  - destruct Hin as [->|Hin].
    + right. exists row. split; [now left | reflexivity].
    + destruct (IH (nth j r NaN :: seen) Hin) as [[Hs|Hs]|(row' & Hr & Hn)].
      * right. exists r. split; [now left | assumption].
      * now left.
      * right. exists row'. split; [now right | assumption].
Qed.

Lemma keep_first_first (j : nat) (seen : list Value)
    (l1 l2 : list (list Value)) (r : list Value) :
  (forall r', In r' l1 -> nth j r' NaN <> nth j r NaN) ->
  ~ In (nth j r NaN) seen ->
  In r (keep_first j seen (l1 ++ r :: l2)).
Proof.
  revert seen. induction l1 as [|x t IH]; intros seen H1 Hs; simpl.
  - assert (E : value_in (nth j r NaN) seen = false).
    { destruct (value_in (nth j r NaN) seen) eqn:E; [|reflexivity].
      apply value_in_In in E. contradiction. }
    rewrite E. now left.
  - destruct (value_in (nth j x NaN) seen).
    + apply IH; [|assumption]. intros r' Hr. apply H1. now right.
    + right. apply IH.
      * intros r' Hr. apply H1. now right.
      * intros [E|Hin]; [|contradiction]. apply (H1 x); [now left | assumption].
Qed.

Lemma keep_first_id (j : nat) (seen : list Value) (rws : list (list Value)) :
  NoDup (map (fun row => nth j row NaN) rws) ->
  (forall row, In row rws -> ~ In (nth j row NaN) seen) ->
  keep_first j seen rws = rws.
Proof.
  revert seen. induction rws as [|r t IH]; intros seen Hnd Hs; [reflexivity|].
  simpl in *. inversion Hnd as [|? ? Hr Ht]; subst.
  assert (E : value_in (nth j r NaN) seen = false).
  { destruct (value_in (nth j r NaN) seen) eqn:E; [|reflexivity].
    apply value_in_In in E. destruct (Hs r (or_introl eq_refl) E). }
  rewrite E. f_equal. apply IH; [assumption|].
  intros row Hrow [Heq|Hin].
  - apply Hr. apply in_map_iff. exists row. split; [now symmetry | assumption].
  - apply (Hs row); [now right | assumption].
Qed.

(** ** The stages of Task A *)

Lemma fillna_inv (c : string) (v : Value) (df df' : Table) :
  fillna c v df = Return df' ->
  exists j, position c (header df) = Some j
            /\ df' = mkTable (header df) (map (update_nth j (fill v)) (body df)).
Proof.
  unfold fillna. destruct (position c (header df)) as [j|]; [|discriminate].
  intros H. injection H as <-. eauto.
Qed.

Lemma integrate_inv (files : list (option Table)) (master : Table) :
  integrate files = Return master ->
  exists merged j ja jp js,
    concat (read_all files) = Return merged
    /\ position "CIN" (header merged) = Some j
    /\ position "AuthorizedCapital" (header merged) = Some ja
    /\ position "PaidupCapital" (header merged) = Some jp
    /\ position "CompanyStatus" (header merged) = Some js
    /\ master = mkTable (header merged)
                  (map (clean_row ja jp js) (keep_first j [] (body merged))).
Proof.
  unfold integrate.
  destruct (concat (read_all files)) as [merged|] eqn:Ec; cbn [bind]; [|discriminate].
  unfold drop_duplicates.
  destruct (position "CIN" (header merged)) as [j|] eqn:Ej; cbn [bind];
    [|discriminate].
  destruct (fillna "AuthorizedCapital" (Num 0) _) as [t1|] eqn:E1; cbn [bind];
    [|discriminate].
  destruct (fillna "PaidupCapital" (Num 0) t1) as [t2|] eqn:E2; cbn [bind];
    [|discriminate].
  intros E3.
  apply fillna_inv in E1, E2, E3.
  destruct E1 as (ja & Ha & ->). cbn [header body] in *.
  destruct E2 as (jp & Hp & ->). cbn [header body] in *.
  destruct E3 as (js & Hs & ->).
  exists merged, j, ja, jp, js. repeat split; try assumption.
  f_equal. rewrite !map_map. reflexivity.
Qed.

Lemma cell_clean_row (h : list string) (b b' : list (list Value))
    (ja jp js : nat) (row : list Value) (c : string) :
  position "AuthorizedCapital" h = Some ja ->
  position "PaidupCapital" h = Some jp ->
  position "CompanyStatus" h = Some js ->
  cell (mkTable h b) (clean_row ja jp js row) c
  = fill_for c (cell (mkTable h b') row c).
Proof.
  intros Ha Hp Hs. unfold cell, clean_row, fill_for, filled_columns. cbn [header find fst].
  destruct (String.eqb "AuthorizedCapital" c) eqn:E1.
  { apply String.eqb_eq in E1. subst c. rewrite Ha.
    rewrite nth_update_nth_other, nth_update_nth_other, nth_update_nth_same;
      [reflexivity | |];
      intros ->; [pose proof (position_inj _ _ _ _ Ha Hp)
                 | pose proof (position_inj _ _ _ _ Ha Hs)]; discriminate. }
  destruct (String.eqb "PaidupCapital" c) eqn:E2.
  { apply String.eqb_eq in E2. subst c. rewrite Hp.
    rewrite nth_update_nth_other, nth_update_nth_same, nth_update_nth_other;
      [reflexivity | |];
      intros ->; [pose proof (position_inj _ _ _ _ Ha Hp)
                 | pose proof (position_inj _ _ _ _ Hp Hs)]; discriminate. }
  destruct (String.eqb "CompanyStatus" c) eqn:E3.
  { apply String.eqb_eq in E3. subst c. rewrite Hs.
    rewrite nth_update_nth_same, nth_update_nth_other, nth_update_nth_other;
      [reflexivity | |];
      intros ->; [pose proof (position_inj _ _ _ _ Ha Hs)
                 | pose proof (position_inj _ _ _ _ Hp Hs)]; discriminate. }
  apply String.eqb_neq in E1, E2, E3.
  destruct (position c h) as [i|] eqn:Ei; [|reflexivity].
  rewrite !nth_update_nth_other; [reflexivity | | |]; intros ->.
  - apply E1. eapply position_inj; eauto.
  - apply E2. eapply position_inj; eauto.
  - apply E3. eapply position_inj; eauto.
Qed.

Lemma length_clean_row (ja jp js : nat) (row : list Value) :
  ja < List.length row -> jp < List.length row -> js < List.length row ->
  List.length (clean_row ja jp js row) = List.length row.
Proof.
  intros Ha Hp Hs. unfold clean_row.
  pose proof (length_update_nth ja (fill (Num 0)) row Ha) as L1.
  assert (L2 : List.length (update_nth jp (fill (Num 0))
                              (update_nth ja (fill (Num 0)) row))
               = List.length row)
    by (rewrite length_update_nth; lia).
  rewrite length_update_nth; lia.
Qed.

Lemma concat_inv (dfs : list Table) (merged : Table) :
  concat dfs = Return merged ->
  dfs <> []
  /\ header merged = unique (flat_map header dfs)
  /\ body merged
     = flat_map (fun df => map (fun row => map (cell df row) (header merged)) (body df))
         dfs.
Proof.
  unfold concat. destruct dfs as [|df t]; [discriminate|].
  intros H. injection H as <-. repeat split. discriminate.
Qed.

Lemma nth_map_position (f : string -> Value) (cols : list string)
    (c : string) (j : nat) :
  position c cols = Some j -> nth j (map f cols) NaN = f c.
Proof.
  intros H. apply position_Some in H. destruct H as [Hlt <-].
  rewrite (nth_indep _ NaN (f "")) by (now rewrite length_map).
  apply map_nth.
Qed.

Lemma isna_fill (v x : Value) : isna v = false -> isna (fill v x) = false.
Proof. unfold fill. intros H. destruct (isna x) eqn:E; assumption. Qed.

(** ** Properties of the master frame *)

(** X12. In the master frame no two rows have the same CIN. *)
Theorem master_has_unique_cin (files : list (option Table)) (master : Table) :
  integrate files = Return master ->
  NoDup (map (fun row => cell master row "CIN") (body master)).
Proof.
  intros H. apply integrate_inv in H.
  destruct H as (merged & j & ja & jp & js & _ & Hj & Ha & Hp & Hs & ->).
  cbn [body]. rewrite map_map.
  erewrite map_ext.
  - apply (proj1 (keep_first_NoDup j [] (body merged))).
  - intros row. cbv beta.
    rewrite (cell_clean_row _ _ (body merged) ja jp js row "CIN" Ha Hp Hs).
    unfold cell. cbn [header]. rewrite Hj. reflexivity.
Qed.

Lemma master_has_unique_cin_witness :
  NoDup (map (fun row => cell state_master row "CIN") (body state_master)).
Proof.
  apply (master_has_unique_cin [Some state_one; None; Some state_two]).
  vm_compute. reflexivity.
Defined.

(** X13. In the master frame the columns AuthorizedCapital, PaidupCapital and
    CompanyStatus hold no null. *)
Theorem master_has_no_null (files : list (option Table)) (master : Table)
    (row : list Value) (c : string) :
  integrate files = Return master ->
  In row (body master) -> In c (map fst filled_columns) ->
  isna (cell master row c) = false.
Proof.
  intros H Hrow Hc. apply integrate_inv in H.
  destruct H as (merged & j & ja & jp & js & _ & Hj & Ha & Hp & Hs & ->).
  cbn [body] in Hrow. apply in_map_iff in Hrow. destruct Hrow as (r & <- & _).
  rewrite (cell_clean_row _ _ (body merged) ja jp js r c Ha Hp Hs).
  simpl in Hc. destruct Hc as [<-|[<-|[<-|[]]]]; unfold fill_for; simpl;
    now apply isna_fill.
Qed.

Lemma master_has_no_null_witness :
  isna (cell state_master [Str "K2"; Str "Beta"; Str "Unknown"; Num 200; Num 20]
          "CompanyStatus") = false.
Proof.
  apply (master_has_no_null [Some state_one; None; Some state_two] state_master).
  - vm_compute. reflexivity.
  - simpl. tauto.
  - simpl. tauto.
Defined.

Lemma cell_merged_row (df : Table) (row : list Value) (cols : list string)
    (b : list (list Value)) (c : string) :
  In c cols ->
  cell (mkTable cols b) (map (cell df row) cols) c = cell df row c.
Proof.
  intros Hc. apply position_In in Hc. destruct Hc as [j Hj].
  unfold cell at 1. cbn [header]. rewrite Hj. now apply nth_map_position.
Qed.

(** X14. No company with a textual CIN is lost: every row of every file
    that could be read, whose CIN cell is a text, has a row with that CIN in
    the master frame. *)
Theorem master_keeps_every_cin
    (files : list (option Table)) (master df : Table) (row : list Value)
    (cin : string) :
  integrate files = Return master ->
  In df (read_all files) -> In row (body df) ->
  cell df row "CIN" = Str cin ->
  exists mrow, In mrow (body master) /\ cell master mrow "CIN" = Str cin.
Proof.
  intros H Hdf Hrow Htext. apply integrate_inv in H.
  destruct H as (merged & j & ja & jp & js & Hc & Hj & Ha & Hp & Hs & ->).
  apply concat_inv in Hc. destruct Hc as (_ & Hh & Hb).
  set (row' := map (cell df row) (header merged)).
  assert (Hin : In row' (body merged)).
  { rewrite Hb. apply in_flat_map. exists df. split; [assumption|].
    apply in_map_iff. exists row. auto. }
  assert (Hcin : nth j row' NaN = cell df row "CIN")
    by (now apply nth_map_position).
  destruct (keep_first_covers j [] (body merged) row' Hin) as [[]|(r & Hr & Hn)].
  exists (clean_row ja jp js r). split.
  - cbn [body]. apply in_map_iff. eauto.
  - rewrite (cell_clean_row _ _ (body merged) ja jp js r "CIN" Ha Hp Hs).
    unfold cell at 1. cbn [header]. rewrite Hj.
    change (fill_for "CIN" (nth j r NaN)) with (nth j r NaN).
    rewrite Hn, Hcin. exact Htext.
Qed.

Lemma master_keeps_every_cin_witness :
  exists mrow, In mrow (body state_master)
    /\ cell state_master mrow "CIN" = Str "K2".
Proof.
  apply (master_keeps_every_cin [Some state_one; None; Some state_two]
           state_master state_two
           [Str "K2"; Str "Beta bis"; Str "Dormant"; NaN; NaN]).
  - vm_compute. reflexivity.
  - simpl. tauto.
  - simpl. tauto.
  - reflexivity.
Defined.

(** X15. The first row wins: a row of the concatenated frame that no earlier row
    shares its CIN with is in the master frame, with its own cells, nulls of
    the three cleaned columns filled (0 for the capitals, "Unknown" for the
    status). *)
Theorem master_keeps_first_row
    (files : list (option Table)) (merged master : Table)
    (l1 l2 : list (list Value)) (r : list Value) :
  concat (read_all files) = Return merged ->
  integrate files = Return master ->
  body merged = l1 ++ r :: l2 ->
  (forall r', In r' l1 -> cell merged r' "CIN" <> cell merged r "CIN") ->
  exists mrow, In mrow (body master)
               /\ forall c, cell master mrow c = fill_for c (cell merged r c).
Proof.
  intros Hm H Hb Hfirst. apply integrate_inv in H.
  destruct H as (merged' & j & ja & jp & js & Hc & Hj & Ha & Hp & Hs & ->).
  rewrite Hm in Hc. injection Hc as <-.
  exists (clean_row ja jp js r). split.
  - cbn [body]. apply in_map. rewrite Hb. apply keep_first_first; [|intros []].
    intros r' Hr'. specialize (Hfirst r' Hr'). unfold cell in Hfirst.
    now rewrite Hj in Hfirst.
  - intros c. rewrite (cell_clean_row _ _ (body merged) ja jp js r c Ha Hp Hs).
    reflexivity.
Qed.

Lemma master_keeps_first_row_witness :
  exists mrow, In mrow (body state_master)
    /\ forall c, cell state_master mrow c
         = fill_for c (cell (mkTable state_columns (body state_one ++ body state_two))
                         [Str "K2"; Str "Beta"; NaN; Num 200; Num 20] c).
Proof.
  apply (master_keeps_first_row [Some state_one; None; Some state_two]
           (mkTable state_columns (body state_one ++ body state_two)) state_master
           [[Str "K1"; Str "Alpha"; Str "Active"; Num 100; NaN]]
           [[Str "K2"; Str "Beta bis"; Str "Dormant"; NaN; NaN];
            [Str "K3"; Str "Gamma"; Str "Active"; NaN; Num 30]]).
  - vm_compute. reflexivity.
  - vm_compute. reflexivity.
  - reflexivity.
  - intros r' [<-|[]]. vm_compute. discriminate.
Defined.

Lemma mem_unique (c : string) (l : list string) : mem c (unique l) = mem c l.
Proof.
  destruct (mem c l) eqn:E.
  - apply (proj2 (mem_In c (unique l))), (proj2 (In_unique l c)),
      (proj1 (mem_In c l)). exact E.
  - apply mem_not_In. intros H. apply (proj1 (In_unique l c)) in H.
    apply (proj2 (mem_In c l)) in H. congruence.
Qed.

Lemma position_unique_cases (c : string) (l : list string) :
  (mem c l = true /\ exists j, position c (unique l) = Some j)
  \/ (mem c l = false /\ position c (unique l) = None).
Proof.
  destruct (mem c l) eqn:E.
  - left. split; [reflexivity|]. apply position_In, In_unique, mem_In. exact E.
  - right. split; [reflexivity|]. apply position_None. now rewrite mem_unique.
Qed.

(** X16. Task A fails with a ValueError when no file could be read, with a
    KeyError when one of the columns CIN, AuthorizedCapital, PaidupCapital,
    CompanyStatus is in none of the files read, and produces a master frame
    otherwise. *)
Theorem integrate_outcome (files : list (option Table)) :
  (read_all files = [] -> integrate files = Raise ValueError)
  /\ (read_all files <> [] -> missing_needed (read_all files) = true ->
      integrate files = Raise KeyError)
  /\ (read_all files <> [] -> missing_needed (read_all files) = false ->
      exists master, integrate files = Return master).
Proof.
  unfold integrate. destruct (read_all files) as [|df t] eqn:E.
  - split; [reflexivity|]. split; intros H; now destruct H.
  - split; [discriminate|].
    unfold concat, drop_duplicates, fillna, missing_needed, needed_columns.
    cbn [bind header existsb].
    set (L := flat_map header (df :: t)).
    destruct (position_unique_cases "CIN" L) as [[-> [j ->]]|[-> ->]];
      cbn [bind header negb orb]; [|split; [reflexivity | discriminate]].
    destruct (position_unique_cases "AuthorizedCapital" L) as [[-> [ja ->]]|[-> ->]];
      cbn [bind header negb orb]; [|split; [reflexivity | discriminate]].
    destruct (position_unique_cases "PaidupCapital" L) as [[-> [jp ->]]|[-> ->]];
      cbn [bind header negb orb]; [|split; [reflexivity | discriminate]].
    destruct (position_unique_cases "CompanyStatus" L) as [[-> [js ->]]|[-> ->]];
      cbn [bind header negb orb]; [|split; [reflexivity | discriminate]].
    split; [discriminate | eauto].
Qed.

Lemma integrate_outcome_witness :
  integrate [None; None; None; None; None] = Raise ValueError.
Proof.
  apply (proj1 (integrate_outcome [None; None; None; None; None])).
  reflexivity.
Defined.

(** ** Cleaning a clean frame *)

Lemma map_cell_id (h : list string) (b : list (list Value)) (row : list Value) :
  NoDup h -> List.length row = List.length h ->
  map (cell (mkTable h b) row) h = row.
Proof.
  intros Hnd Hl. apply (nth_ext _ _ NaN NaN); [now rewrite length_map|].
  intros i Hi. rewrite length_map in Hi.
  rewrite (nth_indep _ NaN (cell (mkTable h b) row "")) by (now rewrite length_map).
  rewrite map_nth. unfold cell. cbn [header].
  now rewrite (position_nth_NoDup h i Hnd Hi).
Qed.

Lemma fill_rows_id (j : nat) (v : Value) (rws : list (list Value)) :
  (forall row, In row rws -> j < List.length row /\ isna (nth j row NaN) = false) ->
  map (update_nth j (fill v)) rws = rws.
Proof.
  intros H. rewrite <- (map_id rws) at 2. apply map_ext_in.
  intros row Hrow. destruct (H row Hrow) as [Hl Hn].
  apply update_nth_id; [assumption|]. unfold fill. now rewrite Hn.
Qed.

Lemma integrate_clean_frame (h : list string) (rws : list (list Value))
    (j ja jp js : nat) :
  NoDup h ->
  position "CIN" h = Some j ->
  position "AuthorizedCapital" h = Some ja ->
  position "PaidupCapital" h = Some jp ->
  position "CompanyStatus" h = Some js ->
  (forall row, In row rws -> List.length row = List.length h) ->
  NoDup (map (fun row => nth j row NaN) rws) ->
  (forall row, In row rws ->
     isna (nth ja row NaN) = false /\ isna (nth jp row NaN) = false
     /\ isna (nth js row NaN) = false) ->
  integrate [Some (mkTable h rws)] = Return (mkTable h rws).
Proof.
  intros Hnd Hj Ha Hp Hs Hlen Hcin Hfull.
  unfold integrate, read_all, concat. cbn [flat_map app header body].
  rewrite !app_nil_r, (unique_NoDup h Hnd).
  assert (E : map (fun row => map (cell (mkTable h rws) row) h) rws = rws).
  { rewrite <- (map_id rws) at 2. apply map_ext_in. intros row Hrow.
    apply map_cell_id; auto. }
  rewrite E. cbn [bind]. unfold drop_duplicates. cbn [header body]. rewrite Hj.
  rewrite (keep_first_id j [] rws Hcin) by (intros row _ []).
  cbn [bind]. unfold fillna. cbn [header body]. rewrite Ha. cbn [bind header body].
  pose proof (proj1 (position_Some _ _ _ Ha)) as La.
  pose proof (proj1 (position_Some _ _ _ Hp)) as Lp.
  pose proof (proj1 (position_Some _ _ _ Hs)) as Ls.
  rewrite (fill_rows_id ja (Num 0) rws).
  2:{ intros row Hrow. rewrite (Hlen row Hrow). split; [assumption|].
      apply (Hfull row Hrow). }
  rewrite Hp. cbn [bind header body].
  rewrite (fill_rows_id jp (Num 0) rws).
  2:{ intros row Hrow. rewrite (Hlen row Hrow). split; [assumption|].
      apply (Hfull row Hrow). }
  rewrite Hs.
  rewrite (fill_rows_id js (Str "Unknown") rws); [reflexivity|].
  intros row Hrow. rewrite (Hlen row Hrow). split; [assumption|].
  apply (Hfull row Hrow).
Qed.

Lemma merged_rows_length (dfs : list Table) (merged : Table) (row : list Value) :
  concat dfs = Return merged -> In row (body merged) ->
  List.length row = List.length (header merged).
Proof.
  intros H Hrow. apply concat_inv in H. destruct H as (_ & _ & Hb).
  rewrite Hb in Hrow. apply in_flat_map in Hrow. destruct Hrow as (df & _ & Hr).
  apply in_map_iff in Hr. destruct Hr as (r & <- & _). apply length_map.
Qed.

(** X17. Cleaning is idempotent: running Task A on the master frame alone gives
    the master frame back. *)
Theorem cleaning_is_idempotent (files : list (option Table)) (master : Table) :
  integrate files = Return master ->
  integrate [Some master] = Return master.
Proof.
  intros H. apply integrate_inv in H.
  destruct H as (merged & j & ja & jp & js & Hc & Hj & Ha & Hp & Hs & ->).
  pose proof (proj1 (position_Some _ _ _ Ha)) as La.
  pose proof (proj1 (position_Some _ _ _ Hp)) as Lp.
  pose proof (proj1 (position_Some _ _ _ Hs)) as Ls.
  assert (Hkept : forall r, In r (keep_first j [] (body merged)) ->
                    List.length r = List.length (header merged)).
  { intros r Hr. apply (merged_rows_length _ _ _ Hc).
    apply (proj2 (keep_first_NoDup j [] (body merged)) r Hr). }
  assert (Hcell : forall r c,
            nth_cell_of (header merged) c (clean_row ja jp js r)
            = fill_for c (nth_cell_of (header merged) c r)).
  { intros r c.
    apply (cell_clean_row (header merged) [] [] ja jp js r c Ha Hp Hs). }
  apply (integrate_clean_frame _ _ j ja jp js); try assumption.
  - apply concat_inv in Hc. destruct Hc as (_ & -> & _). apply NoDup_unique.
  - intros row Hrow. apply in_map_iff in Hrow. destruct Hrow as (r & <- & Hr).
    rewrite length_clean_row; rewrite (Hkept r Hr); auto.
  - rewrite map_map. erewrite map_ext.
    + apply (proj1 (keep_first_NoDup j [] (body merged))).
    + intros r. cbv beta. pose proof (Hcell r "CIN") as E.
      unfold nth_cell_of in E. rewrite Hj in E. exact E.
  - intros row Hrow. apply in_map_iff in Hrow. destruct Hrow as (r & <- & Hr).
    pose proof (Hcell r "AuthorizedCapital") as E1.
    pose proof (Hcell r "PaidupCapital") as E2.
    pose proof (Hcell r "CompanyStatus") as E3.
    unfold nth_cell_of in E1, E2, E3. rewrite Ha in E1. rewrite Hp in E2.
    rewrite Hs in E3. rewrite E1, E2, E3.
    repeat split; now apply isna_fill.
Qed.

Lemma cleaning_is_idempotent_witness :
  integrate [Some state_master] = Return state_master.
Proof.
  apply (cleaning_is_idempotent [Some state_one; None; Some state_two]).
  vm_compute. reflexivity.
Defined.

(** * Task C: the enrichment loop *)

Lemma unique_values_from_spec (seen l : list Value) :
  NoDup (unique_values_from seen l)
  /\ forall v, In v (unique_values_from seen l) <-> In v l /\ ~ In v seen.
Proof.
  revert seen. induction l as [|x t IH]; intros seen; simpl.
  - split; [constructor | intros v; tauto].
  - destruct (value_in x seen) eqn:E.
    + apply value_in_In in E. destruct (IH seen) as [H1 H2]. split; [assumption|].
      intros v. rewrite H2. split; [tauto|].
      intros [[<-|Hin] Hn]; [contradiction | tauto].
    + assert (Hx : ~ In x seen).
      { intros H. apply value_in_In in H. congruence. }
      destruct (IH (x :: seen)) as [H1 H2]. split.
      * constructor; [|assumption]. rewrite H2. simpl. tauto.
      * intros v. simpl. rewrite H2. simpl. split.
        -- intros [<-|[Hin Hn]]; tauto.
        -- intros [[<-|Hin] Hn]; [tauto|].
           destruct (value_in v [x]) eqn:Ev.
           ++ apply value_in_In in Ev. destruct Ev as [->|[]]. tauto.
           ++ right. split; [assumption|]. intros [->|Hs]; [|contradiction].
              assert (In v [v]) by now left.
              apply value_in_In in H. congruence.
Qed.

Lemma In_firstn {A : Type} (n : nat) (l : list A) (x : A) :
  In x (firstn n l) -> In x l.
Proof.
  revert n. induction l as [|y t IH]; intros [|n]; simpl; try tauto.
  intros [->|H]; [now left | right; eauto].
Qed.

Lemma NoDup_firstn {A : Type} (n : nat) (l : list A) :
  NoDup l -> NoDup (firstn n l).
Proof.
  intros H. revert n. induction H as [|x t Hx Ht IH]; intros [|n]; simpl;
    try constructor.
  - intros Hin. apply Hx. eapply In_firstn; eauto.
  - apply IH.
Qed.

Lemma NoDup_map_injective {A B : Type} (f : A -> B) (l : list A) :
  (forall a b, f a = f b -> a = b) -> NoDup l -> NoDup (map f l).
Proof.
  intros Hf. induction 1 as [|x t Hx Ht IH]; simpl; constructor; [|assumption].
  intros Hin. apply in_map_iff in Hin. destruct Hin as (y & Hy & Hin).
  apply Hf in Hy. subst. contradiction.
Qed.

Lemma cins_to_enrich_spec (read_json_column : list Value -> list Value)
    (log : list Dict) (cins : list Value) :
  cins_to_enrich read_json_column log = Return cins ->
  List.length cins <= 25 /\ NoDup cins
  /\ forall v, In v cins -> In v (read_json_column (column_values "CIN" log)).
Proof.
  unfold cins_to_enrich. destruct (mem "CIN" (log_columns log)); [|discriminate].
  intros H.
  assert (E : firstn 25 (unique_values (read_json_column (column_values "CIN" log)))
              = cins)
    by congruence.
  rewrite <- E. clear H E.
  destruct (unique_values_from_spec [] (read_json_column (column_values "CIN" log)))
    as [Hnd Hin].
  split; [apply firstn_le_length|]. split; [now apply NoDup_firstn|].
  intros v Hv. apply In_firstn in Hv. apply Hin in Hv. tauto.
Qed.

Lemma enriched_items (fetch : Value -> option Scraped) (cins : list Value)
    (r : Dict) :
  In r (flat_map (fun cin => match enrich_company_data fetch cin with
                             | Some (item :: data) => [item :: data]
                             | _ => []
                             end) cins) ->
  exists cin page, In cin cins /\ fetch cin = Some page
                   /\ enrich_company_data fetch cin = Some r.
Proof.
  intros H. apply in_flat_map in H. destruct H as (cin & Hc & Hr).
  unfold enrich_company_data in *.
  destruct (fetch cin) as [page|] eqn:E; [|destruct Hr].
  destruct Hr as [<-|[]]. exists cin, page. repeat split; auto.
  now rewrite E.
Qed.

Lemma enriched_cins (fetch : Value -> option Scraped) (cins : list Value) :
  map (get "CIN")
    (flat_map (fun cin => match enrich_company_data fetch cin with
                          | Some (item :: data) => [item :: data]
                          | _ => []
                          end) cins)
  = map (fun cin => Some (Scalar cin))
      (filter (fun cin => match fetch cin with Some _ => true | None => false end) cins).
Proof.
  induction cins as [|cin t IH]; [reflexivity|].
  simpl. unfold enrich_company_data at 1.
  destruct (fetch cin); simpl; now rewrite IH.
Qed.

(** X18. The enrichment loop sends at most 25 requests, never two for the
    same CIN, each for a value of the CIN column of the change log as
    [pd.read_json] hands it back; the rows it collects are at most 25, carry
    pairwise different CINs, and each is the row built for a requested CIN
    whose page could be read, stored under that CIN. *)
Theorem enrichment_is_bounded_and_distinct
    (read_json_column : list Value -> list Value)
    (fetch : Value -> option Scraped) (log results : list Dict) :
  run_enrichment read_json_column fetch log = Return results ->
  (exists cins,
     cins_to_enrich read_json_column log = Return cins
     /\ List.length cins <= 25 /\ NoDup cins
     /\ (forall cin, In cin cins ->
           In cin (read_json_column (column_values "CIN" log)))
     /\ forall r, In r results ->
          exists cin page,
            In cin cins /\ fetch cin = Some page
            /\ enrich_company_data fetch cin = Some r
            /\ get "CIN" r = Some (Scalar cin))
  /\ List.length results <= 25
  /\ NoDup (map (get "CIN") results).
Proof.
  unfold run_enrichment.
  destruct (cins_to_enrich read_json_column log) as [cins|] eqn:E; cbn [bind];
    [|discriminate].
  intros H.
  assert (Er : flat_map (fun cin => match enrich_company_data fetch cin with
                                    | Some (item :: data) => [item :: data]
                                    | _ => []
                                    end) cins = results) by congruence.
  clear H. subst results.
  destruct (cins_to_enrich_spec read_json_column log cins E) as (Hlen & Hnd & Hin).
  split; [|split].
  - exists cins. repeat split; try assumption.
    intros r Hr. apply enriched_items in Hr.
    destruct Hr as (cin & page & Hc & Hf & He). exists cin, page.
    repeat split; auto.
    unfold enrich_company_data in He. rewrite Hf in He.
    assert (Hget : get "CIN"
              [("CIN", Scalar cin);
               ("Scraped_Directors",
                  text (match director_names page with
                        | [] => "Not Found"
                        | _ :: _ => String.concat ", " (director_names page)
                        end));
               ("Scraped_Email", text (email page));
               ("Scraped_Website", text (website page))] = Some (Scalar cin))
      by reflexivity.
    congruence.
  - rewrite <- (length_map (get "CIN")), enriched_cins, length_map.
    etransitivity; [apply filter_length_le | assumption].
  - rewrite enriched_cins. apply NoDup_map_injective.
    + intros a b Hab. now injection Hab.
    + now apply NoDup_filter.
Qed.

Example enrichment_of_scenario :
  run_enrichment as_written sample_fetch scenario_log = Return sample_enriched.
Proof. vm_compute. reflexivity. Qed.

Lemma enrichment_is_bounded_and_distinct_witness :
  (exists cins,
     cins_to_enrich as_written scenario_log = Return cins
     /\ List.length cins <= 25 /\ NoDup cins
     /\ (forall cin, In cin cins ->
           In cin (as_written (column_values "CIN" scenario_log)))
     /\ forall r, In r sample_enriched ->
          exists cin page,
            In cin cins /\ sample_fetch cin = Some page
            /\ enrich_company_data sample_fetch cin = Some r
            /\ get "CIN" r = Some (Scalar cin))
  /\ List.length sample_enriched <= 25
  /\ NoDup (map (get "CIN") sample_enriched).
Proof.
  apply (enrichment_is_bounded_and_distinct as_written sample_fetch scenario_log).
  vm_compute. reflexivity.
Defined.

Lemma Forall2_In_right {A B : Type} (R : A -> B -> Prop) (l : list A)
    (l' : list B) (y : B) :
  Forall2 R l l' -> In y l' -> exists x, In x l /\ R x y.
Proof.
  induction 1 as [|x y' l l' Hr _ IH]; intros Hin; [destruct Hin|].
  destruct Hin as [->|Hin].
  - exists x. split; [now left | assumption].
  - destruct (IH Hin) as (x' & Hx & Hy). exists x'. split; [now right | assumption].
Qed.

Lemma log_keys_in_snapshots (df_old df_new : DataFrame) (d : string)
    (log : list Dict) (r : Dict) :
  find_changes (Some (WithCIN df_old)) (Some (WithCIN df_new)) d = Return log ->
  In r log ->
  exists k, has_key k r /\ (In k (index df_old) \/ In k (index df_new)).
Proof.
  intros Hrun Hin. apply find_changes_inv in Hrun.
  destruct Hrun as (a & rm & u & Ha & Hr & Hu & ->).
  apply in_app_or in Hin. destruct Hin as [Hin|Hin].
  - destruct (Forall2_In_right _ _ _ r (added_section df_new d _ a Ha) Hin)
      as (k & Hk & name & _ & ->).
    apply new_cins_in_new in Hk. exists k. split; [reflexivity | tauto].
  - apply in_app_or in Hin. destruct Hin as [Hin|Hin].
    + destruct (Forall2_In_right _ _ _ r (removed_section df_old d _ rm Hr) Hin)
        as (k & Hk & name & _ & ->).
      apply gone_cins_in_old in Hk. exists k. split; [reflexivity | tauto].
    + pose proof (updates_keys_common df_old df_new d u Hu) as HF.
      rewrite Forall_forall in HF. destruct (HF r Hin) as (k & Hk & Hkey).
      apply common_cins_in_both in Hk. exists k. tauto.
Qed.

Lemma log_has_cin_column (df_old df_new : DataFrame) (d : string)
    (log : list Dict) :
  find_changes (Some (WithCIN df_old)) (Some (WithCIN df_new)) d = Return log ->
  log <> [] -> mem "CIN" (log_columns log) = true.
Proof.
  intros Hrun Hne. apply find_changes_inv in Hrun.
  destruct Hrun as (a & rm & u & Ha & Hr & Hu & ->).
  assert (Hk : Forall (fun r => keys r = record_keys) (a ++ rm ++ u)).
  { rewrite !Forall_app. repeat split; eapply Forall_proj2;
      eauto using added_have_type, removed_have_type, updates_have_type. }
  apply mem_In. unfold log_columns. apply In_unique.
  destruct (a ++ rm ++ u) as [|r t]; [contradiction|].
  simpl. apply in_or_app. left. inversion Hk as [|? ? Hr0 _]; subst.
  rewrite Hr0. unfold record_keys. simpl. tauto.
Qed.

(** X19. Enrichment after a run: on the empty change list the selection of
    CINs raises a KeyError and nothing is enriched; on a non-empty change
    list the loop returns; and when [pd.read_json] hands the CIN column back
    as it was written, every row that the loop collects is about a company
    of the old or of the new snapshot. *)
Theorem enrichment_of_a_run
    (read_json_column : list Value -> list Value)
    (fetch : Value -> option Scraped) (df_old df_new : DataFrame) (d : string)
    (log : list Dict) :
  find_changes (Some (WithCIN df_old)) (Some (WithCIN df_new)) d = Return log ->
  (log = [] -> run_enrichment read_json_column fetch log = Raise KeyError)
  /\ (log <> [] ->
      exists results,
        run_enrichment read_json_column fetch log = Return results
        /\ (read_json_column (column_values "CIN" log) = column_values "CIN" log ->
            forall r, In r results ->
              exists k, get "CIN" r = Some (text k)
                        /\ (In k (index df_old) \/ In k (index df_new)))).
Proof.
  intros Hrun. split.
  - intros ->. reflexivity.
  - intros Hne. unfold run_enrichment, cins_to_enrich.
    rewrite (log_has_cin_column df_old df_new d log Hrun Hne). cbn [bind].
    eexists. split; [reflexivity|].
    intros Hback r Hr. rewrite Hback in Hr. apply enriched_items in Hr.
    destruct Hr as (cin & page & Hc & Hf & He).
    apply In_firstn in Hc.
    apply (proj2 (unique_values_from_spec [] _)) in Hc. destruct Hc as [Hc _].
    unfold column_values in Hc. apply in_map_iff in Hc.
    destruct Hc as (rec & Hv & Hrec).
    destruct (log_keys_in_snapshots df_old df_new d log rec Hrun Hrec)
      as (k & Hk & Hin).
    unfold has_key, text in Hk. rewrite Hk in Hv. subst cin.
    exists k. split; [|assumption].
    unfold enrich_company_data in He. rewrite Hf in He. injection He as <-.
    reflexivity.
Qed.

Lemma enrichment_of_a_run_witness :
  exists results,
    run_enrichment as_written sample_fetch scenario_log = Return results
    /\ forall r, In r results ->
         exists k, get "CIN" r = Some (text k)
                   /\ (In k (index scenario_old) \/ In k (index scenario_new)).
Proof.
  destruct (proj2 (enrichment_of_a_run as_written sample_fetch scenario_old
                     scenario_new "Day 2" scenario_log eq_refl))
    as (results & Hrun & Hall).
  - discriminate.
  - exists results. split; [assumption|]. apply Hall. reflexivity.
Defined.

(** * Columns that a run reads *)

Lemma for_each_ext {X : Type} (body body' : X -> list Dict -> result (list Dict))
    (xs : list X) (acc : list Dict) :
  (forall x a, In x xs -> body x a = body' x a) ->
  for_each xs body acc = for_each xs body' acc.
Proof.
  revert acc. induction xs as [|x t IH]; intros acc H; [reflexivity|].
  simpl. rewrite (H x acc (or_introl eq_refl)).
  destruct (body' x acc) as [acc'|e]; cbn [bind]; [|reflexivity].
  apply IH. intros y a Hy. apply H. now right.
Qed.

(** X20. A run reads nothing but the keys, the CompanyName column and the
    three watched columns: two pairs of snapshots with the same keys in the
    same row order, and the same lookups in these four columns, give the
    same result, whatever their other columns hold. *)
Theorem other_columns_are_ignored
    (df_old df_new df_old' df_new' : DataFrame) (d : string) :
  index df_old = index df_old' -> index df_new = index df_new' ->
  (forall k c, In c ("CompanyName" :: columns_to_check) ->
               loc df_old k c = loc df_old' k c) ->
  (forall k c, In c ("CompanyName" :: columns_to_check) ->
               loc df_new k c = loc df_new' k c) ->
  find_changes (Some (WithCIN df_old)) (Some (WithCIN df_new)) d
  = find_changes (Some (WithCIN df_old')) (Some (WithCIN df_new')) d.
Proof.
  intros Io In' Ho Hn. rewrite !find_changes_frames. unfold compare_frames.
  rewrite <- Io, <- In'.
  rewrite (for_each_ext (new_incorporation df_new d) (new_incorporation df_new' d)).
  2:{ intros k a _. unfold new_incorporation.
      rewrite (Hn k "CompanyName" (or_introl eq_refl)). reflexivity. }
  destruct (for_each (index_difference (index df_new) (index df_old))
              (new_incorporation df_new' d) []) as [a|e]; cbn [bind];
    [|reflexivity].
  rewrite (for_each_ext (deregistered df_old d) (deregistered df_old' d)).
  2:{ intros k acc _. unfold deregistered.
      rewrite (Ho k "CompanyName" (or_introl eq_refl)). reflexivity. }
  destruct (for_each (index_difference (index df_old) (index df_new))
              (deregistered df_old' d) a) as [r|e]; cbn [bind]; [|reflexivity].
  apply for_each_ext. intros k acc _. apply for_each_ext.
  intros c acc' Hc. unfold field_update.
  rewrite (Ho k c (or_intror Hc)), (Hn k c (or_intror Hc)). reflexivity.
Qed.

Lemma other_columns_are_ignored_witness :
  find_changes (Some (WithCIN scenario_old)) (Some (WithCIN scenario_new)) "Day 2"
  = find_changes (Some (WithCIN scenario_old)) (Some (WithCIN extended_new)) "Day 2".
Proof.
  apply (other_columns_are_ignored scenario_old scenario_new scenario_old
           extended_new "Day 2").
  - reflexivity.
  - reflexivity.
  - reflexivity.
  - intros k c Hc. unfold loc, rows_of, scenario_new, extended_new.
    cbn [rows columns filter map fst snd].
    destruct (String.eqb "K2" k), (String.eqb "K3" k);
      simpl in Hc; destruct Hc as [<-|[<-|[<-|[<-|[]]]]]; reflexivity.
Defined.
